(** * rc-bridge: pairing, framing and channel hopping over ESP-NOW

    A shallow embedding of [RCBridge::RCBridgeBase], [RCBridge::BasicSender]
    and [RCBridge::BasicReceiver].  Member functions become functions over
    records holding the data members; calls into the radio SDK, the PRNG, the
    clock and the user hooks are run in a state monad over a [World] that
    records every call and supplies the results the SDK will give.
    [float] is IEEE-754 binary32, taken from the Standard Library's
    [SpecFloat] at precision 24 and exponent bound 128.  [debug] output is
    not modelled. *)

From Stdlib Require Import ZArith List Bool Lia String Ascii.
From Stdlib Require Import Floats.SpecFloat.
From stdpp Require Import gmap strings.
Import ListNotations.

Local Open Scope Z_scope.

(** ** Fixed-width integers *)

Definition uint8 (z : Z) : Z := z mod 256.
Definition int8 (z : Z) : Z := (z + 128) mod 256 - 128.

(** ** [float]

    The ESP8266 has no floating-point unit: every [*], [+], [-] and [<] on
    [float] is one soft-float routine that rounds its own result to nearest,
    ties to even, so [a * b + c] is two roundings. *)

Module F32.

Definition prec : Z := 24.
Definition emax : Z := 128.

Definition float := spec_float.

Definition mul : float -> float -> float := SFmul prec emax.
Definition add : float -> float -> float := SFadd prec emax.
Definition sub : float -> float -> float := SFsub prec emax.
Definition div : float -> float -> float := SFdiv prec emax.
Definition ltb : float -> float -> bool := SFltb.
Definition leb : float -> float -> bool := SFleb.

(** Conversion of an [int] (also of a promoted [bool]) to [float]. *)
Definition of_int (z : Z) : float := binary_normalize prec emax z 0 false.

Definition zero : float := of_int 0.
Definition one : float := of_int 1.

(** A decimal literal [n/d] with [n] and [d] exactly representable is the
    correctly rounded quotient. *)
Definition literal (n d : Z) : float := div (of_int n) (of_int d).

(** [0 <= x <= 1] with the comparisons of the machine. *)
Definition in_unit (x : float) : bool := leb zero x && leb x one.

(** The value [m * 2^e] as an integer, in units of [2^-bias]. *)
Definition bias : Z := 200.
Definition scaled (m : positive) (e : Z) : Z := Z.pos m * 2 ^ (e + bias).

(** [x] is [+0], or positive and canonical in the format with value at
    most [B] units: in particular not a NaN and not an infinity. *)
Definition upto (B : Z) (x : float) : Prop :=
  match x with
  | S754_zero false => True
  | S754_finite false m e => bounded prec emax m e = true /\ scaled m e <= B
  | _ => False
  end.

(** Canonical and between 0 and 1. *)
Definition unit_ok (x : float) : Prop := upto (2 ^ bias) x.

(** A record of the rounding machinery that stands for [M] shifted right
    by [k] places: the mantissa is the quotient, and the two flags are
    clear exactly when no bit was lost. *)
Definition shifted (M k : Z) (x : shr_record) : Prop :=
  shr_m x = M / 2 ^ k /\ (orb (shr_r x) (shr_s x) = false <-> M mod 2 ^ k = 0).

End F32.

(** ** Wire constants of [RCBridgeBase] *)

Definition FPATH_PEER : string := "peer.info".
Definition MIN_CHANNEL : Z := 1.
Definition MAX_CHANNEL : Z := 13.
Definition INIT_CHANNEL : Z := 7.
Definition CMD_SEARCH : Z := 1.
Definition RPL_SEARCH : Z := 2.
Definition CMD_HOP : Z := 3.
Definition RPL_HOP : Z := 4.
Definition CMD_DATA : Z := 5.

(** ** The substrate: radio SDK, clock, PRNG, user hooks *)

Inductive effect : Type :=
| Tx (addr frame : list Z) (rc : Z)   (* esp_now_send(addr, frame, len) returned rc *)
| SetChannel (c : Z) (ok : bool)      (* wifi_set_channel(c) returned ok *)
| Data (payload : list Z)             (* onData(len, data) *)
| LowQuality.                         (* onLowRadioQuality() *)

Record World : Type := mkWorld {
  trace : list effect;       (* calls made so far, oldest first *)
  send_rc : nat -> Z;        (* return codes of the coming esp_now_send calls *)
  chan_ok : nat -> bool;     (* results of the coming wifi_set_channel calls *)
  clock : nat -> Z;          (* values of the coming micros() reads *)
  prng : Z -> nat -> Z;      (* k-th raw output of the generator seeded with s *)
  seed : Z;                  (* current seed *)
  draws : nat                (* outputs drawn since the last randomSeed *)
}.

Definition M (A : Type) : Type := World -> A * World.

Definition ret {A : Type} (a : A) : M A := fun w => (a, w).

Definition bind {A B : Type} (m : M A) (k : A -> M B) : M B :=
  fun w => let (a, w') := m w in k a w'.

Declare Scope world_scope.
Delimit Scope world_scope with world.
Notation "x <- m ;; k" := (bind m (fun x => k))
  (at level 100, m at next level, right associativity) : world_scope.
Notation "m ;;; k" := (bind m (fun _ => k))
  (at level 100, right associativity) : world_scope.
Local Open Scope world_scope.

Definition tail_of {A : Type} (f : nat -> A) : nat -> A := fun k => f (S k).

Definition log (e : effect) (w : World) : World :=
  mkWorld (trace w ++ [e]) (send_rc w) (chan_ok w) (clock w) (prng w) (seed w) (draws w).

(** [esp_now_send(da, data, len)]: hands the first [len] bytes of [data] to
    the radio, for the 6-byte address at [da]; [0] means accepted. *)
Definition esp_now_send (da data : list Z) (len : Z) : M Z :=
  fun w =>
    let rc := send_rc w 0%nat in
    (rc, mkWorld (trace w ++ [Tx (take 6 da) (take (Z.to_nat len) data) rc])
                 (tail_of (send_rc w)) (chan_ok w) (clock w) (prng w) (seed w) (draws w)).

Definition wifi_set_channel (c : Z) : M bool :=
  fun w =>
    let ok := chan_ok w 0%nat in
    (ok, mkWorld (trace w ++ [SetChannel c ok])
                 (send_rc w) (tail_of (chan_ok w)) (clock w) (prng w) (seed w) (draws w)).

Definition micros : M Z :=
  fun w =>
    (clock w 0%nat,
     mkWorld (trace w) (send_rc w) (chan_ok w) (tail_of (clock w)) (prng w) (seed w) (draws w)).

Definition randomSeed (s : Z) : M unit :=
  fun w =>
    (tt, mkWorld (trace w) (send_rc w) (chan_ok w) (clock w) (prng w) s 0%nat).

(** [random(howsmall, howbig)] *)
Definition random (howsmall howbig : Z) : M Z :=
  fun w =>
    (if howbig <=? howsmall then howsmall
     else prng w (seed w) (draws w) mod (howbig - howsmall) + howsmall,
     mkWorld (trace w) (send_rc w) (chan_ok w) (clock w) (prng w) (seed w) (S (draws w))).

(** [for(i = 0; i < n; i++) buf[i] = (uint8_t)random(0, 256);] *)
Fixpoint random_bytes (n : nat) : M (list Z) :=
  match n with
  | O => ret []
  | S n' =>
      b <- random 0 256 ;;
      bs <- random_bytes n' ;;
      ret (uint8 b :: bs)
  end.

(** The bytes [random_bytes] yields once the generator has been seeded
    with [s]: its first outputs, each reduced as [random(0, 256)] does. *)
Definition key_of_seed (w : World) (s : Z) (n : nat) : list Z :=
  map (fun k => uint8 (prng w s k mod (256 - 0) + 0)) (seq 0 n).

(** ** Data members shared by both roles *)

Record Peer : Type := mkPeer {
  addr : list Z;   (* uint8_t addr[6] *)
  key : list Z     (* uint8_t key[16] *)
}.

Definition sizeof_key : Z := 16.

(** ** [BasicSender] *)

Module BasicSender.

(** [0.01f] and [0.75f] *)
Definition quality_weight : F32.float := F32.literal 1 100.
Definition hop_threshold : F32.float := F32.literal 3 4.

Record t : Type := mk {
  matched : bool;
  peer : Peer;
  radio_quality : F32.float
}.

(** [virtual void onLowRadioQuality() {}]: the hook does nothing of its
    own; the call is recorded. *)
Definition onLowRadioQuality : M unit := fun w => (tt, log LowQuality w).

(** [bool send(uint8_t len, const void* data)] *)
Definition send (s : t) (len : Z) (data : list Z) : M bool :=
  if 249 <? len then ret false
  else
    let command := CMD_DATA :: take (Z.to_nat len) data in
    rc <- esp_now_send (addr (peer s)) command (uint8 (len + 1)) ;;
    if negb (rc =? 0) then ret false else ret true.

(** [void onReceived(uint8_t* addr, uint8_t* data, uint8_t len)] *)
Definition onReceived (s : t) (a data : list Z) (len : Z) : M t :=
  if negb (matched s) then
    if (len =? 1 + sizeof_key) && (nth 0 data 0 =? RPL_SEARCH) then
      ret (mk true (mkPeer (take 6 a) (take (Z.to_nat sizeof_key) (drop 1 data)))
              (radio_quality s))
    else ret s
  else
    if (len =? 2) && (nth 0 data 0 =? RPL_HOP) then
      let channel := nth 1 data 0 in
      _ <- wifi_set_channel channel ;;
      ret s
    else ret s.

(** [static constexpr float cw = 1.0f - quality_weight;] *)
Definition cw : F32.float := F32.sub F32.one quality_weight.

(** [radio_quality * cw + (status == 0) * quality_weight] *)
Definition smoothed (q : F32.float) (status : Z) : F32.float :=
  F32.add (F32.mul q cw)
          (F32.mul (F32.of_int (if status =? 0 then 1 else 0)) quality_weight).

(** [void onSent(uint8_t* addr, uint8_t status)] *)
Definition onSent (s : t) (a : list Z) (status : Z) : M t :=
  if negb (matched s) then ret s
  else
    let q := smoothed (radio_quality s) status in
    if F32.ltb q hop_threshold then
      onLowRadioQuality ;;;
      rc <- esp_now_send (addr (peer s)) [CMD_HOP] 1 ;;
      if rc =? 0 then ret (mk (matched s) (peer s) F32.one)
      else ret (mk (matched s) (peer s) q)
    else ret (mk (matched s) (peer s) q).

(** The upcalls and calls a sender sees after [begin]. *)
Inductive event : Type :=
| Received (a data : list Z) (len : Z)
| Sent (a : list Z) (status : Z)
| Send (len : Z) (data : list Z).

Definition step (s : t) (e : event) : M t :=
  match e with
  | Received a data len => onReceived s a data len
  | Sent a status => onSent s a status
  | Send len data => _ <- send s len data ;; ret s
  end.

Fixpoint run (es : list event) (s : t) : M t :=
  match es with
  | [] => ret s
  | e :: es' => s' <- step s e ;; run es' s'
  end.

(** An ack that reports failure. *)
Definition ack_failed (e : event) : Prop :=
  match e with
  | Sent _ status => status <> 0
  | _ => False
  end.

(** The quality after [n] failed acks in a row from [q], if it stays at or
    above the threshold all along. *)
Fixpoint quiet (n : nat) (q : F32.float) : option F32.float :=
  match n with
  | O => Some q
  | S n' =>
      let q' := smoothed q 1 in
      if F32.ltb q' hop_threshold then None else quiet n' q'
  end.

(** A hop command handed to the radio, accepted or not. *)
Definition is_hop_request (e : effect) : bool :=
  match e with
  | Tx _ [c] _ => c =? CMD_HOP
  | _ => false
  end.

Fixpoint hop_requests (t : list effect) : nat :=
  match t with
  | [] => O
  | e :: t' => ((if is_hop_request e then 1 else 0) + hop_requests t')%nat
  end.

End BasicSender.

(** ** [BasicReceiver] *)

Module BasicReceiver.

Record t : Type := mk {
  matched : bool;
  peer : Peer;
  channel : Z;             (* uint8_t *)
  channel_direction : Z;   (* int8_t *)
  new_channel : Z          (* uint8_t *)
}.

(** [virtual void onData(uint8_t len, void* data)]: the hook only prints
    its [len] bytes; the call is recorded with them. *)
Definition onData (len : Z) (data : list Z) : M unit :=
  fun w => (tt, log (Data (take (Z.to_nat len) data)) w).

(** The candidate computed on a hop command. *)
Definition candidate (channel channel_direction : Z) : Z :=
  let new_channel := uint8 (channel + channel_direction) in
  if MAX_CHANNEL <? new_channel then uint8 (MAX_CHANNEL - 1)
  else if new_channel <? MIN_CHANNEL then uint8 (MIN_CHANNEL + 1)
  else new_channel.

(** [void onReceived(uint8_t* addr, uint8_t* data, uint8_t len)] *)
Definition onReceived (s : t) (a data : list Z) (len : Z) : M t :=
  if negb (matched s) then
    if (len =? 1) && (nth 0 data 0 =? CMD_SEARCH) then
      now <- micros ;;
      randomSeed now ;;;
      k <- random_bytes (Z.to_nat sizeof_key) ;;
      let reply := RPL_SEARCH :: take (Z.to_nat sizeof_key) k in
      _ <- esp_now_send a reply (1 + sizeof_key) ;;
      ret (mk (matched s) (mkPeer (take 6 a) k)
              (channel s) (channel_direction s) (new_channel s))
    else ret s
  else
    if (len =? 1) && (nth 0 data 0 =? CMD_HOP) then
      let nc := candidate (channel s) (channel_direction s) in
      _ <- esp_now_send (addr (peer s)) [RPL_HOP; nc] 2 ;;
      ret (mk (matched s) (peer s) (channel s) (channel_direction s) nc)
    else if (1 <=? len) && (nth 0 data 0 =? CMD_DATA) then
      onData (uint8 (len - 1)) (drop 1 data) ;;;
      ret s
    else ret s.

(** [void onSent(uint8_t* addr, uint8_t status)] *)
Definition onSent (s : t) (a : list Z) (status : Z) : M t :=
  if negb (matched s) then
    if status =? 0 then
      ret (mk true (peer s) (channel s) (channel_direction s) (new_channel s))
    else ret s
  else
    if status =? 0 then
      ok <- wifi_set_channel (new_channel s) ;;
      if ok then
        ret (mk (matched s) (peer s) (new_channel s)
                (int8 (new_channel s - channel s)) (new_channel s))
      else ret s
    else ret s.

(** The upcalls a receiver sees after [begin]. *)
Inductive event : Type :=
| Received (a data : list Z) (len : Z)
| Sent (a : list Z) (status : Z).

Definition step (s : t) (e : event) : M t :=
  match e with
  | Received a data len => onReceived s a data len
  | Sent a status => onSent s a status
  end.

Fixpoint run (es : list event) (s : t) : M t :=
  match es with
  | [] => ret s
  | e :: es' => s' <- step s e ;; run es' s'
  end.

(** The calls of [wifi_set_channel] recorded in a trace, oldest first. *)
Definition channel_calls (t : list effect) : list (Z * bool) :=
  flat_map (fun e => match e with SetChannel c ok => [(c, ok)] | _ => [] end) t.

(** The channel byte of a hop reply handed to the radio. *)
Definition hop_reply_of (e : effect) : option Z :=
  match e with
  | Tx _ [tag; c] _ => if tag =? RPL_HOP then Some c else None
  | _ => None
  end.



(** An upcall that is not a successful ack. *)
Definition ack_failed (e : event) : Prop :=
  match e with
  | Sent _ status => status <> 0
  | Received _ _ _ => True
  end.

(** A search reply handed to the radio: tag 2 and a 16-byte key. *)
Definition is_search_reply (e : effect) : Prop :=
  match e with
  | Tx _ (tag :: k) _ => tag = RPL_SEARCH /\ length k = 16%nat
  | _ => False
  end.

End BasicReceiver.

(** ** [RCBridgeBase::reset] over the blob store *)

(** The two calls of [LittleFS] that [reset] makes. *)
Class BlobStore (FS : Type) : Type := {
  fs_exists : FS -> string -> bool;
  fs_remove : FS -> string -> bool * FS
}.

(** What a store promises about them: a successful [remove] leaves no blob
    under the name, and a failed one leaves the store as it was. *)
Class BlobStoreLaws (FS : Type) `{BlobStore FS} : Prop := {
  remove_done : forall fs n fs', fs_remove fs n = (true, fs') -> fs_exists fs' n = false;
  remove_failed : forall fs n fs', fs_remove fs n = (false, fs') -> fs' = fs
}.

Module RCBridgeBase.

(** [bool reset()] *)
Definition reset {FS : Type} `{BlobStore FS} (fs : FS) : bool * FS :=
  if fs_exists fs FPATH_PEER then
    let (removed, fs') := fs_remove fs FPATH_PEER in
    if negb removed then (false, fs') else (true, fs')
  else (true, fs).

End RCBridgeBase.

(** A flash image: named blobs, and a write-protect switch under which
    [remove] fails. *)
Record Flash : Type := mkFlash {
  blobs : gmap string (list Z);
  write_protected : bool
}.

#[export] Instance Flash_store : BlobStore Flash := {
  fs_exists fs n := bool_decide (is_Some (blobs fs !! n));
  fs_remove fs n :=
    if write_protected fs then (false, fs)
    else match blobs fs !! n with
         | Some _ => (true, mkFlash (delete n (blobs fs)) (write_protected fs))
         | None => (false, fs)
         end
}.

(** ** Text form of the peer record *)

(** One hexadecimal digit, lower case, as [%x] prints it. *)
Definition hex_digit (n : Z) : ascii :=
  nth (Z.to_nat n) (list_ascii_of_string "0123456789abcdef") "?"%char.

(** [sprintf(dst, "%02x", b)] for a byte [b]: the two characters written
    before the terminating NUL, which the next write overwrites. *)
Definition sprintf_02x (b : Z) : list ascii := [hex_digit (b / 16); hex_digit (b mod 16)].

(** The characters [toString] writes to [buffer] before the final NUL. *)
Definition toString_buffer (p : Peer) (only_addr : bool) : list ascii :=
  list_ascii_of_string "MAC = "
  ++ flat_map (fun i => (if (i =? 0)%nat then [] else [":"%char])
                        ++ sprintf_02x (nth i (addr p) 0)) (seq 0 6)
  ++ (if negb only_addr
      then list_ascii_of_string ", key = "
           ++ flat_map (fun i => sprintf_02x (nth i (key p) 0)) (seq 0 16)
      else []).

(** [String toString(bool only_addr = false) const] *)
Definition toString (p : Peer) (only_addr : bool) : string :=
  string_of_list_ascii (toString_buffer p only_addr).

(** The value of a hexadecimal digit. *)
Definition hex_value (c : ascii) : Z :=
  let n := Z.of_nat (nat_of_ascii c) in
  if (48 <=? n) && (n <=? 57) then n - 48
  else if (97 <=? n) && (n <=? 102) then n - 87
  else -1.

Definition is_byte (b : Z) : Prop := 0 <= b <= 255.

(** A peer record as the arrays hold it: 6 and 16 bytes. *)
Definition well_formed (p : Peer) : Prop :=
  length (addr p) = 6%nat /\ length (key p) = 16%nat /\
  Forall is_byte (addr p) /\ Forall is_byte (key p).


(** ** Vocabulary for runs *)

(** The channel bytes of the hop replies in a trace, oldest first. *)
Definition hop_reply_bytes (t : list effect) : list Z :=
  flat_map (fun e => match BasicReceiver.hop_reply_of e with
                     | Some c => [c]
                     | None => []
                     end) t.

Definition in_band (c : Z) : Prop := MIN_CHANNEL <= c <= MAX_CHANNEL.

(** An ack that reports success. *)
Definition ack_ok (e : BasicSender.event) : Prop :=
  match e with
  | BasicSender.Sent _ status => status = 0
  | _ => False
  end.

(** ** Sample endpoints and radios *)

Module Samples.

Definition mac_sender : list Z := [170; 187; 204; 221; 238; 255].
Definition mac_receiver : list Z := [2; 0; 94; 16; 32; 48].
Definition key0 : list Z := repeat 0 16.

(** A radio that accepts every frame and every channel. *)
Definition radio_accepting : World :=
  mkWorld [] (fun _ => 0) (fun _ => true)
          (fun k => 500000 * Z.of_nat (S k)) (fun s k => s + 7 * Z.of_nat k) 0 0.

(** A radio that rejects every frame and every channel. *)
Definition radio_rejecting : World :=
  mkWorld [] (fun _ => 1) (fun _ => false)
          (fun k => 500000 * Z.of_nat (S k)) (fun s k => s + 7 * Z.of_nat k) 0 0.

Definition sender_paired : BasicSender.t :=
  BasicSender.mk true (mkPeer mac_receiver key0) F32.one.

Definition receiver_unpaired : BasicReceiver.t :=
  BasicReceiver.mk false (mkPeer (repeat 0 6) key0) INIT_CHANNEL 1 0.

Definition receiver_paired : BasicReceiver.t :=
  BasicReceiver.mk true (mkPeer mac_sender key0) INIT_CHANNEL 1 0.

Definition receiver_at (c d : Z) : BasicReceiver.t :=
  BasicReceiver.mk true (mkPeer mac_sender key0) c d 0.

Definition flash_paired : Flash :=
  mkFlash {[ FPATH_PEER := mac_sender ++ key0 ]} false.

End Samples.

(** ** Start-up: [begin] and [searchForPeer] *)

(** [unsigned long] on this core is 32 bits wide. *)
Definition uint32 (z : Z) : Z := z mod 4294967296.

Definition FNAME_JSON : string := "config.json".

(** The rest of the SDK that [begin] goes through: the flash file system,
    and what each start-up call answers.  The configuration document, the
    access-point name and password and the web handlers only feed the
    configuration pages and are left out. *)
Record Sdk : Type := mkSdk {
  flash : Flash;                 (* LittleFS *)
  write_count : Z;               (* what file.write(&peer, 22) answers *)
  json_ok : list Z -> bool;      (* deserializeJson accepts the file *)
  wifi_mode_ok : bool;           (* WiFi.mode(WIFI_AP) *)
  soft_ap_ok : bool;             (* WiFi.softAP(name, password) *)
  soft_ap_config_ok : bool;      (* WiFi.softAPConfig(ip, ip, mask) *)
  esp_now_init_rc : Z;
  set_self_role_rc : Z;          (* esp_now_set_self_role(ESP_NOW_ROLE_COMBO) *)
  register_send_cb_rc : Z;
  register_recv_cb_rc : Z;
  add_peer_rc : Z                (* esp_now_add_peer(addr, COMBO, 0, key, 16) *)
}.

(** The 22 bytes of the [peer] struct, and the struct that 22 bytes make. *)
Definition sizeof_peer : Z := 22.
Definition peer_image (p : Peer) : list Z := addr p ++ key p.
Definition peer_of_image (img : list Z) : Peer := mkPeer (take 6 img) (take 16 (drop 6 img)).

(** The data members of [RCBridgeBase] inside a role's record. *)
Class Role (R : Type) : Type := {
  get_matched : R -> bool;
  get_peer : R -> Peer;
  set_matched : bool -> R -> R;
  set_peer : Peer -> R -> R
}.

#[export] Instance Sender_role : Role BasicSender.t := {
  get_matched := BasicSender.matched;
  get_peer := BasicSender.peer;
  set_matched b s := BasicSender.mk b (BasicSender.peer s) (BasicSender.radio_quality s);
  set_peer p s := BasicSender.mk (BasicSender.matched s) p (BasicSender.radio_quality s)
}.

#[export] Instance Receiver_role : Role BasicReceiver.t := {
  get_matched := BasicReceiver.matched;
  get_peer := BasicReceiver.peer;
  set_matched b s := BasicReceiver.mk b (BasicReceiver.peer s) (BasicReceiver.channel s)
                       (BasicReceiver.channel_direction s) (BasicReceiver.new_channel s);
  set_peer p s := BasicReceiver.mk (BasicReceiver.matched s) p (BasicReceiver.channel s)
                    (BasicReceiver.channel_direction s) (BasicReceiver.new_channel s)
}.

(** What the accessors of a role promise. *)
Class RoleLaws (R : Type) `{Role R} : Prop := {
  matched_set_matched : forall b r, get_matched (set_matched b r) = b;
  peer_set_matched : forall b r, get_peer (set_matched b r) = get_peer r;
  peer_set_peer : forall p r, get_peer (set_peer p r) = p;
  matched_set_peer : forall p r, get_matched (set_peer p r) = get_matched r
}.

Module Boot.

Section Begin.

Context {R : Type} `{Role R}.

(** [virtual bool searchForPeer() = 0]: [None] while it has not returned. *)
Variable searchForPeer : R -> M (option bool * R).

(** The end of [begin]: register the peer with its key. *)
Definition add_peer (sdk : Sdk) (fl : Flash) (r : R) : option bool * R * Flash :=
  if negb (add_peer_rc sdk =? 0) then (Some false, r, fl)
  else (Some true, set_matched true r, fl).

(** [bool RCBridgeBase::begin(const char* dir)]: the result, the data
    members and the flash afterwards. *)
Definition begin (dir : string) (sdk : Sdk) (r : R) : M (option bool * R * Flash) :=
  let fl := flash sdk in
  match blobs fl !! String.append dir FNAME_JSON with
  | None => ret (Some false, r, fl)
  | Some file =>
      if negb (json_ok sdk file) then ret (Some false, r, fl)
      else if negb (wifi_mode_ok sdk) then ret (Some false, r, fl)
      else if negb (soft_ap_ok sdk) then ret (Some false, r, fl)
      else if negb (soft_ap_config_ok sdk) then ret (Some false, r, fl)
      else
        let r := set_matched false r in
        ok <- wifi_set_channel INIT_CHANNEL ;;
        if negb ok then ret (Some false, r, fl)
        else if negb (esp_now_init_rc sdk =? 0) then ret (Some false, r, fl)
        else if negb (set_self_role_rc sdk =? 0) then ret (Some false, r, fl)
        else if negb (register_send_cb_rc sdk =? 0) then ret (Some false, r, fl)
        else if negb (register_recv_cb_rc sdk =? 0) then ret (Some false, r, fl)
        else if fs_exists fl FPATH_PEER then
          match blobs fl !! FPATH_PEER with
          | None => ret (Some false, r, fl)
          | Some file =>
              let nread := Z.min sizeof_peer (Z.of_nat (length file)) in
              let image := take (Z.to_nat nread) file
                           ++ drop (Z.to_nat nread) (peer_image (get_peer r)) in
              let r := set_peer (peer_of_image image) r in
              if negb (nread =? sizeof_peer) then ret (Some false, r, fl)
              else ret (add_peer sdk fl r)
          end
        else
          found <- searchForPeer r ;;
          match found with
          | (None, r) => ret (None, r, fl)
          | (Some false, r) => ret (Some false, r, fl)
          | (Some true, r) =>
              if write_protected fl then ret (Some false, r, fl)
              else
                let nwrite := write_count sdk in
                let fl := mkFlash (<[FPATH_PEER := take (Z.to_nat nwrite) (peer_image (get_peer r))]>
                                     (blobs fl))
                                  (write_protected fl) in
                if negb (nwrite =? sizeof_peer) then ret (Some false, r, fl)
                else ret (add_peer sdk fl r)
          end
  end.

End Begin.

(** Every start-up call before the peer is looked for succeeds. *)
Definition ready (dir : string) (sdk : Sdk) (w : World) : Prop :=
  (exists file, blobs (flash sdk) !! String.append dir FNAME_JSON = Some file /\
                json_ok sdk file = true) /\
  wifi_mode_ok sdk = true /\ soft_ap_ok sdk = true /\ soft_ap_config_ok sdk = true /\
  chan_ok w 0%nat = true /\
  esp_now_init_rc sdk = 0 /\ set_self_role_rc sdk = 0 /\
  register_send_cb_rc sdk = 0 /\ register_recv_cb_rc sdk = 0.

(** The world once [begin] has set the initial channel. *)
Definition tuned (w : World) : World :=
  mkWorld (trace w ++ [SetChannel INIT_CHANNEL true])
          (send_rc w) (tail_of (chan_ok w)) (clock w) (prng w) (seed w) (draws w).

(** The same SDK over another flash image. *)
Definition with_flash (fl : Flash) (sdk : Sdk) : Sdk :=
  mkSdk fl (write_count sdk) (json_ok sdk) (wifi_mode_ok sdk) (soft_ap_ok sdk)
        (soft_ap_config_ok sdk) (esp_now_init_rc sdk) (set_self_role_rc sdk)
        (register_send_cb_rc sdk) (register_recv_cb_rc sdk) (add_peer_rc sdk).

End Boot.

Module SenderBoot.

(** ["\xff\xff\xff\xff\xff\xff"] *)
Definition broadcast : list Z := repeat 255 6.

(** [web.handleClient()]: it serves the configuration pages; the upcalls
    the radio has pending run while the sketch is in there. *)
Definition handleClient (upcalls : list BasicSender.event) (s : BasicSender.t)
  : M BasicSender.t :=
  BasicSender.run upcalls s.

(** The [while(!matched)] loop of [searchForPeer], one list of upcalls for
    each pass through [web.handleClient()]; [None] when the passes run out
    with the loop still going. *)
Fixpoint search_loop (polls : list (list BasicSender.event)) (last_time : Z)
         (s : BasicSender.t) : M (option bool * BasicSender.t) :=
  if negb (BasicSender.matched s) then
    match polls with
    | [] => ret (None, s)
    | upcalls :: polls' =>
        now <- micros ;;
        if 500000 <=? uint32 (now - last_time) then
          rc <- esp_now_send broadcast [CMD_SEARCH] 1 ;;
          if negb (rc =? 0) then ret (Some false, s)
          else
            s' <- handleClient upcalls s ;;
            search_loop polls' now s'
        else
          s' <- handleClient upcalls s ;;
          search_loop polls' last_time s'
    end
  else ret (Some true, s).

(** [virtual bool searchForPeer() override] *)
Definition searchForPeer (polls : list (list BasicSender.event)) (s : BasicSender.t)
  : M (option bool * BasicSender.t) :=
  search_loop polls 0 s.

(** [bool BasicSender::begin()] *)
Definition begin (polls : list (list BasicSender.event)) (sdk : Sdk) (s : BasicSender.t)
  : M (option bool * BasicSender.t * Flash) :=
  let s := BasicSender.mk (BasicSender.matched s) (BasicSender.peer s) F32.one in
  Boot.begin (searchForPeer polls) "sender/" sdk s.

(** The search beacons in a trace. *)
Fixpoint beacons (t : list effect) : Z :=
  match t with
  | [] => 0
  | Tx _ [c] _ :: t' => (if c =? CMD_SEARCH then 1 else 0) + beacons t'
  | _ :: t' => beacons t'
  end.

End SenderBoot.

Module ReceiverBoot.

Definition handleClient (upcalls : list BasicReceiver.event) (r : BasicReceiver.t)
  : M BasicReceiver.t :=
  BasicReceiver.run upcalls r.

(** [virtual bool searchForPeer() override]: waits for the handshake. *)
Fixpoint searchForPeer (polls : list (list BasicReceiver.event)) (r : BasicReceiver.t)
  : M (option bool * BasicReceiver.t) :=
  if negb (BasicReceiver.matched r) then
    match polls with
    | [] => ret (None, r)
    | upcalls :: polls' =>
        r' <- handleClient upcalls r ;;
        searchForPeer polls' r'
    end
  else ret (Some true, r).

(** [bool BasicReceiver::begin()] *)
Definition begin (polls : list (list BasicReceiver.event)) (sdk : Sdk) (r : BasicReceiver.t)
  : M (option bool * BasicReceiver.t * Flash) :=
  let r := BasicReceiver.mk (BasicReceiver.matched r) (BasicReceiver.peer r)
                            INIT_CHANNEL 1 (BasicReceiver.new_channel r) in
  Boot.begin (searchForPeer polls) "receiver/" sdk r.

End ReceiverBoot.

(** A peer record with arrays of the declared sizes. *)
Definition peer_sized (p : Peer) : Prop := length (addr p) = 6%nat /\ length (key p) = 16%nat.

(** A clock that does not run backwards and stays within [0, T]. *)
Definition steady (T : Z) (c : nat -> Z) : Prop :=
  (forall i j, (i <= j)%nat -> c i <= c j) /\ (forall i, 0 <= c i <= T).

Module BootSamples.

(** A flash image with a configuration file for both roles. *)
Definition flash_fresh : Flash :=
  mkFlash {[ "sender/config.json"%string := [123; 125];
             "receiver/config.json"%string := [123; 125] ]} false.

(** The same with a stored peer. *)
Definition flash_stored : Flash :=
  mkFlash (<[FPATH_PEER := Samples.mac_receiver ++ Samples.key0]> (blobs flash_fresh)) false.

(** An SDK whose every call succeeds. *)
Definition sdk_on (fl : Flash) : Sdk :=
  mkSdk fl 22 (fun _ => true) true true true 0 0 0 0 0.

(** A search that finds the sample receiver at once. *)
Definition found_at_once (s : BasicSender.t) : M (option bool * BasicSender.t) :=
  ret (Some true, BasicSender.mk true (mkPeer Samples.mac_receiver Samples.key0)
                                 (BasicSender.radio_quality s)).

(** A radio that takes channel changes and rejects every frame. *)
Definition radio_deaf : World :=
  mkWorld [] (fun _ => 1) (fun _ => true) (fun k => Z.of_nat k) (fun s k => s) 0 0.

(** A radio that takes every frame, on a clock that stops at two seconds. *)
Definition radio_slow : World :=
  mkWorld [] (fun _ => 0) (fun _ => true)
          (fun k => Z.min (300000 * Z.of_nat k) 2000000) (fun s k => s) 0 0.

Definition sender_unpaired : BasicSender.t :=
  BasicSender.mk false (mkPeer (repeat 0 6) (repeat 0 16)) F32.one.

(** A search that is still going. *)
Definition still_searching (s : BasicSender.t) : M (option bool * BasicSender.t) :=
  ret (None, s).

End BootSamples.

(** * Properties *)

(** ** Helpers *)

Lemma uint8_small (z : Z) : 0 <= z < 256 -> uint8 z = z.
Proof. intros H. unfold uint8. now apply Z.mod_small. Qed.

Lemma take_whole {A : Type} (l : list A) (n : Z) :
  Z.of_nat (length l) = n -> take (Z.to_nat n) l = l.
Proof.
  intros <-. rewrite Nat2Z.id. apply firstn_all.
Qed.

Lemma take_succ_cons {A : Type} (x : A) (l : list A) (n : Z) :
  0 <= n -> take (Z.to_nat (n + 1)) (x :: l) = x :: take (Z.to_nat n) l.
Proof.
  intros H. rewrite Z2Nat.inj_add by lia.
  replace (Z.to_nat n + Z.to_nat 1)%nat with (S (Z.to_nat n)) by lia.
  reflexivity.
Qed.

(** ** The sender's transmit surface *)

(** C1, refuted as stated: a zero-length payload is not turned down.  On a
    radio that accepts, [send(0, data)] returns [true] and puts the one-byte
    frame [05] on the air. *)
Lemma send_empty_payload_accepted :
  fst (BasicSender.send Samples.sender_paired 0 [] Samples.radio_accepting) = true /\
  trace (snd (BasicSender.send Samples.sender_paired 0 [] Samples.radio_accepting))
  = [Tx Samples.mac_receiver [CMD_DATA] 0].
Proof. split; reflexivity. Qed.

(** C1, amended: [send] fails without touching the radio exactly when the
    length exceeds 249.  For every length from 0 to 249 it hands the
    (length+1)-byte frame [05 || payload] to the unicast primitive, addressed
    to the peer, and returns [true] exactly when the primitive returned 0.
    So 250 bytes are turned down and 249 bytes give a 250-byte frame. *)
Theorem send_frames_payload (s : BasicSender.t) (len : Z) (data : list Z) (w : World) :
  0 <= len < 256 ->
  Z.of_nat (length data) = len ->
  (249 < len -> BasicSender.send s len data w = (false, w)) /\
  (len <= 249 ->
   Z.of_nat (length (CMD_DATA :: data)) = len + 1 /\
   trace (snd (BasicSender.send s len data w))
   = trace w ++ [Tx (take 6 (addr (BasicSender.peer s))) (CMD_DATA :: data) (send_rc w 0%nat)] /\
   (fst (BasicSender.send s len data w) = true <-> send_rc w 0%nat = 0)) /\
  (len = 250 -> fst (BasicSender.send s len data w) = false) /\
  (len = 249 ->
   exists rc, trace (snd (BasicSender.send s len data w))
              = trace w ++ [Tx (take 6 (addr (BasicSender.peer s))) (CMD_DATA :: data) rc]
              /\ length (CMD_DATA :: data) = 250%nat).
Proof.
  intros Hrange Hlen.
  assert (Hbig : 249 < len -> BasicSender.send s len data w = (false, w)).
  { intros H. unfold BasicSender.send.
    destruct (Z.ltb_spec 249 len); [reflexivity | lia]. }
  assert (Hok : len <= 249 ->
    BasicSender.send s len data w
    = (negb (negb (send_rc w 0%nat =? 0)),
       mkWorld (trace w ++ [Tx (take 6 (addr (BasicSender.peer s))) (CMD_DATA :: data) (send_rc w 0%nat)])
               (tail_of (send_rc w)) (chan_ok w) (clock w) (prng w) (seed w) (draws w))).
  { intros H. unfold BasicSender.send.
    destruct (Z.ltb_spec 249 len); [lia |].
    unfold bind, esp_now_send, ret.
    rewrite uint8_small by lia.
    rewrite take_succ_cons by lia.
    rewrite (take_whole data len Hlen).
    rewrite (take_whole data len Hlen).
    destruct (send_rc w 0%nat =? 0); reflexivity. }
  split; [exact Hbig |].
  split.
  { intros H. rewrite (Hok H). cbn [fst snd trace length].
    split; [lia |]. split; [reflexivity |].
    rewrite negb_involutive. apply Z.eqb_eq. }
  split.
  { intros H. rewrite Hbig by lia. reflexivity. }
  intros H. exists (send_rc w 0%nat). rewrite Hok by lia. cbn [fst snd trace length].
  split; [reflexivity | lia].
Qed.

Lemma send_frames_payload_witness :
  let data := repeat 9 249 in
  Z.of_nat (length (CMD_DATA :: data)) = 249 + 1 /\
  trace (snd (BasicSender.send Samples.sender_paired 249 data Samples.radio_accepting))
  = [Tx Samples.mac_receiver (CMD_DATA :: data) 0] /\
  (fst (BasicSender.send Samples.sender_paired 249 data Samples.radio_accepting) = true
   <-> 0 = 0).
Proof.
  intros data.
  apply (send_frames_payload Samples.sender_paired 249 data Samples.radio_accepting);
    [lia | reflexivity | lia].
Defined.

(** ** The sender follows the receiver's channel *)

(** C10: a paired sender passes the channel byte of a two-byte frame with
    tag 4 to [wifi_set_channel] as it is, whatever its value in 0..255; no
    comparison with [MIN_CHANNEL] or [MAX_CHANNEL] is made, and the sender's
    own state is untouched. *)
Theorem sender_hops_unchecked (s : BasicSender.t) (a : list Z) (c : Z) (w : World) :
  BasicSender.matched s = true ->
  0 <= c <= 255 ->
  BasicSender.onReceived s a [RPL_HOP; c] 2 w
  = (s, mkWorld (trace w ++ [SetChannel c (chan_ok w 0%nat)])
                (send_rc w) (tail_of (chan_ok w)) (clock w) (prng w) (seed w) (draws w)).
Proof.
  intros Hm _. unfold BasicSender.onReceived. rewrite Hm. reflexivity.
Qed.

Lemma sender_hops_unchecked_witness :
  trace (snd (BasicSender.onReceived Samples.sender_paired Samples.mac_receiver
                                     [RPL_HOP; 200] 2 Samples.radio_accepting))
  = [SetChannel 200 true].
Proof.
  rewrite (sender_hops_unchecked Samples.sender_paired Samples.mac_receiver 200
                                 Samples.radio_accepting);
    [reflexivity | reflexivity | lia].
Defined.

(** ** The receiver's dispatcher *)

(** C2, refuted as stated: a DATA frame that is the tag byte alone is not
    dropped.  A paired receiver hands it to [onData] with an empty payload. *)
Lemma data_tag_only_delivered :
  trace (snd (BasicReceiver.onReceived Samples.receiver_paired Samples.mac_sender
                                       [CMD_DATA] 1 Samples.radio_accepting))
  = [Data []].
Proof. reflexivity. Qed.

(** C2, amended: a paired receiver delivers every frame whose tag byte is 5
    and whose total length is at least 1 (up to the 255 the length byte can
    hold; the radio keeps it at most 250) to [onData], once, with the bytes
    after the tag as payload: length 1 gives the empty payload.  Nothing
    else happens: the receiver's state, and the world apart from that one
    delivery, are as before.  A frame of length 0 is dropped. *)
Theorem data_frame_delivered (s : BasicReceiver.t) (a data : list Z) (len : Z) (w : World) :
  BasicReceiver.matched s = true ->
  Z.of_nat (length data) = len ->
  len <= 255 ->
  (1 <= len -> nth 0 data 0 = CMD_DATA ->
   BasicReceiver.onReceived s a data len w = (s, log (Data (drop 1 data)) w)) /\
  (len = 0 -> BasicReceiver.onReceived s a data len w = (s, w)).
Proof.
  intros Hm Hlen Hmax. split.
  - intros H1 Htag. unfold BasicReceiver.onReceived. rewrite Hm, Htag.
    cbn [negb]. change (CMD_DATA =? CMD_HOP) with false. rewrite andb_false_r.
    destruct (Z.leb_spec 1 len); [| lia].
    cbn [andb]. change (CMD_DATA =? CMD_DATA) with true. cbv iota.
    unfold bind, BasicReceiver.onData, ret.
    rewrite uint8_small by lia.
    rewrite (take_whole (drop 1 data) (len - 1)); [reflexivity |].
    rewrite length_drop. lia.
  - intros ->. unfold BasicReceiver.onReceived. rewrite Hm. reflexivity.
Qed.

Lemma data_frame_delivered_witness :
  BasicReceiver.onReceived Samples.receiver_paired Samples.mac_sender [CMD_DATA; 17; 34] 3
                           Samples.radio_accepting
  = (Samples.receiver_paired, log (Data [17; 34]) Samples.radio_accepting).
Proof.
  apply (data_frame_delivered Samples.receiver_paired Samples.mac_sender [CMD_DATA; 17; 34] 3
                              Samples.radio_accepting);
    [reflexivity | reflexivity | lia | lia | reflexivity].
Defined.

(** ** Pairing on the receiver *)

Lemma random_bytes_spec (n : nat) (w : World) :
  random_bytes n w
  = (map (fun k => uint8 (prng w (seed w) k mod (256 - 0) + 0)) (seq (draws w) n),
     mkWorld (trace w) (send_rc w) (chan_ok w) (clock w) (prng w) (seed w) (draws w + n)).
Proof.
  revert w. induction n as [| n IH]; intros w.
  - destruct w; cbn. now rewrite Nat.add_0_r.
  - cbn [random_bytes]. unfold bind at 1. unfold random at 1.
    change (256 <=? 0) with false. cbv iota.
    unfold bind at 1. rewrite IH. cbn [trace send_rc chan_ok clock prng seed draws ret].
    unfold ret. cbn [seq map]. f_equal. f_equal. lia.
Qed.

Lemma length_key_of_seed (w : World) (s : Z) (n : nat) : length (key_of_seed w s n) = n.
Proof. unfold key_of_seed. now rewrite length_map, length_seq. Qed.

(** What an unpaired receiver does with a search beacon. *)
Lemma unpaired_answers_search (s : BasicReceiver.t) (a data : list Z) (w : World) :
  BasicReceiver.matched s = false ->
  nth 0 data 0 = CMD_SEARCH ->
  let k := key_of_seed w (clock w 0%nat) 16 in
  BasicReceiver.onReceived s a data 1 w
  = (BasicReceiver.mk false (mkPeer (take 6 a) k) (BasicReceiver.channel s)
                      (BasicReceiver.channel_direction s) (BasicReceiver.new_channel s),
     mkWorld (trace w ++ [Tx (take 6 a) (RPL_SEARCH :: k) (send_rc w 0%nat)])
             (tail_of (send_rc w)) (chan_ok w) (tail_of (clock w)) (prng w)
             (clock w 0%nat) 16).
Proof.
  intros Hm Htag k. unfold BasicReceiver.onReceived. rewrite Hm, Htag.
  cbn [negb]. change ((1 =? 1) && (CMD_SEARCH =? CMD_SEARCH)) with true. cbv iota.
  unfold bind at 1. unfold micros at 1.
  unfold bind at 1. unfold randomSeed at 1.
  unfold bind at 1. rewrite random_bytes_spec.
  cbn [trace send_rc chan_ok clock prng seed draws].
  change (Z.to_nat sizeof_key) with 16%nat.
  change (map (fun k0 : nat => uint8 (prng w (clock w 0%nat) k0 mod (256 - 0) + 0)) (seq 0 16))
    with k.
  unfold bind, esp_now_send, ret.
  cbn [trace send_rc chan_ok clock prng seed draws].
  change (Z.to_nat (1 + sizeof_key)) with 17%nat.
  assert (Hk : take 16 k = k) by (apply firstn_all2; unfold k; now rewrite length_key_of_seed).
  rewrite Hk.
  replace (take 17 (RPL_SEARCH :: k)) with (RPL_SEARCH :: k)
    by (change (take 17 (RPL_SEARCH :: k)) with (RPL_SEARCH :: take 16 k); now rewrite Hk).
  reflexivity.
Qed.

(** An unpaired receiver stays unpaired through one upcall that is not a
    successful ack, and whatever it hands to the radio is a search reply. *)
Lemma unpaired_step (s : BasicReceiver.t) (e : BasicReceiver.event) (w : World) :
  BasicReceiver.matched s = false ->
  BasicReceiver.ack_failed e ->
  BasicReceiver.matched (fst (BasicReceiver.step s e w)) = false /\
  exists l, trace (snd (BasicReceiver.step s e w)) = trace w ++ l /\
            Forall BasicReceiver.is_search_reply l.
Proof.
  intros Hm He. destruct e as [a data len | a status]; cbn [BasicReceiver.step].
  - destruct ((len =? 1) && (nth 0 data 0 =? CMD_SEARCH)) eqn:Hc.
    + apply andb_true_iff in Hc as [Hl Ht].
      apply Z.eqb_eq in Hl, Ht. subst len.
      rewrite (unpaired_answers_search s a data w Hm Ht). cbn [fst snd trace].
      split; [reflexivity |]. eexists. split; [reflexivity |].
      constructor; [| constructor]. cbn [BasicReceiver.is_search_reply].
      split; [reflexivity | apply length_key_of_seed].
    + unfold BasicReceiver.onReceived. rewrite Hm, Hc. cbn.
      split; [exact Hm |]. exists []. rewrite app_nil_r. split; [reflexivity | constructor].
  - cbn in He. unfold BasicReceiver.onSent. rewrite Hm. cbn [negb].
    destruct (Z.eqb_spec status 0); [contradiction |]. cbn.
    split; [exact Hm |]. exists []. rewrite app_nil_r. split; [reflexivity | constructor].
Qed.

Lemma unpaired_run (es : list BasicReceiver.event) (s : BasicReceiver.t) (w : World) :
  BasicReceiver.matched s = false ->
  Forall BasicReceiver.ack_failed es ->
  BasicReceiver.matched (fst (BasicReceiver.run es s w)) = false /\
  exists l, trace (snd (BasicReceiver.run es s w)) = trace w ++ l /\
            Forall BasicReceiver.is_search_reply l.
Proof.
  revert s w. induction es as [| e es IH]; intros s w Hm Hes.
  - cbn. split; [exact Hm |]. exists []. rewrite app_nil_r. split; [reflexivity | constructor].
  - inversion Hes as [| ? ? He Hes']; subst.
    destruct (unpaired_step s e w Hm He) as [Hm1 [l1 [Ht1 Hl1]]].
    cbn [BasicReceiver.run]. unfold bind.
    destruct (BasicReceiver.step s e w) as [s1 w1] eqn:Hstep.
    cbn [fst snd] in Hm1, Ht1.
    destruct (IH s1 w1 Hm1 Hes') as [Hm2 [l2 [Ht2 Hl2]]].
    split; [exact Hm2 |].
    exists (l1 ++ l2). split.
    + rewrite Ht2, Ht1. now rewrite app_assoc.
    + apply Forall_app. split; assumption.
Qed.

(** C3: an unpaired receiver becomes paired by one upcall only, the ack
    with status 0.  Through every sequence of upcalls in which no ack
    reports status 0 it stays unpaired and hands nothing but search replies
    to the radio, and a search beacon that arrives next is answered with a
    reply whose 16-byte key is drawn anew, from the generator seeded with the
    microsecond counter read at that moment; that key and the beacon's
    address become the peer record. *)
Theorem receiver_commits_on_ack (s : BasicReceiver.t) (w : World) :
  BasicReceiver.matched s = false ->
  (forall e, BasicReceiver.matched (fst (BasicReceiver.step s e w)) = true
             <-> exists a, e = BasicReceiver.Sent a 0) /\
  (forall es, Forall BasicReceiver.ack_failed es ->
     let s' := fst (BasicReceiver.run es s w) in
     let w' := snd (BasicReceiver.run es s w) in
     BasicReceiver.matched s' = false /\
     (exists l, trace w' = trace w ++ l /\ Forall BasicReceiver.is_search_reply l) /\
     forall a data, nth 0 data 0 = CMD_SEARCH ->
       let k := key_of_seed w' (clock w' 0%nat) 16 in
       let r := BasicReceiver.onReceived s' a data 1 w' in
       length k = 16%nat /\
       BasicReceiver.matched (fst r) = false /\
       BasicReceiver.peer (fst r) = mkPeer (take 6 a) k /\
       trace (snd r) = trace w' ++ [Tx (take 6 a) (RPL_SEARCH :: k) (send_rc w' 0%nat)]).
Proof.
  intros Hm. split.
  - intros e. destruct e as [a data len | a status]; cbn [BasicReceiver.step].
    + split.
      * intros H. exfalso.
        destruct (unpaired_step s (BasicReceiver.Received a data len) w Hm I) as [H' _].
        cbn [BasicReceiver.step] in H'. congruence.
      * intros [a' H]. discriminate H.
    + unfold BasicReceiver.onSent. rewrite Hm. cbn [negb].
      destruct (Z.eqb_spec status 0) as [-> | Hne]; cbn.
      * split; [intros _; now exists a | reflexivity].
      * split; [congruence |]. intros [a' H]. injection H as _ H. contradiction.
  - intros es Hes s' w'.
    destruct (unpaired_run es s w Hm Hes) as [Hm' Htr].
    split; [exact Hm' |]. split; [exact Htr |].
    intros a data Htag k r. unfold r.
    rewrite (unpaired_answers_search s' a data w' Hm' Htag).
    cbn [fst snd trace BasicReceiver.matched BasicReceiver.peer].
    split; [apply length_key_of_seed |]. repeat split; reflexivity.
Qed.

Lemma receiver_commits_on_ack_witness :
  let es := [BasicReceiver.Received Samples.mac_sender [CMD_SEARCH] 1;
             BasicReceiver.Sent Samples.mac_sender 1] in
  let s' := fst (BasicReceiver.run es Samples.receiver_unpaired Samples.radio_accepting) in
  let w' := snd (BasicReceiver.run es Samples.receiver_unpaired Samples.radio_accepting) in
  BasicReceiver.matched s' = false /\
  (exists l, trace w' = [] ++ l /\ Forall BasicReceiver.is_search_reply l) /\
  forall a data, nth 0 data 0 = CMD_SEARCH ->
    let k := key_of_seed w' (clock w' 0%nat) 16 in
    let r := BasicReceiver.onReceived s' a data 1 w' in
    length k = 16%nat /\
    BasicReceiver.matched (fst r) = false /\
    BasicReceiver.peer (fst r) = mkPeer (take 6 a) k /\
    trace (snd r) = trace w' ++ [Tx (take 6 a) (RPL_SEARCH :: k) (send_rc w' 0%nat)].
Proof.
  intros es.
  apply (proj2 (receiver_commits_on_ack Samples.receiver_unpaired Samples.radio_accepting
                                        eq_refl) es).
  repeat constructor. cbn. lia.
Defined.

(** ** Channel hopping on the receiver *)

Lemma candidate_spec (ch d : Z) :
  1 <= ch <= 13 -> d = 1 \/ d = -1 ->
  BasicReceiver.candidate ch d
  = if 13 <? ch + d then 12 else if ch + d <? 1 then 2 else ch + d.
Proof.
  intros Hch Hd. unfold BasicReceiver.candidate, MAX_CHANNEL, MIN_CHANNEL.
  rewrite (uint8_small (ch + d)) by lia.
  destruct (13 <? ch + d); [reflexivity |].
  destruct (ch + d <? 1); reflexivity.
Qed.

(** What a paired receiver does with a hop command. *)
Lemma paired_answers_hop (s : BasicReceiver.t) (a data : list Z) (w : World) :
  BasicReceiver.matched s = true ->
  nth 0 data 0 = CMD_HOP ->
  let c := BasicReceiver.candidate (BasicReceiver.channel s) (BasicReceiver.channel_direction s) in
  BasicReceiver.onReceived s a data 1 w
  = (BasicReceiver.mk true (BasicReceiver.peer s) (BasicReceiver.channel s)
                      (BasicReceiver.channel_direction s) c,
     mkWorld (trace w ++ [Tx (take 6 (addr (BasicReceiver.peer s))) [RPL_HOP; c] (send_rc w 0%nat)])
             (tail_of (send_rc w)) (chan_ok w) (clock w) (prng w) (seed w) (draws w)).
Proof.
  intros Hm Htag c. unfold BasicReceiver.onReceived. rewrite Hm, Htag. reflexivity.
Qed.

(** What a paired receiver does with a successful ack. *)
Lemma paired_commits_hop (s : BasicReceiver.t) (a : list Z) (w : World) :
  BasicReceiver.matched s = true ->
  BasicReceiver.onSent s a 0 w
  = (if chan_ok w 0%nat
     then BasicReceiver.mk true (BasicReceiver.peer s) (BasicReceiver.new_channel s)
            (int8 (BasicReceiver.new_channel s - BasicReceiver.channel s))
            (BasicReceiver.new_channel s)
     else s,
     mkWorld (trace w ++ [SetChannel (BasicReceiver.new_channel s) (chan_ok w 0%nat)])
             (send_rc w) (tail_of (chan_ok w)) (clock w) (prng w) (seed w) (draws w)).
Proof.
  intros Hm. unfold BasicReceiver.onSent. rewrite Hm. cbn [negb Z.eqb].
  unfold bind, wifi_set_channel, ret. destruct (chan_ok w 0%nat); reflexivity.
Qed.

(** C4: with the current channel in 1..13 and the direction +1 or -1, the
    candidate a paired receiver computes on a hop command is current plus
    direction, reflected at the bounds (13 going up gives 12, 1 going down
    gives 2); it lies in [MIN_CHANNEL, MAX_CHANNEL] and differs from the
    current channel; it is what the hop reply carries.  When the hop is
    committed on the ack, the direction becomes candidate minus old channel,
    which is +1 or -1 and, at an edge, the opposite of the old direction. *)
Theorem hop_candidate_reflects (s : BasicReceiver.t) (a data : list Z) (w : World) :
  BasicReceiver.matched s = true ->
  1 <= BasicReceiver.channel s <= 13 ->
  BasicReceiver.channel_direction s = 1 \/ BasicReceiver.channel_direction s = -1 ->
  nth 0 data 0 = CMD_HOP ->
  let ch := BasicReceiver.channel s in
  let d := BasicReceiver.channel_direction s in
  let c := BasicReceiver.candidate ch d in
  let r := BasicReceiver.onReceived s a data 1 w in
  c = (if 13 <? ch + d then 12 else if ch + d <? 1 then 2 else ch + d) /\
  BasicReceiver.candidate 13 1 = 12 /\
  BasicReceiver.candidate 1 (-1) = 2 /\
  MIN_CHANNEL <= c <= MAX_CHANNEL /\
  c <> ch /\
  BasicReceiver.new_channel (fst r) = c /\
  trace (snd r) = trace w ++ [Tx (take 6 (addr (BasicReceiver.peer s))) [RPL_HOP; c] (send_rc w 0%nat)] /\
  (forall a', chan_ok (snd r) 0%nat = true ->
     let s2 := fst (BasicReceiver.onSent (fst r) a' 0 (snd r)) in
     BasicReceiver.channel s2 = c /\
     BasicReceiver.channel_direction s2 = c - ch /\
     (BasicReceiver.channel_direction s2 = 1 \/ BasicReceiver.channel_direction s2 = -1) /\
     ((ch = 13 /\ d = 1) \/ (ch = 1 /\ d = -1) -> BasicReceiver.channel_direction s2 = - d)).
Proof.
  intros Hm Hch Hd Htag ch d c r.
  assert (Hc : c = if 13 <? ch + d then 12 else if ch + d <? 1 then 2 else ch + d)
    by (apply candidate_spec; assumption).
  assert (Hin : 1 <= c <= 13 /\ (c - ch = 1 \/ c - ch = -1)).
  { rewrite Hc. fold ch in Hch. fold d in Hd.
    destruct (Z.ltb_spec 13 (ch + d)); [lia |].
    destruct (Z.ltb_spec (ch + d) 1); lia. }
  split; [exact Hc |]. split; [reflexivity |]. split; [reflexivity |].
  split; [unfold MIN_CHANNEL, MAX_CHANNEL; lia |].
  split; [lia |].
  unfold r. rewrite (paired_answers_hop s a data w Hm Htag). cbn [fst snd trace].
  fold ch d c. split; [reflexivity |]. split; [reflexivity |].
  intros a' Hok.
  rewrite paired_commits_hop by reflexivity.
  cbn [chan_ok] in Hok |- *. rewrite Hok.
  cbn [fst BasicReceiver.channel BasicReceiver.channel_direction BasicReceiver.new_channel].
  assert (Hd2 : int8 (c - ch) = c - ch).
  { unfold int8. destruct Hin as [_ [-> | ->]]; reflexivity. }
  rewrite Hd2. split; [reflexivity |]. split; [reflexivity |].
  split; [tauto |].
  intros [[H1 H2] | [H1 H2]]; rewrite Hc, H1, H2; reflexivity.
Qed.

Lemma hop_candidate_reflects_witness :
  let s := Samples.receiver_at 13 1 in
  let r := BasicReceiver.onReceived s Samples.mac_sender [CMD_HOP] 1 Samples.radio_accepting in
  let s2 := fst (BasicReceiver.onSent (fst r) Samples.mac_sender 0 (snd r)) in
  BasicReceiver.new_channel (fst r) = 12 /\
  BasicReceiver.channel s2 = 12 /\
  BasicReceiver.channel_direction s2 = -1.
Proof.
  intros s r s2.
  destruct (hop_candidate_reflects s Samples.mac_sender [CMD_HOP] Samples.radio_accepting)
    as (_ & _ & _ & _ & _ & Hn & _ & Hcommit);
    [reflexivity | cbn; lia | left; reflexivity | reflexivity |].
  split; [exact Hn |].
  destruct (Hcommit Samples.mac_sender eq_refl) as (Hc & _ & _ & Hflip).
  split; [exact Hc |].
  apply Hflip. left. split; reflexivity.
Defined.

Lemma channel_calls_app (t1 t2 : list effect) :
  BasicReceiver.channel_calls (t1 ++ t2)
  = BasicReceiver.channel_calls t1 ++ BasicReceiver.channel_calls t2.
Proof. unfold BasicReceiver.channel_calls. apply flat_map_app. Qed.






(** Once paired, a receiver stays paired and keeps its peer. *)
Lemma receiver_step_keeps_pairing (s : BasicReceiver.t) (e : BasicReceiver.event) (w : World) :
  BasicReceiver.matched s = true ->
  BasicReceiver.matched (fst (BasicReceiver.step s e w)) = true /\
  BasicReceiver.peer (fst (BasicReceiver.step s e w)) = BasicReceiver.peer s.
Proof.
  intros Hm. destruct e as [a data len | a status]; cbn [BasicReceiver.step].
  - unfold BasicReceiver.onReceived. rewrite Hm. cbn [negb].
    destruct ((len =? 1) && (nth 0 data 0 =? CMD_HOP)); [cbn; now split |].
    destruct ((1 <=? len) && (nth 0 data 0 =? CMD_DATA)); cbn; now split.
  - unfold BasicReceiver.onSent. rewrite Hm. cbn [negb].
    destruct (status =? 0); [| now split].
    unfold bind, wifi_set_channel, ret. destruct (chan_ok w 0%nat); cbn; now split.
Qed.

Lemma receiver_run_keeps_pairing (es : list BasicReceiver.event)
      (r : BasicReceiver.t) (w : World) :
  BasicReceiver.matched r = true ->
  BasicReceiver.matched (fst (BasicReceiver.run es r w)) = true.
Proof.
  revert r w. induction es as [| e es IH]; intros r w Hm; [exact Hm |].
  cbn [BasicReceiver.run]. unfold bind.
  destruct (receiver_step_keeps_pairing r e w Hm) as [H1 _].
  destruct (BasicReceiver.step r e w) as [r1 w1]. now apply IH.
Qed.




(** ** Forgetting the peer *)

#[export] Instance Flash_laws : BlobStoreLaws Flash.
Proof.
  split.
  - intros fs n fs'. cbn. destruct (write_protected fs); [discriminate |].
    destruct (blobs fs !! n) eqn:Hn; [| discriminate].
    intros H. injection H as <-. cbn.
    apply bool_decide_eq_false. rewrite lookup_delete_eq. apply is_Some_None.
  - intros fs n fs'. cbn. destruct (write_protected fs); [congruence |].
    destruct (blobs fs !! n); [discriminate | congruence].
Qed.

(** C9: [reset] is idempotent.  Over a blob store whose [remove] leaves
    no blob when it succeeds and leaves the store as it was when it fails, a
    second [reset] returns what the first returned and leaves the store the
    first left.  With no peer blob [reset] reports success and changes
    nothing; with one it reports what [remove] reports, and after a success
    the blob is gone. *)
Theorem reset_idempotent {FS : Type} `{BlobStoreLaws FS} (fs : FS) :
  RCBridgeBase.reset (snd (RCBridgeBase.reset fs)) = RCBridgeBase.reset fs /\
  (fs_exists fs FPATH_PEER = false -> RCBridgeBase.reset fs = (true, fs)) /\
  (fs_exists fs FPATH_PEER = true ->
   RCBridgeBase.reset fs = fs_remove fs FPATH_PEER /\
   (fst (RCBridgeBase.reset fs) = true ->
    fs_exists (snd (RCBridgeBase.reset fs)) FPATH_PEER = false)).
Proof.
  unfold RCBridgeBase.reset.
  destruct (fs_exists fs FPATH_PEER) eqn:Hex.
  - destruct (fs_remove fs FPATH_PEER) as [[|] fs'] eqn:Hrm; cbn [negb fst snd].
    + pose proof (remove_done fs FPATH_PEER fs' Hrm) as Hgone.
      rewrite Hgone. split; [reflexivity |]. split; [discriminate |].
      intros _. split; reflexivity.
    + pose proof (remove_failed fs FPATH_PEER fs' Hrm) as ->.
      rewrite Hex, Hrm. cbn [negb]. split; [reflexivity |]. split; [discriminate |].
      intros _. split; [reflexivity | discriminate].
  - cbn [snd]. rewrite Hex. split; [reflexivity |]. split; [reflexivity | discriminate].
Qed.

Lemma reset_idempotent_witness :
  RCBridgeBase.reset (snd (RCBridgeBase.reset Samples.flash_paired))
  = RCBridgeBase.reset Samples.flash_paired.
Proof.
  apply (reset_idempotent (FS := Flash) Samples.flash_paired).
Defined.

(** ** Rounding in binary32 *)

Section ShiftRight.

Variable M : Z.
Hypothesis M_nonneg : 0 <= M.

Local Abbreviation shifted := (F32.shifted M).

Lemma shifted_step (k : Z) (x : shr_record) :
  0 <= k -> shifted k x -> shifted (k + 1) (shr_1 x).
Proof.
  intros Hk [Hm Hrs]. destruct x as [m r s]. cbn [shr_m shr_r shr_s] in *.
  assert (Hp : 0 < 2 ^ k) by (apply Z.pow_pos_nonneg; lia).
  assert (Hm0 : 0 <= m) by (subst m; apply Z.div_pos; lia).
  assert (Hpow : 2 ^ (k + 1) = 2 ^ k * 2) by (rewrite Z.pow_add_r by lia; reflexivity).
  assert (Hdiv : M / 2 ^ (k + 1) = m / 2).
  { rewrite Hpow, <- Z.div_div by lia. now rewrite Hm. }
  assert (Hmod : M mod 2 ^ (k + 1) = M mod 2 ^ k + 2 ^ k * (m mod 2)).
  { rewrite Hpow, Z.rem_mul_r by lia. now rewrite Hm. }
  pose proof (Z.mod_pos_bound M (2 ^ k) Hp) as Hb.
  pose proof (Z.mod_pos_bound m 2 ltac:(lia)) as Hb2.
  unfold F32.shifted. rewrite Hdiv, Hmod.
  destruct m as [| p | p]; [| | lia].
  - cbn [shr_1 shr_m shr_r shr_s]. split; [reflexivity |].
    cbn [orb]. change (0 mod 2) with 0. rewrite Hrs. lia.
  - destruct p as [p | p |]; cbn [shr_1 shr_m shr_r shr_s orb].
    + split; [rewrite Pos2Z.inj_xI; apply Z.div_unique with (r := 1); lia |].
      replace (Z.pos p~1 mod 2) with 1
        by (rewrite Pos2Z.inj_xI; apply Z.mod_unique with (q := Z.pos p); lia).
      split; [discriminate | nia].
    + split; [rewrite Pos2Z.inj_xO; apply Z.div_unique with (r := 0); lia |].
      replace (Z.pos p~0 mod 2) with 0
        by (rewrite Pos2Z.inj_xO; apply Z.mod_unique with (q := Z.pos p); lia).
      rewrite Hrs. lia.
    + split; [reflexivity |]. change (1 mod 2) with 1. split; [discriminate | nia].
Qed.

Lemma shifted_iter (p : positive) :
  forall (k : Z) (x : shr_record),
    0 <= k -> shifted k x -> shifted (k + Z.pos p) (SpecFloat.iter_pos shr_1 p x).
Proof.
  induction p as [p IH | p IH |]; intros k x Hk Hx; cbn [SpecFloat.iter_pos].
  - replace (k + Z.pos p~1) with (k + 1 + Z.pos p + Z.pos p) by lia.
    apply IH; [lia |]. apply IH; [lia |]. now apply shifted_step.
  - replace (k + Z.pos p~0) with (k + Z.pos p + Z.pos p) by lia.
    apply IH; [lia |]. now apply IH.
  - now apply shifted_step.
Qed.

Lemma shifted_start : shifted 0 (Build_shr_record M false false).
Proof.
  unfold F32.shifted. cbn. rewrite Z.div_1_r, Z.mod_1_r. tauto.
Qed.

Lemma shr_shifted (e n : Z) :
  0 <= n ->
  shifted n (fst (shr (Build_shr_record M false false) e n)) /\
  snd (shr (Build_shr_record M false false) e n) = e + n.
Proof.
  intros Hn. destruct n as [| p | p]; [| | lia]; cbn [shr fst snd].
  - split; [apply shifted_start | lia].
  - split; [| reflexivity].
    apply (shifted_iter p 0 _ ltac:(lia) shifted_start).
Qed.

End ShiftRight.

Lemma round_nearest_even_bounds (x : shr_record) :
  shr_m x <= round_nearest_even (shr_m x) (loc_of_shr_record x) <= shr_m x + 1 /\
  (orb (shr_r x) (shr_s x) = false ->
   round_nearest_even (shr_m x) (loc_of_shr_record x) = shr_m x).
Proof.
  destruct x as [m [|] [|]]; cbn; try destruct (Z.even m); split; try lia; try discriminate;
    reflexivity.
Qed.


Lemma pow2_pos (k : Z) : 0 <= k -> 0 < 2 ^ k.
Proof. intros H. apply Z.pow_pos_nonneg; lia. Qed.

Lemma pow2_add (a b : Z) : 0 <= a -> 0 <= b -> 2 ^ (a + b) = 2 ^ a * 2 ^ b.
Proof. intros. now apply Z.pow_add_r. Qed.

Lemma pow2_le (a b : Z) : 0 <= a <= b -> 2 ^ a <= 2 ^ b.
Proof. intros H. apply Z.pow_le_mono_r; lia. Qed.

Lemma pow2_lt_inv (a b : Z) : 0 <= a -> 0 <= b -> 2 ^ a < 2 ^ b -> a < b.
Proof.
  intros Ha Hb H. destruct (Z_lt_le_dec a b) as [| Hle]; [assumption |].
  pose proof (pow2_le b a ltac:(lia)). lia.
Qed.

Lemma digits2_bounds (m : positive) :
  2 ^ (Z.pos (digits2_pos m) - 1) <= Z.pos m < 2 ^ Z.pos (digits2_pos m).
Proof.
  induction m as [m IH | m IH |]; cbn [digits2_pos].
  - rewrite Pos2Z.inj_succ, (Pos2Z.inj_xI m).
    replace (Z.succ (Z.pos (digits2_pos m)) - 1) with (Z.succ (Z.pos (digits2_pos m) - 1)) by lia.
    rewrite !Z.pow_succ_r by lia.
    generalize dependent (2 ^ (Z.pos (digits2_pos m) - 1)).
    generalize dependent (2 ^ Z.pos (digits2_pos m)). intros. lia.
  - rewrite Pos2Z.inj_succ, (Pos2Z.inj_xO m).
    replace (Z.succ (Z.pos (digits2_pos m)) - 1) with (Z.succ (Z.pos (digits2_pos m) - 1)) by lia.
    rewrite !Z.pow_succ_r by lia.
    generalize dependent (2 ^ (Z.pos (digits2_pos m) - 1)).
    generalize dependent (2 ^ Z.pos (digits2_pos m)). intros. lia.
  - cbn. lia.
Qed.

Lemma digits2_unique (m : positive) (k : Z) :
  2 ^ (k - 1) <= Z.pos m < 2 ^ k -> 1 <= k -> Z.pos (digits2_pos m) = k.
Proof.
  intros [Hlo Hhi] Hk. pose proof (digits2_bounds m) as [Hlo' Hhi'].
  assert (k - 1 < Z.pos (digits2_pos m)) by (apply pow2_lt_inv; lia).
  assert (Z.pos (digits2_pos m) - 1 < k) by (apply pow2_lt_inv; lia).
  lia.
Qed.

Lemma fexp32 (x : Z) : fexp F32.prec F32.emax x = Z.max (x - 24) (-149).
Proof. reflexivity. Qed.

(** What [bounded] says, in inequalities. *)
Lemma bounded_inv (m : positive) (e : Z) :
  bounded F32.prec F32.emax m e = true ->
  -149 <= e <= 104 /\ Z.pos m < 2 ^ 24 /\ (-149 < e -> 2 ^ 23 <= Z.pos m).
Proof.
  unfold bounded, canonical_mantissa. rewrite fexp32.
  intros H. apply andb_true_iff in H as [Hc He].
  apply Z.eqb_eq in Hc. apply Z.leb_le in He. change (F32.emax - F32.prec) with 104 in He.
  pose proof (digits2_bounds m) as [Hlo Hhi].
  set (d := Z.pos (digits2_pos m)) in *.
  assert (Hd : d <= 24) by lia.
  split; [lia |]. split.
  - pose proof (pow2_le d 24 ltac:(lia)). lia.
  - intros Hn. assert (Hd24 : d = 24) by lia. rewrite Hd24 in Hlo. exact Hlo.
Qed.

Lemma bounded_intro (m : positive) (e : Z) :
  -149 <= e <= 104 -> Z.pos m < 2 ^ 24 -> (-149 < e -> 2 ^ 23 <= Z.pos m) ->
  bounded F32.prec F32.emax m e = true.
Proof.
  intros He Hhi Hlo. unfold bounded, canonical_mantissa. rewrite fexp32.
  apply andb_true_iff. split; [| apply Z.leb_le; change (F32.emax - F32.prec) with 104; lia].
  apply Z.eqb_eq.
  pose proof (digits2_bounds m) as [Hlo' Hhi'].
  set (d := Z.pos (digits2_pos m)) in *.
  assert (Hd : d <= 24).
  { assert (d - 1 < 24) by (apply pow2_lt_inv; lia). lia. }
  destruct (Z.eq_dec e (-149)) as [-> | Hne]; [lia |].
  assert (23 < d) by (apply pow2_lt_inv; lia). lia.
Qed.

Lemma shr_nonpos (x : shr_record) (e n : Z) : n <= 0 -> shr x e n = (x, e).
Proof. intros H. destruct n; [reflexivity | lia | reflexivity]. Qed.

Lemma scaled_below_top (mb : positive) (eb : Z) :
  -149 <= eb <= 104 -> Z.pos mb < 2 ^ 24 ->
  F32.scaled mb eb < 2 ^ 24 * 2 ^ (104 + F32.bias).
Proof.
  intros He Hm. unfold F32.scaled.
  assert (0 < 2 ^ (eb + F32.bias)) by (apply pow2_pos; unfold F32.bias; lia).
  assert (2 ^ (eb + F32.bias) <= 2 ^ (104 + F32.bias)) by (apply pow2_le; unfold F32.bias; lia).
  nia.
Qed.

Lemma round_aux_upto (M : positive) (E : Z) (mb : positive) (eb : Z) :
  - F32.bias <= E ->
  E <= fexp F32.prec F32.emax (Z.pos (digits2_pos M) + E) ->
  bounded F32.prec F32.emax mb eb = true ->
  F32.scaled M E <= F32.scaled mb eb ->
  F32.upto (F32.scaled mb eb)
           (binary_round_aux F32.prec F32.emax false (Z.pos M) E loc_Exact).
Proof.
  intros HE Hn Hb Hle.
  apply bounded_inv in Hb as (Heb & Hmb & Hmbn).
  pose proof (scaled_below_top mb eb Heb Hmb) as Htop.
  pose proof (digits2_bounds M) as [HMlo HMhi].
  unfold binary_round_aux, shr_fexp. cbn [Zdigits2 shr_record_of_loc].
  rewrite fexp32 in Hn. rewrite (fexp32 (Z.pos (digits2_pos M) + E)).
  set (d := Z.pos (digits2_pos M)) in *.
  set (f := Z.max (d + E - 24) (-149)) in *.
  assert (Hd : 1 <= d) by (unfold d; lia).
  destruct (shr_shifted (Z.pos M) ltac:(lia) E (f - E) ltac:(lia)) as [[Hm1 Hex] He1].
  destruct (shr {| shr_m := Z.pos M; shr_r := false; shr_s := false |} E (f - E)) as [x1 e1].
  cbn [fst snd] in Hm1, Hex, He1.
  assert (He1' : e1 = f) by lia. clear He1. subst e1.
  destruct (round_nearest_even_bounds x1) as [Hm2 Hm2ex].
  set (m2 := round_nearest_even (shr_m x1) (loc_of_shr_record x1)) in *.
  set (m1 := shr_m x1) in *.
  set (n := f - E) in *.
  assert (Hn0 : 0 <= n) by (unfold n; lia).
  assert (Hpn : 0 < 2 ^ n) by (apply pow2_pos; lia).
  assert (Hs : 0 < 2 ^ (E + F32.bias)) by (apply pow2_pos; lia).
  assert (Hsf : 2 ^ (f + F32.bias) = 2 ^ n * 2 ^ (E + F32.bias)).
  { replace (f + F32.bias) with (n + (E + F32.bias)) by (unfold n; lia).
    apply pow2_add; lia. }
  assert (Hdm : Z.pos M = 2 ^ n * m1 + Z.pos M mod 2 ^ n)
    by (rewrite Hm1; apply Z.div_mod; lia).
  pose proof (Z.mod_pos_bound (Z.pos M) (2 ^ n) Hpn) as Hmodb.
  assert (Hm1pos : 0 <= m1) by (rewrite Hm1; apply Z.div_pos; lia).
  (* the rounded mantissa, at exponent [f], is not above the bound *)
  assert (Hval : m2 * 2 ^ (f + F32.bias) <= F32.scaled mb eb).
  { destruct (Z.eq_dec (Z.pos M mod 2 ^ n) 0) as [Hz | Hnz].
    - rewrite (Hm2ex (proj2 Hex Hz)), Hsf.
      unfold F32.scaled in Hle at 1. rewrite Hdm, Hz in Hle. lia.
    - destruct (Z_le_gt_dec f eb) as [Hfe | Hfe].
      + assert (Hp : 0 < 2 ^ (eb - f)) by (apply pow2_pos; lia).
        set (K := Z.pos mb * 2 ^ (eb - f)).
        assert (HB : F32.scaled mb eb = K * (2 ^ n * 2 ^ (E + F32.bias))).
        { unfold F32.scaled, K.
          replace (eb + F32.bias) with ((eb - f) + (f + F32.bias)) by lia.
          rewrite pow2_add by (unfold F32.bias; lia). rewrite Hsf. ring. }
        rewrite HB in Hle |- *. rewrite Hsf.
        unfold F32.scaled in Hle.
        assert (HMK : Z.pos M <= K * 2 ^ n).
        { apply Z.mul_le_mono_pos_r with (p := 2 ^ (E + F32.bias)); [exact Hs |]. lia. }
        assert (m1 + 1 <= K) by nia.
        assert (m2 <= K) by lia.
        apply Z.mul_le_mono_nonneg_r; lia.
      + exfalso.
        assert (Hf : f = d + E - 24) by (unfold f; lia).
        assert (HP : 2 ^ (d - 1 + E + F32.bias) = 2 ^ (d - 1) * 2 ^ (E + F32.bias))
          by (replace (d - 1 + E + F32.bias) with ((d - 1) + (E + F32.bias)) by lia;
              apply pow2_add; lia).
        assert (HB : F32.scaled mb eb < 2 ^ (d - 1 + E + F32.bias)).
        { unfold F32.scaled.
          assert (0 < 2 ^ (eb + F32.bias)) by (apply pow2_pos; unfold F32.bias; lia).
          assert (2 ^ (24 + (eb + F32.bias)) = 2 ^ 24 * 2 ^ (eb + F32.bias))
            by (apply pow2_add; unfold F32.bias; lia).
          assert (2 ^ (24 + (eb + F32.bias)) <= 2 ^ (d - 1 + E + F32.bias))
            by (apply pow2_le; unfold F32.bias; lia).
          nia. }
        unfold F32.scaled in Hle at 1. nia. }
  (* the shape of the rounded mantissa *)
  assert (Hshape : m2 = 0 \/ (f = -149 /\ 0 < m2 <= 2 ^ 23) \/
                   2 ^ 23 <= m2 < 2 ^ 24 \/ m2 = 2 ^ 24).
  { destruct (Z_le_gt_dec (-149) (d + E - 24)) as [Hnorm | Hsub].
    - assert (Hf : f = d + E - 24) by (unfold f; lia).
      assert (Hdn : d = 24 + n) by (unfold n; lia).
      assert (H24 : 2 ^ d = 2 ^ 24 * 2 ^ n) by (rewrite Hdn; apply pow2_add; lia).
      assert (H23 : 2 ^ (d - 1) = 2 ^ 23 * 2 ^ n)
        by (replace (d - 1) with (23 + n) by lia; apply pow2_add; lia).
      assert (2 ^ 23 <= m1) by (rewrite Hm1; apply Z.div_le_lower_bound; lia).
      assert (m1 < 2 ^ 24) by (rewrite Hm1; apply Z.div_lt_upper_bound; lia).
      lia.
    - assert (Hf : f = -149) by (unfold f; lia).
      assert (H23 : 2 ^ (23 + n) = 2 ^ 23 * 2 ^ n) by (apply pow2_add; lia).
      assert (2 ^ d <= 2 ^ (23 + n)) by (apply pow2_le; unfold n; lia).
      assert (m1 < 2 ^ 23) by (rewrite Hm1; apply Z.div_lt_upper_bound; lia).
      lia. }
  assert (Hf149 : -149 <= f) by (unfold f; lia).
  destruct Hshape as [H0 | [[Hf Hm] | [Hm | H24]]].
  - rewrite H0. cbn [Zdigits2]. rewrite fexp32.
    rewrite shr_nonpos by lia. cbn. exact I.
  - destruct m2 as [| p | p] eqn:Ep; [lia | | lia].
    cbn [Zdigits2]. rewrite fexp32.
    pose proof (digits2_bounds p) as [Hplo Hphi].
    assert (Z.pos (digits2_pos p) - 1 < 24) by (apply pow2_lt_inv; lia).
    rewrite shr_nonpos by lia. cbn [shr_m].
    rewrite Hf. change (-149 <=? F32.emax - F32.prec) with true. cbv iota.
    cbn [F32.upto]. split.
    + apply bounded_intro; lia.
    + unfold F32.scaled at 1. rewrite <- Hf. exact Hval.
  - destruct m2 as [| p | p] eqn:Ep; [lia | | lia].
    cbn [Zdigits2]. rewrite fexp32.
    rewrite (digits2_unique p 24) by (change (24 - 1) with 23; lia).
    rewrite shr_nonpos by lia. cbn [shr_m].
    assert (Hf104 : f <= 104).
    { assert (0 < 2 ^ (f + F32.bias)) by (apply pow2_pos; unfold F32.bias; lia).
      assert (H1 : 2 ^ (23 + (f + F32.bias)) = 2 ^ 23 * 2 ^ (f + F32.bias))
        by (apply pow2_add; unfold F32.bias; lia).
      assert (H2 : 2 ^ (24 + (104 + F32.bias)) = 2 ^ 24 * 2 ^ (104 + F32.bias))
        by (apply pow2_add; unfold F32.bias; lia).
      assert (23 + (f + F32.bias) < 24 + (104 + F32.bias)).
      { apply pow2_lt_inv; [unfold F32.bias; lia | unfold F32.bias; lia |].
        rewrite H1, H2. nia. }
      lia. }
    change (F32.emax - F32.prec) with 104.
    destruct (Z.leb_spec f 104); [| lia].
    cbn [F32.upto]. split.
    + apply bounded_intro; lia.
    + exact Hval.
  - rewrite H24 in *. change (Zdigits2 (2 ^ 24)) with 25. rewrite fexp32.
    replace (Z.max (25 + f - 24) (-149) - f) with 1 by lia.
    cbn [shr SpecFloat.iter_pos]. change (shr_m (shr_1 _)) with (Z.pos 8388608).
    assert (Hf103 : f + 1 <= 104).
    { assert (0 < 2 ^ (f + F32.bias)) by (apply pow2_pos; unfold F32.bias; lia).
      assert (H1 : 2 ^ (24 + (f + F32.bias)) = 2 ^ 24 * 2 ^ (f + F32.bias))
        by (apply pow2_add; unfold F32.bias; lia).
      assert (H2 : 2 ^ (24 + (104 + F32.bias)) = 2 ^ 24 * 2 ^ (104 + F32.bias))
        by (apply pow2_add; unfold F32.bias; lia).
      assert (24 + (f + F32.bias) < 24 + (104 + F32.bias)).
      { apply pow2_lt_inv; [unfold F32.bias; lia | unfold F32.bias; lia |].
        rewrite H1, H2. nia. }
      lia. }
    change (F32.emax - F32.prec) with 104.
    destruct (Z.leb_spec (f + 1) 104); [| lia].
    cbn [F32.upto]. split.
    + apply bounded_intro; [lia | reflexivity | intros _; discriminate].
    + unfold F32.scaled at 1.
      replace (f + 1 + F32.bias) with (1 + (f + F32.bias)) by lia.
      rewrite pow2_add by (unfold F32.bias; lia).
      change (2 ^ 1) with 2. change (Z.pos 8388608) with (2 ^ 23).
      change (2 ^ 24) with (2 * 2 ^ 23) in Hval. lia.
Qed.

Lemma upto_weaken (B B' : Z) (x : F32.float) : B <= B' -> F32.upto B x -> F32.upto B' x.
Proof.
  intros HB. destruct x as [[|] | | | [|] m e]; cbn; try tauto. intros [Hb Hle]. split; [assumption | lia].
Qed.

Lemma pos_iter_xO (m d : positive) : Z.pos (Pos.iter xO m d) = Z.pos m * 2 ^ Z.pos d.
Proof.
  induction d as [| d IH] using Pos.peano_ind.
  - cbn. lia.
  - rewrite Pos.iter_succ, Pos2Z.inj_xO, IH, Pos2Z.inj_succ, Z.pow_succ_r by lia. ring.
Qed.

(** [shl_align] keeps the value and lowers the exponent to the smaller of
    the two. *)
Lemma shl_align_spec (m : positive) (e e' : Z) :
  let r := shl_align m e e' in
  snd r = Z.min e e' /\ Z.pos (fst r) = Z.pos m * 2 ^ (e - snd r).
Proof.
  unfold shl_align. destruct (e' - e) as [| p | p] eqn:Hd; cbn [fst snd].
  - split; [lia |]. rewrite Z.sub_diag. cbn. lia.
  - split; [lia |]. rewrite Z.sub_diag. cbn. lia.
  - split; [lia |]. rewrite pos_iter_xO. f_equal. f_equal. lia.
Qed.

Lemma digits2_shift (m m' : positive) (k : Z) :
  0 <= k -> Z.pos m' = Z.pos m * 2 ^ k ->
  Z.pos (digits2_pos m') = Z.pos (digits2_pos m) + k.
Proof.
  intros Hk Hm. pose proof (digits2_bounds m) as [Hlo Hhi].
  set (d := Z.pos (digits2_pos m)) in *.
  assert (Hd : 1 <= d) by (unfold d; lia).
  assert (Hp : 0 < 2 ^ k) by (apply pow2_pos; lia).
  apply digits2_unique; [| lia].
  replace (d + k - 1) with ((d - 1) + k) by lia.
  rewrite !pow2_add by lia. rewrite Hm. nia.
Qed.

(** [binary_round] of a positive mantissa stays under a representable
    bound that its exact value does not exceed. *)
Lemma round_upto (M : positive) (E : Z) (mb : positive) (eb : Z) :
  -149 <= E ->
  bounded F32.prec F32.emax mb eb = true ->
  F32.scaled M E <= F32.scaled mb eb ->
  F32.upto (F32.scaled mb eb) (binary_round F32.prec F32.emax false M E).
Proof.
  intros HE Hb Hle. unfold binary_round.
  pose proof (shl_align_spec M E (fexp F32.prec F32.emax (Z.pos (digits2_pos M) + E)))
    as [He' Hm'].
  destruct (shl_align M E (fexp F32.prec F32.emax (Z.pos (digits2_pos M) + E)))
    as [mz ez]. cbn [fst snd] in He', Hm'.
  rewrite fexp32 in He'.
  assert (Hdz : Z.pos (digits2_pos mz) = Z.pos (digits2_pos M) + (E - ez))
    by (apply digits2_shift; [lia | exact Hm']).
  apply round_aux_upto.
  - unfold F32.bias. lia.
  - rewrite fexp32, Hdz. lia.
  - exact Hb.
  - unfold F32.scaled in Hle |- *. rewrite Hm'.
    replace (E + F32.bias) with ((E - ez) + (ez + F32.bias)) in Hle by lia.
    rewrite pow2_add in Hle by (unfold F32.bias; lia). lia.
Qed.

(** ** The link-quality estimator *)

Lemma quality_weight_bits : BasicSender.quality_weight = S754_finite false 10737418 (-30).
Proof. vm_compute. reflexivity. Qed.

Lemma hop_threshold_bits : BasicSender.hop_threshold = S754_finite false 12582912 (-24).
Proof. vm_compute. reflexivity. Qed.

Lemma cw_bits : BasicSender.cw = S754_finite false 16609444 (-24).
Proof. vm_compute. reflexivity. Qed.

Lemma one_bits : F32.one = S754_finite false 8388608 (-23).
Proof. vm_compute. reflexivity. Qed.

(** [(status == 0) * quality_weight] *)
Lemma contribution_bits (status : Z) :
  F32.mul (F32.of_int (if status =? 0 then 1 else 0)) BasicSender.quality_weight
  = if status =? 0 then BasicSender.quality_weight else S754_zero false.
Proof. destruct (status =? 0); vm_compute; reflexivity. Qed.

Lemma mul_cw_finite (m : positive) (e : Z) :
  F32.mul (S754_finite false m e) BasicSender.cw
  = binary_round_aux F32.prec F32.emax false (Z.pos (m * 16609444)) (e + -24) loc_Exact.
Proof. rewrite cw_bits. reflexivity. Qed.

(** Multiplying by [cw] keeps a value under any representable bound it was
    under. *)
Lemma mul_cw_upto (q : F32.float) (mb : positive) (eb : Z) :
  bounded F32.prec F32.emax mb eb = true ->
  F32.upto (F32.scaled mb eb) q ->
  F32.upto (F32.scaled mb eb) (F32.mul q BasicSender.cw).
Proof.
  intros Hb Hq. destruct q as [[|] | | | [|] m e]; try contradiction.
  - rewrite cw_bits. exact I.
  - destruct Hq as [Hbq Hle]. rewrite mul_cw_finite.
    pose proof (bounded_inv m e Hbq) as (He & Hm & _).
    pose proof (digits2_bounds (m * 16609444)) as [_ Hhi].
    assert (Hs : 0 < 2 ^ (e + -24 + F32.bias)) by (apply pow2_pos; unfold F32.bias; lia).
    assert (Hp : 2 ^ (e + F32.bias) = 2 ^ 24 * 2 ^ (e + -24 + F32.bias)).
    { replace (e + F32.bias) with (24 + (e + -24 + F32.bias)) by lia.
      apply pow2_add; unfold F32.bias; lia. }
    apply round_aux_upto.
    + unfold F32.bias. lia.
    + rewrite fexp32.
      assert (23 < Z.pos (digits2_pos (m * 16609444))) by (apply pow2_lt_inv; lia).
      lia.
    + exact Hb.
    + unfold F32.scaled in Hle |- *. rewrite Hp in Hle.
      rewrite Pos2Z.inj_mul. nia.
Qed.

(** Multiplying a value of at most 1 by [cw] gives at most [cw]. *)
Lemma mul_cw_unit (q : F32.float) :
  F32.unit_ok q -> F32.upto (F32.scaled 16609444 (-24)) (F32.mul q BasicSender.cw).
Proof.
  intros Hq. destruct q as [[|] | | | [|] m e]; try contradiction.
  - rewrite cw_bits. exact I.
  - destruct Hq as [Hbq Hle]. rewrite mul_cw_finite.
    pose proof (bounded_inv m e Hbq) as (He & Hm & _).
    pose proof (digits2_bounds (m * 16609444)) as [_ Hhi].
    assert (Hs : 0 < 2 ^ (e + -24 + F32.bias)) by (apply pow2_pos; unfold F32.bias; lia).
    assert (Hp : 2 ^ (e + F32.bias) = 2 ^ 24 * 2 ^ (e + -24 + F32.bias)).
    { replace (e + F32.bias) with (24 + (e + -24 + F32.bias)) by lia.
      apply pow2_add; unfold F32.bias; lia. }
    apply round_aux_upto.
    + unfold F32.bias. lia.
    + rewrite fexp32.
      assert (23 < Z.pos (digits2_pos (m * 16609444))) by (apply pow2_lt_inv; lia).
      lia.
    + reflexivity.
    + unfold F32.scaled in Hle |- *. rewrite Hp in Hle.
      rewrite Pos2Z.inj_mul.
      change (2 ^ (-24 + F32.bias)) with (2 ^ 176).
      change (2 ^ F32.bias) with (2 ^ 24 * 2 ^ 176) in Hle. nia.
Qed.

Lemma add_zero_r (x : F32.float) (B : Z) :
  F32.upto B x -> F32.add x (S754_zero false) = x.
Proof. destruct x as [[|] | | | [|] m e]; try contradiction; reflexivity. Qed.

(** A canonical value that is at most [cw] is [cw] itself or lies a whole
    unit in the last place of [cw] below it. *)
Lemma below_cw (m : positive) (e : Z) :
  bounded F32.prec F32.emax m e = true ->
  F32.scaled m e <= F32.scaled 16609444 (-24) ->
  (m = 16609444%positive /\ e = -24) \/ F32.scaled m e <= F32.scaled 16609443 (-24).
Proof.
  intros Hb Hle. pose proof (bounded_inv m e Hb) as (He & Hm & Hn).
  unfold F32.scaled in *. change (2 ^ (-24 + F32.bias)) with (2 ^ 176) in *.
  destruct (Z_lt_le_dec e (-24)) as [Hlt | Hge].
  - right.
    assert (0 < 2 ^ (e + F32.bias)) by (apply pow2_pos; unfold F32.bias; lia).
    assert (2 ^ (e + F32.bias) <= 2 ^ 175) by (apply pow2_le; unfold F32.bias; lia).
    change (2 ^ 24) with 16777216 in Hm.
    change (2 ^ 176) with (2 * 2 ^ 175). nia.
  - destruct (Z.eq_dec e (-24)) as [-> | Hne].
    + change (2 ^ (-24 + F32.bias)) with (2 ^ 176) in *.
      assert (0 < 2 ^ 176) by (apply pow2_pos; lia).
      assert (Z.pos m <= 16609444) by nia.
      destruct (Z.eq_dec (Z.pos m) 16609444) as [Heq | Hneq].
      * left. split; [| reflexivity]. now apply Pos2Z.inj.
      * right. apply Z.mul_le_mono_nonneg_r; lia.
    + exfalso.
      assert (2 ^ 177 <= 2 ^ (e + F32.bias)) by (apply pow2_le; unfold F32.bias; lia).
      specialize (Hn ltac:(lia)).
      change (2 ^ 23) with 8388608 in Hn.
      change (2 ^ 177) with (2 * 2 ^ 176) in *.
      assert (0 < 2 ^ 176) by (apply pow2_pos; lia). nia.
Qed.

Lemma add_finite (m1 : positive) (e1 : Z) (m2 : positive) (e2 : Z) :
  F32.add (S754_finite false m1 e1) (S754_finite false m2 e2)
  = binary_round F32.prec F32.emax false
      (fst (shl_align m1 e1 (Z.min e1 e2)) + fst (shl_align m2 e2 (Z.min e1 e2)))
      (Z.min e1 e2).
Proof. reflexivity. Qed.

(** The exact value of a sum of two positive floats. *)
Lemma scaled_sum (m1 : positive) (e1 : Z) (m2 : positive) (e2 : Z) :
  -149 <= e1 -> -149 <= e2 ->
  F32.scaled (fst (shl_align m1 e1 (Z.min e1 e2)) + fst (shl_align m2 e2 (Z.min e1 e2)))
             (Z.min e1 e2)
  = F32.scaled m1 e1 + F32.scaled m2 e2.
Proof.
  intros H1 H2. unfold F32.scaled. rewrite Pos2Z.inj_add.
  pose proof (shl_align_spec m1 e1 (Z.min e1 e2)) as [Hs1 Hv1].
  pose proof (shl_align_spec m2 e2 (Z.min e1 e2)) as [Hs2 Hv2].
  cbv zeta in Hs1, Hv1, Hs2, Hv2.
  rewrite Hv1, Hv2, Hs1, Hs2.
  replace (Z.min e1 (Z.min e1 e2)) with (Z.min e1 e2) by lia.
  replace (Z.min e2 (Z.min e1 e2)) with (Z.min e1 e2) by lia.
  set (ez := Z.min e1 e2).
  replace (e1 + F32.bias) with ((e1 - ez) + (ez + F32.bias)) by lia.
  replace (e2 + F32.bias) with ((e2 - ez) + (ez + F32.bias)) by lia.
  rewrite (pow2_add (e1 - ez) (ez + F32.bias)) by (unfold F32.bias, ez; lia).
  rewrite (pow2_add (e2 - ez) (ez + F32.bias)) by (unfold F32.bias, ez; lia). ring.
Qed.

(** Adding [quality_weight] to a value of at most [cw] gives at most 1. *)
Lemma add_weight_unit (x : F32.float) :
  F32.upto (F32.scaled 16609444 (-24)) x ->
  F32.unit_ok (F32.add x BasicSender.quality_weight).
Proof.
  intros Hx. rewrite quality_weight_bits.
  destruct x as [[|] | | | [|] m e]; try contradiction.
  - cbn. split; [reflexivity |]. apply Z.leb_le. vm_compute. reflexivity.
  - destruct Hx as [Hb Hle].
    destruct (below_cw m e Hb Hle) as [[-> ->] | Hlow].
    + split; [reflexivity | apply Z.leb_le; vm_compute; reflexivity].
    + pose proof (bounded_inv m e Hb) as (He & _ & _).
      rewrite add_finite. unfold F32.unit_ok.
      change (2 ^ F32.bias) with (F32.scaled 8388608 (-23)).
      apply round_upto; [lia | reflexivity |].
      rewrite scaled_sum by lia.
      assert (F32.scaled 16609443 (-24) + F32.scaled 10737418 (-30) <= F32.scaled 8388608 (-23))
        by (apply Z.leb_le; vm_compute; reflexivity).
      lia.
Qed.

(** One step of the estimator keeps the quality canonical and in [0, 1]. *)
Lemma smoothed_unit_ok (q : F32.float) (status : Z) :
  F32.unit_ok q -> F32.unit_ok (BasicSender.smoothed q status).
Proof.
  intros Hq. unfold BasicSender.smoothed. rewrite contribution_bits.
  pose proof (mul_cw_unit q Hq) as Hx.
  destruct (status =? 0).
  - now apply add_weight_unit.
  - rewrite (add_zero_r _ _ Hx). unfold F32.unit_ok.
    assert (Hle : F32.scaled 16609444 (-24) <= 2 ^ F32.bias)
      by (apply Z.leb_le; vm_compute; reflexivity).
    exact (upto_weaken _ _ _ Hle Hx).
Qed.

(** The machine's comparisons on canonical values in [0, 1]. *)
Lemma unit_ok_in_unit (q : F32.float) : F32.unit_ok q -> F32.in_unit q = true.
Proof.
  intros Hq. destruct q as [[|] | | | [|] m e]; try contradiction; [reflexivity |].
  destruct Hq as [Hb Hle]. pose proof (bounded_inv m e Hb) as (He & Hm & Hn).
  unfold F32.in_unit, F32.leb, SFleb.
  change F32.one with (S754_finite false 8388608 (-23)).
  change F32.zero with (S754_zero false). cbn [SFcompare andb].
  unfold F32.scaled in Hle.
  destruct (Z.compare_spec e (-23)) as [-> | Hlt | Hgt]; [| reflexivity |].
  - change (2 ^ (-23 + F32.bias)) with (2 ^ 177) in Hle.
    change (2 ^ F32.bias) with (8388608 * 2 ^ 177) in Hle.
    assert (0 < 2 ^ 177) by (apply pow2_pos; lia).
    assert (Hm23 : Z.pos m <= 8388608) by nia.
    rewrite Pos.compare_cont_spec. cbn [Pos.switch_Eq].
    destruct (Pos.compare_spec m 8388608); [reflexivity | reflexivity | lia].
  - exfalso. specialize (Hn ltac:(lia)).
    assert (2 ^ 178 <= 2 ^ (e + F32.bias)) by (apply pow2_le; unfold F32.bias; lia).
    change (2 ^ F32.bias) with (2 ^ 200) in Hle.
    change (2 ^ 23) with 8388608 in Hn.
    assert (8388608 * 2 ^ 178 <= Z.pos m * 2 ^ (e + F32.bias)) by nia.
    assert (2 ^ 200 < 8388608 * 2 ^ 178) by (apply Z.ltb_lt; vm_compute; reflexivity).
    lia.
Qed.

(** What a paired sender does with an ack report. *)
Lemma paired_onSent (s : BasicSender.t) (a : list Z) (status : Z) (w : World) :
  BasicSender.matched s = true ->
  let q := BasicSender.smoothed (BasicSender.radio_quality s) status in
  BasicSender.onSent s a status w
  = if F32.ltb q BasicSender.hop_threshold
    then (BasicSender.mk true (BasicSender.peer s)
                         (if send_rc w 0%nat =? 0 then F32.one else q),
          mkWorld (trace w ++ [LowQuality;
                               Tx (take 6 (addr (BasicSender.peer s))) [CMD_HOP] (send_rc w 0%nat)])
                  (tail_of (send_rc w)) (chan_ok w) (clock w) (prng w) (seed w) (draws w))
    else (BasicSender.mk true (BasicSender.peer s) q, w).
Proof.
  intros Hm q. unfold BasicSender.onSent. rewrite Hm. cbn [negb]. fold q.
  destruct (F32.ltb q BasicSender.hop_threshold); [| reflexivity].
  unfold bind, BasicSender.onLowRadioQuality, esp_now_send, ret, log.
  cbn [trace send_rc chan_ok clock prng seed draws].
  rewrite <- app_assoc. cbn [app].
  destruct (send_rc w 0%nat =? 0); reflexivity.
Qed.

Lemma one_unit_ok : F32.unit_ok F32.one.
Proof. split; [reflexivity | apply Z.leb_le; vm_compute; reflexivity]. Qed.

(** Every upcall and every [send] keeps the quality canonical and in [0, 1]. *)
Lemma step_unit_ok (s : BasicSender.t) (e : BasicSender.event) (w : World) :
  F32.unit_ok (BasicSender.radio_quality s) ->
  F32.unit_ok (BasicSender.radio_quality (fst (BasicSender.step s e w))).
Proof.
  intros Hq. destruct e as [a data len | a status | len data]; cbn [BasicSender.step].
  - unfold BasicSender.onReceived.
    destruct (negb (BasicSender.matched s)).
    + destruct ((len =? 1 + sizeof_key) && (nth 0 data 0 =? RPL_SEARCH)); exact Hq.
    + destruct ((len =? 2) && (nth 0 data 0 =? RPL_HOP)); exact Hq.
  - destruct (BasicSender.matched s) eqn:Hm.
    + rewrite (paired_onSent s a status w Hm).
      pose proof (smoothed_unit_ok _ status Hq) as Hq'.
      destruct (F32.ltb _ _); cbn [fst BasicSender.radio_quality]; [| exact Hq'].
      destruct (send_rc w 0%nat =? 0); [exact one_unit_ok | exact Hq'].
    + unfold BasicSender.onSent. rewrite Hm. exact Hq.
  - unfold bind. destruct (BasicSender.send s len data w). exact Hq.
Qed.

Lemma run_unit_ok (es : list BasicSender.event) (s : BasicSender.t) (w : World) :
  F32.unit_ok (BasicSender.radio_quality s) ->
  F32.unit_ok (BasicSender.radio_quality (fst (BasicSender.run es s w))).
Proof.
  revert s w. induction es as [| e es IH]; intros s w Hq; [exact Hq |].
  cbn [BasicSender.run]. unfold bind.
  pose proof (step_unit_ok s e w Hq) as H1.
  destruct (BasicSender.step s e w) as [s1 w1]. now apply IH.
Qed.

(** C7: started at 1.0, the quality estimate of a sender is between 0
    and 1, in the comparisons of binary32, after every sequence of ack
    reports, receptions and [send] calls, whatever the acks report and
    whatever the radio answers; so it is at every moment of every run.  The
    estimate is never a NaN or an infinity. *)
Theorem quality_stays_in_unit (es : list BasicSender.event) (s : BasicSender.t) (w : World) :
  BasicSender.radio_quality s = F32.one ->
  forall n : nat,
    let q := BasicSender.radio_quality (fst (BasicSender.run (take n es) s w)) in
    F32.in_unit q = true /\ F32.unit_ok q.
Proof.
  intros H1 n q.
  assert (Hq : F32.unit_ok q).
  { unfold q. apply run_unit_ok. rewrite H1. exact one_unit_ok. }
  split; [now apply unit_ok_in_unit | exact Hq].
Qed.

Lemma quality_stays_in_unit_witness :
  let es := [BasicSender.Sent Samples.mac_receiver 1; BasicSender.Sent Samples.mac_receiver 0;
             BasicSender.Send 3 [1; 2; 3]; BasicSender.Sent Samples.mac_receiver 7] in
  let q := BasicSender.radio_quality
             (fst (BasicSender.run (take 4 es) Samples.sender_paired Samples.radio_rejecting)) in
  F32.in_unit q = true /\ F32.unit_ok q.
Proof.
  intros es.
  apply (quality_stays_in_unit es Samples.sender_paired Samples.radio_rejecting eq_refl 4%nat).
Defined.

(** Below the threshold, for a canonical value in [0, 1]: at most the
    binary32 number just under 0.75. *)
Lemma below_threshold (q : F32.float) :
  F32.unit_ok q ->
  (F32.ltb q BasicSender.hop_threshold = true <-> F32.upto (F32.scaled 12582911 (-24)) q).
Proof.
  intros Hq. rewrite hop_threshold_bits.
  destruct q as [[|] | | | [|] m e]; try contradiction.
  - cbn. tauto.
  - destruct Hq as [Hb _]. pose proof (bounded_inv m e Hb) as (He & Hm & Hn).
    unfold F32.ltb, SFltb. cbn [SFcompare F32.upto]. unfold F32.scaled.
    change (2 ^ (-24 + F32.bias)) with (2 ^ 176).
    assert (H176 : 0 < 2 ^ 176) by (apply pow2_pos; lia).
    destruct (Z.compare_spec e (-24)) as [-> | Hlt | Hgt].
    + change (2 ^ (-24 + F32.bias)) with (2 ^ 176).
      rewrite Pos.compare_cont_spec. cbn [Pos.switch_Eq].
      destruct (Pos.compare_spec m 12582912) as [-> | Hc | Hc].
      * split; [discriminate |]. intros [_ H]. lia.
      * split; [| reflexivity]. intros _. split; [exact Hb |].
        apply Z.mul_le_mono_nonneg_r; [exact (Z.lt_le_incl _ _ H176) |].
        apply Pos2Z.pos_lt_pos in Hc. clear - Hc. lia.
      * split; [discriminate |]. intros [_ H]. nia.
    + split; [| reflexivity]. intros _. split; [exact Hb |].
      assert (0 < 2 ^ (e + F32.bias)) by (apply pow2_pos; unfold F32.bias; lia).
      assert (2 ^ (e + F32.bias) <= 2 ^ 175) by (apply pow2_le; unfold F32.bias; lia).
      change (2 ^ 24) with 16777216 in Hm.
      change (2 ^ 176) with (2 * 2 ^ 175). nia.
    + split; [discriminate |]. intros [_ H]. exfalso.
      specialize (Hn ltac:(lia)). change (2 ^ 23) with 8388608 in Hn.
      assert (2 ^ 177 <= 2 ^ (e + F32.bias)) by (apply pow2_le; unfold F32.bias; lia).
      change (2 ^ 177) with (2 * 2 ^ 176) in *. nia.
Qed.

(** A failed ack report keeps a low quality low. *)
Lemma failed_ack_stays_low (q : F32.float) (status : Z) :
  F32.unit_ok q -> status <> 0 ->
  F32.ltb q BasicSender.hop_threshold = true ->
  F32.ltb (BasicSender.smoothed q status) BasicSender.hop_threshold = true.
Proof.
  intros Hq Hst Hlow.
  apply (below_threshold _ (smoothed_unit_ok q status Hq)).
  apply (below_threshold q Hq) in Hlow.
  unfold BasicSender.smoothed. rewrite contribution_bits.
  destruct (Z.eqb_spec status 0); [contradiction |].
  pose proof (mul_cw_upto q 12582911 (-24) eq_refl Hlow) as Hx.
  now rewrite (add_zero_r _ _ Hx).
Qed.

Lemma one_not_low : F32.ltb F32.one BasicSender.hop_threshold = false.
Proof. vm_compute. reflexivity. Qed.

(** C6, refuted as stated: after a hop command the radio refused, the
    next ack report need not bring another.  On a radio that refuses every
    frame, 28 failed acks, a successful one and a failed one from quality
    1.0 end with a refused hop command and the quality left at
    12576210 * 2^-24, below 0.75; the next ack reports success, which lifts
    the estimate to 12618220 * 2^-24, not below 0.75, and nothing is handed
    to the radio. *)
Lemma good_ack_clears_low_quality :
  let es := repeat (BasicSender.Sent Samples.mac_receiver 1) 28
            ++ [BasicSender.Sent Samples.mac_receiver 0;
                BasicSender.Sent Samples.mac_receiver 1] in
  let r := BasicSender.run es Samples.sender_paired Samples.radio_rejecting in
  let r' := BasicSender.onSent (fst r) Samples.mac_receiver 0 (snd r) in
  trace (snd r) = [LowQuality; Tx Samples.mac_receiver [CMD_HOP] 1] /\
  BasicSender.radio_quality (fst r) = S754_finite false 12576210 (-24) /\
  F32.ltb (BasicSender.radio_quality (fst r)) BasicSender.hop_threshold = true /\
  trace (snd r') = trace (snd r) /\
  BasicSender.radio_quality (fst r') = S754_finite false 12618220 (-24) /\
  F32.ltb (BasicSender.radio_quality (fst r')) BasicSender.hop_threshold = false.
Proof. vm_compute. repeat split. Qed.

(** C6, amended: when the smoothed quality of a paired sender is below
    the threshold, [onSent] calls the low-quality hook and hands one hop
    command to the radio, and the stored quality is 1.0 exactly when the
    radio accepted it (returned 0).  When the radio rejected it the stored
    quality is the smoothed value, still below the threshold, and, the
    quality having been in [0, 1], the next ack that reports failure hands a
    hop command to the radio again; whatever the next ack reports, it hands
    over a hop command exactly when the estimate it computes from the stored
    value is below the threshold, and nothing otherwise. *)
Theorem hop_request_resets_quality
        (s : BasicSender.t) (a : list Z) (status : Z) (w : World) :
  BasicSender.matched s = true ->
  let q := BasicSender.smoothed (BasicSender.radio_quality s) status in
  F32.ltb q BasicSender.hop_threshold = true ->
  let r := BasicSender.onSent s a status w in
  let hop rc := Tx (take 6 (addr (BasicSender.peer s))) [CMD_HOP] rc in
  trace (snd r) = trace w ++ [LowQuality; hop (send_rc w 0%nat)] /\
  (BasicSender.radio_quality (fst r) = F32.one <-> send_rc w 0%nat = 0) /\
  (send_rc w 0%nat <> 0 ->
   BasicSender.radio_quality (fst r) = q /\
   F32.ltb (BasicSender.radio_quality (fst r)) BasicSender.hop_threshold = true /\
   (forall a' status',
      F32.unit_ok (BasicSender.radio_quality s) -> status' <> 0 ->
      trace (snd (BasicSender.onSent (fst r) a' status' (snd r)))
      = trace (snd r) ++ [LowQuality; hop (send_rc w 1%nat)]) /\
   (forall a' status',
      trace (snd (BasicSender.onSent (fst r) a' status' (snd r)))
      = trace (snd r)
        ++ (if F32.ltb (BasicSender.smoothed q status') BasicSender.hop_threshold
            then [LowQuality; hop (send_rc w 1%nat)] else []))).
Proof.
  intros Hm q Hlow r hop. unfold r.
  rewrite (paired_onSent s a status w Hm). fold q. rewrite Hlow.
  cbn [fst snd trace BasicSender.radio_quality].
  split; [reflexivity |]. split.
  - destruct (Z.eqb_spec (send_rc w 0%nat) 0) as [Hz | Hnz].
    + tauto.
    + split; [| contradiction]. intros Hq1. rewrite Hq1, one_not_low in Hlow. discriminate.
  - intros Hnz. destruct (Z.eqb_spec (send_rc w 0%nat) 0) as [Hz | _]; [contradiction |].
    split; [reflexivity |]. split; [exact Hlow |]. split.
    + intros a' status' Hq Hst'.
      rewrite paired_onSent by reflexivity.
      cbn [BasicSender.radio_quality BasicSender.peer].
      rewrite (failed_ack_stays_low q status' (smoothed_unit_ok _ status Hq) Hst' Hlow).
      reflexivity.
    + intros a' status'.
      rewrite paired_onSent by reflexivity.
      cbn [BasicSender.radio_quality BasicSender.peer].
      destruct (F32.ltb (BasicSender.smoothed q status') BasicSender.hop_threshold).
      * reflexivity.
      * cbn [snd trace]. now rewrite app_nil_r.
Qed.

Lemma hop_request_resets_quality_witness :
  let s := BasicSender.mk true (mkPeer Samples.mac_receiver Samples.key0)
                          (S754_finite false 12582912 (-24)) in
  let r := BasicSender.onSent s Samples.mac_receiver 1 Samples.radio_rejecting in
  trace (snd r) = [] ++ [LowQuality; Tx Samples.mac_receiver [CMD_HOP] 1] /\
  (BasicSender.radio_quality (fst r) = F32.one <-> 1 = 0).
Proof.
  intros s r.
  destruct (hop_request_resets_quality s Samples.mac_receiver 1 Samples.radio_rejecting
                                       eq_refl eq_refl) as (Ht & Hiff & _).
  split; [exact Ht | exact Hiff].
Defined.

(** ** Decay under failed acks *)

(** An ack that reports failure is handled as status 1 is, whatever the
    address. *)
Lemma failed_ack_canonical (s : BasicSender.t) (e : BasicSender.event) (w : World) :
  BasicSender.ack_failed e ->
  BasicSender.step s e w = BasicSender.onSent s [] 1 w.
Proof.
  destruct e as [a data len | a status | len data]; cbn [BasicSender.ack_failed];
    try contradiction.
  intros Hne. cbn [BasicSender.step]. unfold BasicSender.onSent, BasicSender.smoothed.
  destruct (Z.eqb_spec status 0); [contradiction | reflexivity].
Qed.

Lemma failed_acks_canonical (es : list BasicSender.event) (s : BasicSender.t) (w : World) :
  Forall BasicSender.ack_failed es ->
  BasicSender.run es s w
  = BasicSender.run (repeat (BasicSender.Sent [] 1) (length es)) s w.
Proof.
  revert s w. induction es as [| e es IH]; intros s w Hes; [reflexivity |].
  inversion Hes as [| ? ? He Hes']; subst.
  cbn [BasicSender.run length repeat BasicSender.step]. unfold bind.
  rewrite (failed_ack_canonical s e w He).
  destruct (BasicSender.onSent s [] 1 w) as [s1 w1]. now apply IH.
Qed.

Lemma run_app (es1 es2 : list BasicSender.event) (s : BasicSender.t) (w : World) :
  BasicSender.run (es1 ++ es2) s w
  = BasicSender.run es2 (fst (BasicSender.run es1 s w)) (snd (BasicSender.run es1 s w)).
Proof.
  revert s w. induction es1 as [| e es1 IH]; intros s w; [reflexivity |].
  cbn [app BasicSender.run]. unfold bind.
  destruct (BasicSender.step s e w) as [s1 w1]. apply IH.
Qed.

(** Failed acks that stay at or above the threshold touch nothing but the
    quality. *)
Lemma quiet_run (n : nat) (p : Peer) (q q' : F32.float) (w : World) :
  BasicSender.quiet n q = Some q' ->
  BasicSender.run (repeat (BasicSender.Sent [] 1) n) (BasicSender.mk true p q) w
  = (BasicSender.mk true p q', w).
Proof.
  revert q. induction n as [| n IH]; intros q Hq.
  - injection Hq as <-. reflexivity.
  - cbn [BasicSender.quiet] in Hq.
    destruct (F32.ltb (BasicSender.smoothed q 1) BasicSender.hop_threshold) eqn:Hlow;
      [discriminate |].
    cbn [repeat BasicSender.run BasicSender.step]. unfold bind.
    rewrite paired_onSent by reflexivity. cbn [BasicSender.radio_quality BasicSender.peer].
    rewrite Hlow. now apply IH.
Qed.

Lemma hop_requests_app (t1 t2 : list effect) :
  BasicSender.hop_requests (t1 ++ t2)
  = (BasicSender.hop_requests t1 + BasicSender.hop_requests t2)%nat.
Proof.
  induction t1 as [| e t1 IH]; [reflexivity |].
  cbn [app BasicSender.hop_requests]. rewrite IH. lia.
Qed.

Lemma take_failed (n : nat) (es : list BasicSender.event) :
  Forall BasicSender.ack_failed es -> Forall BasicSender.ack_failed (take n es).
Proof. intros H. now apply Forall_take. Qed.

(** C8, refuted as stated: on a radio that rejects every frame, forty
    failed acks in a row from quality 1.0 hand twelve hop commands to the
    radio, one on each ack from the 29th on, not one. *)
Lemma rejected_hop_request_repeats :
  BasicSender.hop_requests
    (trace (snd (BasicSender.run (repeat (BasicSender.Sent Samples.mac_receiver 1) 40)
                                 Samples.sender_paired Samples.radio_rejecting)))
  = 12%nat.
Proof. vm_compute. reflexivity. Qed.

(** C8, amended: from quality 1.0 on a paired sender, forty failed acks
    in a row bring the quality below 0.75 at the 29th ack and not before:
    the first 28 hand nothing to the radio, and the 29th calls the
    low-quality hook and hands over one hop command.  The quality is then
    1.0 exactly when the radio accepted that command.  When it did, that
    command is the only one of the run.  When it did not, the quality is not
    reset and the 30th ack hands over a hop command again. *)
Theorem forty_failed_acks (es : list BasicSender.event) (p : Peer) (w : World) :
  Forall BasicSender.ack_failed es ->
  length es = 40%nat ->
  let s := BasicSender.mk true p F32.one in
  let after n := BasicSender.run (take n es) s w in
  let hop rc := Tx (take 6 (addr p)) [CMD_HOP] rc in
  snd (after 28%nat) = w /\
  F32.ltb (BasicSender.radio_quality (fst (after 28%nat))) BasicSender.hop_threshold = false /\
  F32.ltb (BasicSender.smoothed (BasicSender.radio_quality (fst (after 28%nat))) 1)
          BasicSender.hop_threshold = true /\
  trace (snd (after 29%nat)) = trace w ++ [LowQuality; hop (send_rc w 0%nat)] /\
  (BasicSender.radio_quality (fst (after 29%nat)) = F32.one <-> send_rc w 0%nat = 0) /\
  (send_rc w 0%nat = 0 ->
   trace (snd (after 40%nat)) = trace w ++ [LowQuality; hop 0] /\
   BasicSender.hop_requests (trace (snd (after 40%nat)))
   = S (BasicSender.hop_requests (trace w))) /\
  (send_rc w 0%nat <> 0 ->
   F32.ltb (BasicSender.radio_quality (fst (after 29%nat))) BasicSender.hop_threshold = true /\
   trace (snd (after 30%nat))
   = trace w ++ [LowQuality; hop (send_rc w 0%nat); LowQuality; hop (send_rc w 1%nat)]).
Proof.
  intros Hes Hlen s after hop.
  assert (Hafter : forall n, (n <= 40)%nat ->
            after n = BasicSender.run (repeat (BasicSender.Sent [] 1) n) s w).
  { intros n Hn. unfold after.
    rewrite (failed_acks_canonical _ s w (take_failed n es Hes)).
    rewrite length_take. now replace (n `min` length es)%nat with n by lia. }
  set (q28 := S754_finite false 12662091 (-24)).
  set (q29 := S754_finite false 12535470 (-24)).
  assert (H28 : after 28%nat = (BasicSender.mk true p q28, w)).
  { rewrite Hafter by lia. apply quiet_run. vm_compute. reflexivity. }
  assert (Hlow29 : F32.ltb (BasicSender.smoothed q28 1) BasicSender.hop_threshold = true)
    by (vm_compute; reflexivity).
  assert (Hq29 : BasicSender.smoothed q28 1 = q29) by (vm_compute; reflexivity).
  set (w29 := mkWorld (trace w ++ [LowQuality; hop (send_rc w 0%nat)])
                      (tail_of (send_rc w)) (chan_ok w) (clock w) (prng w) (seed w) (draws w)).
  assert (H29 : after 29%nat
                = (BasicSender.mk true p (if send_rc w 0%nat =? 0 then F32.one else q29), w29)).
  { rewrite Hafter by lia.
    change 29%nat with (28 + 1)%nat. rewrite repeat_app, run_app.
    rewrite <- Hafter by lia. rewrite H28. cbn [fst snd repeat BasicSender.run BasicSender.step].
    unfold bind. rewrite paired_onSent by reflexivity.
    cbn [BasicSender.radio_quality BasicSender.peer]. rewrite Hlow29, Hq29. reflexivity. }
  rewrite H28, H29. cbn [fst snd BasicSender.radio_quality].
  split; [reflexivity |]. split; [vm_compute; reflexivity |].
  split; [exact Hlow29 |]. split; [reflexivity |]. split; [| split].
  - destruct (Z.eqb_spec (send_rc w 0%nat) 0) as [Hz | Hnz]; [tauto |].
    split; [discriminate | contradiction].
  - intros Hz.
    assert (H40 : after 40%nat
                  = (BasicSender.mk true p (S754_finite false 15021285 (-24)), w29)).
    { rewrite Hafter by lia.
      change 40%nat with (29 + 11)%nat. rewrite repeat_app, run_app.
      rewrite <- Hafter by lia. rewrite H29, Hz. cbn [fst snd Z.eqb].
      apply quiet_run. vm_compute. reflexivity. }
    rewrite H40. cbn [snd]. unfold w29. cbn [trace]. rewrite Hz.
    split; [reflexivity |].
    rewrite hop_requests_app. cbn. lia.
  - intros Hnz. destruct (Z.eqb_spec (send_rc w 0%nat) 0) as [Hz | _]; [contradiction |].
    split; [vm_compute; reflexivity |].
    rewrite Hafter by lia.
    change 30%nat with (29 + 1)%nat. rewrite repeat_app, run_app.
    rewrite <- Hafter by lia. rewrite H29.
    destruct (Z.eqb_spec (send_rc w 0%nat) 0) as [Hz | _]; [contradiction |].
    cbn [fst snd repeat BasicSender.run BasicSender.step]. unfold bind.
    rewrite paired_onSent by reflexivity.
    cbn [BasicSender.radio_quality BasicSender.peer].
    replace (F32.ltb (BasicSender.smoothed q29 1) BasicSender.hop_threshold) with true
      by (vm_compute; reflexivity).
    unfold ret, w29. cbn [snd trace send_rc tail_of]. unfold tail_of.
    rewrite <- app_assoc. reflexivity.
Qed.

Lemma forty_failed_acks_witness :
  let es := repeat (BasicSender.Sent Samples.mac_receiver 1) 40 in
  let after n := BasicSender.run (take n es) Samples.sender_paired Samples.radio_accepting in
  trace (snd (after 40%nat)) = [] ++ [LowQuality; Tx Samples.mac_receiver [CMD_HOP] 0] /\
  BasicSender.hop_requests (trace (snd (after 40%nat))) = 1%nat.
Proof.
  intros es after.
  assert (Hes : Forall BasicSender.ack_failed es).
  { unfold es. cbn [repeat]. repeat (constructor; [discriminate |]). constructor. }
  destruct (forty_failed_acks es (mkPeer Samples.mac_receiver Samples.key0)
                              Samples.radio_accepting Hes eq_refl)
    as (_ & _ & _ & _ & _ & Hone & _).
  exact (Hone eq_refl).
Defined.

(** * Further properties *)

(** ** [peer.toString] *)

Lemma hex_value_digit (n : Z) : 0 <= n < 16 -> hex_value (hex_digit n) = n.
Proof.
  intros H. rewrite <- (Z2Nat.id n) by lia.
  assert (Hk : (Z.to_nat n < 16)%nat) by lia.
  generalize dependent (Z.to_nat n). clear H. intros k Hk.
  do 16 (destruct k as [| k]; [reflexivity |]). lia.
Qed.

(** The two digits determine the byte. *)
Lemma sprintf_02x_inj (b b' : Z) :
  is_byte b -> is_byte b' -> sprintf_02x b = sprintf_02x b' -> b = b'.
Proof.
  unfold is_byte, sprintf_02x. intros Hb Hb' H. injection H as Hhi Hlo.
  apply (f_equal hex_value) in Hhi, Hlo.
  assert (Hq : forall x, 0 <= x <= 255 -> 0 <= x / 16 < 16)
    by (intros x Hx; split; [apply Z.div_pos; lia | apply Z.div_lt_upper_bound; lia]).
  assert (Hr : forall x, 0 <= x mod 16 < 16) by (intros x; apply Z.mod_pos_bound; lia).
  rewrite !hex_value_digit in Hhi by (apply Hq; assumption).
  rewrite !hex_value_digit in Hlo by apply Hr.
  rewrite (Z.div_mod b 16), (Z.div_mod b' 16) by lia. lia.
Qed.

Lemma length_flat_map_const {A B : Type} (f : A -> list B) (l : list A) (n : nat) :
  (forall x, In x l -> length (f x) = n) -> length (flat_map f l) = (length l * n)%nat.
Proof.
  induction l as [| x l IH]; intros H; [reflexivity |].
  cbn [flat_map length]. rewrite length_app, (H x) by now left.
  rewrite IH by (intros y Hy; apply H; now right). lia.
Qed.

Lemma length_string_of_list_ascii (l : list ascii) :
  String.length (string_of_list_ascii l) = length l.
Proof. induction l as [| c l IH]; [reflexivity |]. cbn. now rewrite IH. Qed.

Lemma string_of_list_ascii_inj (l l' : list ascii) :
  string_of_list_ascii l = string_of_list_ascii l' -> l = l'.
Proof.
  intros H. apply (f_equal list_ascii_of_string) in H.
  now rewrite !list_ascii_of_string_of_list_ascii in H.
Qed.

(** The elements of a [Forall] over a spelled-out list. *)
Ltac bytes_of H :=
  repeat match type of H with
         | Forall _ (_ :: _) =>
             let Hb := fresh "Hb" in
             let H' := fresh "H" in
             inversion H as [| ? ? Hb H']; subst; clear H; rename H' into H
         end.

(** The address of a well-formed peer can be read back from the text. *)
Lemma addr_text_inj (a a' : list Z) :
  length a = 6%nat -> length a' = 6%nat -> Forall is_byte a -> Forall is_byte a' ->
  flat_map (fun i => (if (i =? 0)%nat then [] else [":"%char]) ++ sprintf_02x (nth i a 0))
           (seq 0 6)
  = flat_map (fun i => (if (i =? 0)%nat then [] else [":"%char]) ++ sprintf_02x (nth i a' 0))
             (seq 0 6) ->
  a = a'.
Proof.
  intros Hl Hl' Hb Hb' H.
  do 6 (destruct a as [| ? a]; [discriminate |]). destruct a; [| discriminate].
  do 6 (destruct a' as [| ? a']; [discriminate |]). destruct a'; [| discriminate].
  bytes_of Hb. bytes_of Hb'.
  cbn [seq flat_map app nth Nat.eqb] in H. unfold sprintf_02x in H. cbn [app] in H.
  injection H as H1 H2 H3 H4 H5 H6 H7 H8 H9 H10 H11 H12.
  repeat match goal with
         | H : hex_digit (?b / 16) = hex_digit (?b' / 16),
           H' : hex_digit (?b mod 16) = hex_digit (?b' mod 16) |- _ =>
             assert (b = b') by (apply sprintf_02x_inj; [assumption | assumption |];
                                 unfold sprintf_02x; now rewrite H, H');
             clear H H'; subst b
         end.
  reflexivity.
Qed.

Lemma key_text_inj (k k' : list Z) :
  length k = 16%nat -> length k' = 16%nat -> Forall is_byte k -> Forall is_byte k' ->
  flat_map (fun i => sprintf_02x (nth i k 0)) (seq 0 16)
  = flat_map (fun i => sprintf_02x (nth i k' 0)) (seq 0 16) ->
  k = k'.
Proof.
  intros Hl Hl' Hb Hb' H.
  do 16 (destruct k as [| ? k]; [discriminate |]). destruct k; [| discriminate].
  do 16 (destruct k' as [| ? k']; [discriminate |]). destruct k'; [| discriminate].
  bytes_of Hb. bytes_of Hb'.
  cbn [seq flat_map app nth] in H. unfold sprintf_02x in H. cbn [app] in H.
  injection H; intros.
  repeat match goal with
         | H : hex_digit (?b / 16) = hex_digit (?b' / 16),
           H' : hex_digit (?b mod 16) = hex_digit (?b' mod 16) |- _ =>
             assert (b = b') by (apply sprintf_02x_inj; [assumption | assumption |];
                                 unfold sprintf_02x; now rewrite H, H');
             clear H H'; subst b
         end.
  reflexivity.
Qed.

Lemma length_addr_text (a : list Z) :
  length (flat_map (fun i => (if (i =? 0)%nat then [] else [":"%char])
                             ++ sprintf_02x (nth i a 0)) (seq 0 6)) = 17%nat.
Proof. reflexivity. Qed.

(** X1: [toString] never overruns [char buffer[64]]: it writes 23 characters
    for the address alone and 63 with the key, then the NUL, and the
    [String] returned has that length.  The short form is the beginning of
    the long one. *)
Theorem toString_fits_buffer (p : Peer) (only_addr : bool) :
  well_formed p ->
  length (toString_buffer p only_addr) = (if only_addr then 23 else 63)%nat /\
  (length (toString_buffer p only_addr) + 1 <= 64)%nat /\
  String.length (toString p only_addr) = (if only_addr then 23 else 63)%nat /\
  exists rest, toString_buffer p false = toString_buffer p true ++ rest.
Proof.
  intros _.
  assert (Hlen : length (toString_buffer p only_addr) = (if only_addr then 23 else 63)%nat)
    by (destruct only_addr; reflexivity).
  split; [exact Hlen |]. split; [rewrite Hlen; destruct only_addr; lia |].
  split; [unfold toString; now rewrite length_string_of_list_ascii |].
  unfold toString_buffer. cbn [negb].
  exists (list_ascii_of_string ", key = "
          ++ flat_map (fun i => sprintf_02x (nth i (key p) 0)) (seq 0 16)).
  rewrite app_nil_r, <- app_assoc. reflexivity.
Qed.

Lemma toString_fits_buffer_witness :
  String.length (toString (mkPeer Samples.mac_sender Samples.key0) false) = 63%nat.
Proof.
  apply (toString_fits_buffer (mkPeer Samples.mac_sender Samples.key0) false).
  unfold well_formed. cbn [addr key].
  repeat split; try reflexivity; unfold Samples.mac_sender, Samples.key0; cbn [repeat];
    repeat constructor; unfold is_byte; lia.
Defined.

(** X2: the text identifies the peer.  Two well-formed peer records with
    the same full text are the same record, and two with the same short text
    have the same address. *)
Theorem toString_identifies_peer (p p' : Peer) :
  well_formed p -> well_formed p' ->
  (toString p false = toString p' false -> p = p') /\
  (toString p true = toString p' true -> addr p = addr p').
Proof.
  intros (Ha & Hk & Hba & Hbk) (Ha' & Hk' & Hba' & Hbk').
  unfold toString, toString_buffer. cbn [negb]. split; intros H.
  - apply string_of_list_ascii_inj, app_inv_head in H.
    apply app_inj_1 in H as [H1 H2]; [| now rewrite !length_addr_text].
    apply app_inv_head in H2.
    destruct p as [a k], p' as [a' k']. cbn [addr key] in *.
    f_equal; [now apply addr_text_inj | now apply key_text_inj].
  - apply string_of_list_ascii_inj, app_inv_head in H.
    rewrite !app_nil_r in H. now apply addr_text_inj.
Qed.

Lemma toString_identifies_peer_witness :
  mkPeer Samples.mac_sender Samples.key0 = mkPeer Samples.mac_sender Samples.key0.
Proof.
  assert (Hw : well_formed (mkPeer Samples.mac_sender Samples.key0)).
  { unfold well_formed. cbn [addr key].
    repeat split; try reflexivity; unfold Samples.mac_sender, Samples.key0; cbn [repeat];
      repeat constructor; unfold is_byte; lia. }
  apply (proj1 (toString_identifies_peer _ _ Hw Hw)). reflexivity.
Defined.

(** ** The two roles together *)

(** What [send] hands to the radio for a payload that fits. *)
Lemma send_hands_frame (s : BasicSender.t) (len : Z) (data : list Z) (w : World) :
  0 <= len <= 249 -> Z.of_nat (length data) = len ->
  BasicSender.send s len data w
  = (send_rc w 0%nat =? 0,
     mkWorld (trace w ++ [Tx (take 6 (addr (BasicSender.peer s))) (CMD_DATA :: data)
                             (send_rc w 0%nat)])
             (tail_of (send_rc w)) (chan_ok w) (clock w) (prng w) (seed w) (draws w)).
Proof.
  intros H Hlen. unfold BasicSender.send.
  destruct (Z.ltb_spec 249 len); [lia |].
  unfold bind, esp_now_send, ret.
  rewrite uint8_small by lia.
  rewrite take_succ_cons by lia.
  rewrite !(take_whole data len Hlen).
  destruct (send_rc w 0%nat =? 0); reflexivity.
Qed.

(** What a paired receiver does with a data frame. *)
Lemma paired_delivers_data (r : BasicReceiver.t) (a payload : list Z) (w : World) :
  BasicReceiver.matched r = true ->
  Z.of_nat (length payload) <= 254 ->
  BasicReceiver.onReceived r a (CMD_DATA :: payload) (Z.of_nat (length (CMD_DATA :: payload))) w
  = (r, log (Data payload) w).
Proof.
  intros Hm Hlen. unfold BasicReceiver.onReceived. rewrite Hm. cbn [negb nth length].
  change (CMD_DATA =? CMD_HOP) with false. rewrite andb_false_r.
  rewrite Nat2Z.inj_succ.
  destruct (Z.leb_spec 1 (Z.succ (Z.of_nat (length payload)))); [| lia].
  change (CMD_DATA =? CMD_DATA) with true. cbn [andb].
  unfold bind, BasicReceiver.onData, ret.
  rewrite uint8_small by lia.
  replace (Z.succ (Z.of_nat (length payload)) - 1) with (Z.of_nat (length payload)) by lia.
  cbn [drop]. now rewrite take_whole.
Qed.

(** X3: what [send] puts on the air is what the paired receiver's [onData]
    gets.  For every payload of 0 to 249 bytes, the frame [send] hands to
    the radio, given to [onReceived] with its length, is delivered once,
    with exactly the payload, and changes nothing in the receiver. *)
Theorem data_round_trip (s : BasicSender.t) (r : BasicReceiver.t)
        (a payload : list Z) (ws wr : World) :
  BasicReceiver.matched r = true ->
  Z.of_nat (length payload) <= 249 ->
  exists frame rc,
    trace (snd (BasicSender.send s (Z.of_nat (length payload)) payload ws))
    = trace ws ++ [Tx (take 6 (addr (BasicSender.peer s))) frame rc] /\
    BasicReceiver.onReceived r a frame (Z.of_nat (length frame)) wr
    = (r, log (Data payload) wr).
Proof.
  intros Hm Hlen. exists (CMD_DATA :: payload), (send_rc ws 0%nat).
  rewrite send_hands_frame by lia. cbn [snd trace].
  split; [reflexivity |]. apply paired_delivers_data; [exact Hm | lia].
Qed.

Lemma data_round_trip_witness :
  exists frame rc,
    trace (snd (BasicSender.send Samples.sender_paired 3 [7; 8; 9] Samples.radio_accepting))
    = [] ++ [Tx (take 6 Samples.mac_receiver) frame rc] /\
    BasicReceiver.onReceived Samples.receiver_paired Samples.mac_sender frame
                             (Z.of_nat (length frame)) Samples.radio_accepting
    = (Samples.receiver_paired, log (Data [7; 8; 9]) Samples.radio_accepting).
Proof.
  apply (data_round_trip Samples.sender_paired Samples.receiver_paired Samples.mac_sender
                         [7; 8; 9] Samples.radio_accepting Samples.radio_accepting);
    [reflexivity | cbn; lia].
Defined.

(** What an unpaired sender does with a well-formed search reply. *)
Lemma unpaired_takes_reply (s : BasicSender.t) (a k : list Z) (w : World) :
  BasicSender.matched s = false ->
  length k = 16%nat ->
  BasicSender.onReceived s a (RPL_SEARCH :: k) 17 w
  = (BasicSender.mk true (mkPeer (take 6 a) k) (BasicSender.radio_quality s), w).
Proof.
  intros Hm Hk. unfold BasicSender.onReceived. rewrite Hm. cbn [negb nth].
  change (drop 1 (RPL_SEARCH :: k)) with k.
  change ((17 =? 1 + sizeof_key) && (RPL_SEARCH =? RPL_SEARCH)) with true. cbv iota.
  change (Z.to_nat sizeof_key) with 16%nat.
  replace (take 16 k) with k by (symmetry; apply firstn_all2; lia). reflexivity.
Qed.

(** X4: the search handshake leaves both sides with the same key.  An
    unpaired receiver answers a beacon from address [a_s]; when the sender,
    unpaired, gets that very frame from address [a_r] it is paired with
    [a_r] and the key in the frame, and when the receiver gets the ack it is
    paired with [a_s] and the same key. *)
Theorem search_handshake_agrees (s : BasicSender.t) (r : BasicReceiver.t)
        (a_s a_r beacon : list Z) (ws wr : World) :
  BasicSender.matched s = false ->
  BasicReceiver.matched r = false ->
  nth 0 beacon 0 = CMD_SEARCH ->
  let r1 := BasicReceiver.onReceived r a_s beacon 1 wr in
  exists frame rc,
    trace (snd r1) = trace wr ++ [Tx (take 6 a_s) frame rc] /\
    let s1 := BasicSender.onReceived s a_r frame (Z.of_nat (length frame)) ws in
    let r2 := BasicReceiver.onSent (fst r1) a_s 0 (snd r1) in
    BasicSender.matched (fst s1) = true /\
    BasicReceiver.matched (fst r2) = true /\
    key (BasicSender.peer (fst s1)) = key (BasicReceiver.peer (fst r2)) /\
    addr (BasicSender.peer (fst s1)) = take 6 a_r /\
    addr (BasicReceiver.peer (fst r2)) = take 6 a_s /\
    snd s1 = ws /\ snd r2 = snd r1.
Proof.
  intros Hs Hr Hb r1. unfold r1.
  rewrite (unpaired_answers_search r a_s beacon wr Hr Hb).
  set (k := key_of_seed wr (clock wr 0%nat) 16).
  assert (Hk : length k = 16%nat) by apply length_key_of_seed.
  exists (RPL_SEARCH :: k), (send_rc wr 0%nat). cbn [fst snd trace].
  split; [reflexivity |].
  cbn [length]. rewrite Hk. change (Z.of_nat 17) with 17.
  rewrite (unpaired_takes_reply s a_r k ws Hs Hk).
  unfold BasicReceiver.onSent. cbn. repeat split; reflexivity.
Qed.

Lemma search_handshake_agrees_witness :
  let r1 := BasicReceiver.onReceived Samples.receiver_unpaired Samples.mac_sender
                                     [CMD_SEARCH] 1 Samples.radio_accepting in
  exists frame rc,
    trace (snd r1) = [] ++ [Tx (take 6 Samples.mac_sender) frame rc] /\
    let s1 := BasicSender.onReceived
                (BasicSender.mk false (mkPeer [] []) F32.one)
                Samples.mac_receiver frame (Z.of_nat (length frame)) Samples.radio_rejecting in
    let r2 := BasicReceiver.onSent (fst r1) Samples.mac_sender 0 (snd r1) in
    BasicSender.matched (fst s1) = true /\
    BasicReceiver.matched (fst r2) = true /\
    key (BasicSender.peer (fst s1)) = key (BasicReceiver.peer (fst r2)) /\
    addr (BasicSender.peer (fst s1)) = take 6 Samples.mac_receiver /\
    addr (BasicReceiver.peer (fst r2)) = take 6 Samples.mac_sender /\
    snd s1 = Samples.radio_rejecting /\ snd r2 = snd r1.
Proof.
  apply (search_handshake_agrees (BasicSender.mk false (mkPeer [] []) F32.one)
                                 Samples.receiver_unpaired
                                 Samples.mac_sender Samples.mac_receiver [CMD_SEARCH]
                                 Samples.radio_rejecting Samples.radio_accepting);
    reflexivity.
Defined.

Lemma candidate_in_band (ch d : Z) : in_band (BasicReceiver.candidate ch d).
Proof.
  unfold in_band, BasicReceiver.candidate, MIN_CHANNEL, MAX_CHANNEL, uint8.
  change ((13 - 1) mod 256) with 12. change ((1 + 1) mod 256) with 2.
  destruct (Z.ltb_spec 13 ((ch + d) mod 256)); [lia |].
  destruct (Z.ltb_spec ((ch + d) mod 256) 1); lia.
Qed.

(** X5: a hop request ends with both radios told the same channel, and
    that channel is in [MIN_CHANNEL, MAX_CHANNEL].  When the sender's
    smoothed quality is low, the frame it hands to the radio makes the paired
    receiver, whatever its channel state, hand back a reply; that reply makes
    the sender call [wifi_set_channel] with the byte it carries, and the
    reply's ack makes the receiver call [wifi_set_channel] with the same
    byte. *)
Theorem hop_exchange_agrees (s : BasicSender.t) (r : BasicReceiver.t)
        (a_s a_r : list Z) (status : Z) (ws wr : World) :
  BasicSender.matched s = true ->
  BasicReceiver.matched r = true ->
  F32.ltb (BasicSender.smoothed (BasicSender.radio_quality s) status)
          BasicSender.hop_threshold = true ->
  let s1 := BasicSender.onSent s a_r status ws in
  exists request rc c,
    trace (snd s1) = trace ws ++ [LowQuality; Tx (take 6 (addr (BasicSender.peer s))) request rc] /\
    let r1 := BasicReceiver.onReceived r a_s request (Z.of_nat (length request)) wr in
    exists reply rc',
      trace (snd r1) = trace wr ++ [Tx (take 6 (addr (BasicReceiver.peer r))) reply rc'] /\
      let s2 := BasicSender.onReceived (fst s1) a_r reply (Z.of_nat (length reply)) (snd s1) in
      let r2 := BasicReceiver.onSent (fst r1) a_s 0 (snd r1) in
      in_band c /\
      trace (snd s2) = trace (snd s1) ++ [SetChannel c (chan_ok ws 0%nat)] /\
      trace (snd r2) = trace (snd r1) ++ [SetChannel c (chan_ok wr 0%nat)].
Proof.
  intros Hs Hr Hlow s1. unfold s1.
  rewrite (paired_onSent s a_r status ws Hs), Hlow. cbn [fst snd trace].
  set (c := BasicReceiver.candidate (BasicReceiver.channel r)
                                    (BasicReceiver.channel_direction r)).
  exists [CMD_HOP], (send_rc ws 0%nat), c.
  split; [reflexivity |].
  change (Z.of_nat (length [CMD_HOP])) with 1.
  rewrite (paired_answers_hop r a_s [CMD_HOP] wr Hr eq_refl). fold c.
  exists [RPL_HOP; c], (send_rc wr 0%nat). cbn [fst snd trace].
  split; [reflexivity |].
  split; [apply candidate_in_band |].
  rewrite paired_commits_hop by reflexivity.
  cbn [snd trace chan_ok BasicReceiver.new_channel].
  split; reflexivity.
Qed.

Lemma hop_exchange_agrees_witness :
  let s := BasicSender.mk true (mkPeer Samples.mac_receiver Samples.key0)
                          (S754_finite false 12582912 (-24)) in
  let s1 := BasicSender.onSent s Samples.mac_receiver 1 Samples.radio_accepting in
  exists request rc c,
    trace (snd s1) = [] ++ [LowQuality; Tx (take 6 Samples.mac_receiver) request rc] /\
    let r1 := BasicReceiver.onReceived Samples.receiver_paired Samples.mac_sender request
                                       (Z.of_nat (length request)) Samples.radio_accepting in
    exists reply rc',
      trace (snd r1) = [] ++ [Tx (take 6 Samples.mac_sender) reply rc'] /\
      let s2 := BasicSender.onReceived (fst s1) Samples.mac_receiver reply
                                       (Z.of_nat (length reply)) (snd s1) in
      let r2 := BasicReceiver.onSent (fst r1) Samples.mac_sender 0 (snd r1) in
      in_band c /\
      trace (snd s2) = trace (snd s1) ++ [SetChannel c true] /\
      trace (snd r2) = trace (snd r1) ++ [SetChannel c true].
Proof.
  intros s.
  apply (hop_exchange_agrees s Samples.receiver_paired Samples.mac_sender Samples.mac_receiver
                             1 Samples.radio_accepting Samples.radio_accepting);
    reflexivity.
Defined.

(** ** The sender before pairing *)

(** X6: an unpaired sender is paired by one kind of frame only: 17 bytes
    with tag 2.  It then takes the source address and the 16 bytes after the
    tag as its peer.  Every other frame, and every ack report, leaves its
    state as it was; in no case does it touch the radio or the estimator. *)
Theorem sender_pairs_on_reply (s : BasicSender.t) (a data : list Z) (len : Z) (w : World) :
  BasicSender.matched s = false ->
  Z.of_nat (length data) = len ->
  (len = 17 /\ nth 0 data 0 = RPL_SEARCH ->
   BasicSender.onReceived s a data len w
   = (BasicSender.mk true (mkPeer (take 6 a) (drop 1 data)) (BasicSender.radio_quality s), w)) /\
  (len <> 17 \/ nth 0 data 0 <> RPL_SEARCH -> BasicSender.onReceived s a data len w = (s, w)) /\
  (forall a' status, BasicSender.onSent s a' status w = (s, w)).
Proof.
  intros Hm Hlen. split; [| split].
  - intros [-> Htag]. destruct data as [| tag k]; [discriminate |].
    cbn [nth] in Htag. subst tag.
    change (length (RPL_SEARCH :: k)) with (S (length k)) in Hlen.
    rewrite Nat2Z.inj_succ in Hlen.
    change (drop 1 (RPL_SEARCH :: k)) with k.
    apply unpaired_takes_reply; [exact Hm | lia].
  - intros H. unfold BasicSender.onReceived. rewrite Hm. cbn [negb].
    change (1 + sizeof_key) with 17.
    destruct (Z.eqb_spec len 17); destruct (Z.eqb_spec (nth 0 data 0) RPL_SEARCH);
      cbn [andb]; try reflexivity. tauto.
  - intros a' status. unfold BasicSender.onSent. now rewrite Hm.
Qed.

Lemma sender_pairs_on_reply_witness :
  BasicSender.onReceived (BasicSender.mk false (mkPeer [] []) F32.one) Samples.mac_receiver
                         [CMD_DATA; 1; 2] 3 Samples.radio_accepting
  = (BasicSender.mk false (mkPeer [] []) F32.one, Samples.radio_accepting).
Proof.
  apply (sender_pairs_on_reply (BasicSender.mk false (mkPeer [] []) F32.one)
                               Samples.mac_receiver [CMD_DATA; 1; 2] 3
                               Samples.radio_accepting eq_refl eq_refl).
  left. lia.
Defined.

(** ** What stays true through every run *)

(** X7: pairing is for good on the receiver.  Once paired, through every
    sequence of receptions and acks (search beacons and failed acks
    included) it stays paired and its peer record, address and key, is never
    rewritten. *)
Theorem receiver_pairing_is_stable (es : list BasicReceiver.event)
        (s : BasicReceiver.t) (w : World) :
  BasicReceiver.matched s = true ->
  BasicReceiver.matched (fst (BasicReceiver.run es s w)) = true /\
  BasicReceiver.peer (fst (BasicReceiver.run es s w)) = BasicReceiver.peer s.
Proof.
  revert s w. induction es as [| e es IH]; intros s w Hm; [now split |].
  cbn [BasicReceiver.run]. unfold bind.
  destruct (receiver_step_keeps_pairing s e w Hm) as [H1 H2].
  destruct (BasicReceiver.step s e w) as [s1 w1]. cbn [fst] in H1, H2.
  destruct (IH s1 w1 H1) as [H3 H4]. split; [exact H3 | congruence].
Qed.

Lemma receiver_pairing_is_stable_witness :
  let es := [BasicReceiver.Received Samples.mac_receiver [CMD_SEARCH] 1;
             BasicReceiver.Sent Samples.mac_receiver 1;
             BasicReceiver.Received Samples.mac_receiver [CMD_HOP] 1] in
  BasicReceiver.matched (fst (BasicReceiver.run es Samples.receiver_paired
                                                Samples.radio_accepting)) = true /\
  BasicReceiver.peer (fst (BasicReceiver.run es Samples.receiver_paired
                                             Samples.radio_accepting))
  = mkPeer Samples.mac_sender Samples.key0.
Proof.
  intros es.
  apply (receiver_pairing_is_stable es Samples.receiver_paired Samples.radio_accepting eq_refl).
Defined.

Lemma sender_step_keeps_pairing (s : BasicSender.t) (e : BasicSender.event) (w : World) :
  BasicSender.matched s = true ->
  BasicSender.matched (fst (BasicSender.step s e w)) = true /\
  BasicSender.peer (fst (BasicSender.step s e w)) = BasicSender.peer s.
Proof.
  intros Hm. destruct e as [a data len | a status | len data]; cbn [BasicSender.step].
  - unfold BasicSender.onReceived. rewrite Hm. cbn [negb].
    destruct ((len =? 2) && (nth 0 data 0 =? RPL_HOP)); cbn; now split.
  - rewrite (paired_onSent s a status w Hm).
    destruct (F32.ltb _ _); now split.
  - unfold bind. destruct (BasicSender.send s len data w). now split.
Qed.

(** X8: pairing is for good on the sender.  Once paired, through every
    sequence of receptions, acks and [send] calls it stays paired and keeps
    its peer record: a later search reply, from whatever address, does not
    replace the address or the key. *)
Theorem sender_pairing_is_stable (es : list BasicSender.event)
        (s : BasicSender.t) (w : World) :
  BasicSender.matched s = true ->
  BasicSender.matched (fst (BasicSender.run es s w)) = true /\
  BasicSender.peer (fst (BasicSender.run es s w)) = BasicSender.peer s.
Proof.
  revert s w. induction es as [| e es IH]; intros s w Hm; [now split |].
  cbn [BasicSender.run]. unfold bind.
  destruct (sender_step_keeps_pairing s e w Hm) as [H1 H2].
  destruct (BasicSender.step s e w) as [s1 w1]. cbn [fst] in H1, H2.
  destruct (IH s1 w1 H1) as [H3 H4]. split; [exact H3 | congruence].
Qed.

Lemma sender_pairing_is_stable_witness :
  let es := [BasicSender.Received Samples.mac_sender (RPL_SEARCH :: repeat 9 16) 17;
             BasicSender.Sent Samples.mac_receiver 1] in
  BasicSender.matched (fst (BasicSender.run es Samples.sender_paired
                                            Samples.radio_accepting)) = true /\
  BasicSender.peer (fst (BasicSender.run es Samples.sender_paired Samples.radio_accepting))
  = mkPeer Samples.mac_receiver Samples.key0.
Proof.
  intros es.
  apply (sender_pairing_is_stable es Samples.sender_paired Samples.radio_accepting eq_refl).
Defined.

Lemma hop_reply_bytes_app (t1 t2 : list effect) :
  hop_reply_bytes (t1 ++ t2) = hop_reply_bytes t1 ++ hop_reply_bytes t2.
Proof. unfold hop_reply_bytes. apply flat_map_app. Qed.

(** What one upcall adds to the trace of a receiver: hop replies in band
    only, and channel calls for the stored candidate only. *)
Lemma receiver_step_trace (s : BasicReceiver.t) (e : BasicReceiver.event) (w : World) :
  exists l, trace (snd (BasicReceiver.step s e w)) = trace w ++ l /\
    Forall in_band (hop_reply_bytes l) /\
    Forall (fun c => c.1 = BasicReceiver.new_channel s) (BasicReceiver.channel_calls l).
Proof.
  destruct e as [a data len | a status]; cbn [BasicReceiver.step].
  - destruct (BasicReceiver.matched s) eqn:Hm.
    + unfold BasicReceiver.onReceived. rewrite Hm. cbn [negb].
      destruct ((len =? 1) && (nth 0 data 0 =? CMD_HOP)).
      * eexists. split; [reflexivity |]. change (Z.to_nat 2) with 2%nat. cbn.
        split; [| constructor]. constructor; [apply candidate_in_band | constructor].
      * destruct ((1 <=? len) && (nth 0 data 0 =? CMD_DATA)).
        -- eexists. split; [reflexivity |]. cbn. split; constructor.
        -- exists []. cbn. rewrite app_nil_r. repeat split; constructor.
    + destruct ((len =? 1) && (nth 0 data 0 =? CMD_SEARCH)) eqn:Hc.
      * apply andb_true_iff in Hc as [Hl Ht]. apply Z.eqb_eq in Hl, Ht. subst len.
        rewrite (unpaired_answers_search s a data w Hm Ht). cbn [snd trace].
        eexists. split; [reflexivity |]. unfold key_of_seed. cbn. split; constructor.
      * unfold BasicReceiver.onReceived. rewrite Hm, Hc.
        exists []. cbn. rewrite app_nil_r. repeat split; constructor.
  - unfold BasicReceiver.onSent.
    destruct (BasicReceiver.matched s); cbn [negb]; destruct (status =? 0);
      try (exists []; cbn; rewrite app_nil_r; repeat split; constructor).
    unfold bind, wifi_set_channel, ret.
    destruct (chan_ok w 0%nat); cbn [snd trace];
      (eexists; split; [reflexivity |]; cbn; split; repeat constructor).
Qed.

(** X9: a receiver never proposes a channel outside the band.  Whatever
    its state, even with channel or direction out of range, every hop reply
    it hands to the radio during any run carries a channel in
    [MIN_CHANNEL, MAX_CHANNEL]. *)
Theorem hop_replies_in_band (es : list BasicReceiver.event)
        (s : BasicReceiver.t) (w : World) :
  exists l, trace (snd (BasicReceiver.run es s w)) = trace w ++ l /\
            Forall in_band (hop_reply_bytes l).
Proof.
  revert s w. induction es as [| e es IH]; intros s w.
  - exists []. cbn. rewrite app_nil_r. split; [reflexivity | constructor].
  - cbn [BasicReceiver.run]. unfold bind.
    destruct (receiver_step_trace s e w) as (l1 & Ht1 & Hb1 & _).
    destruct (BasicReceiver.step s e w) as [s1 w1]. cbn [snd] in Ht1.
    destruct (IH s1 w1) as (l2 & Ht2 & Hb2).
    exists (l1 ++ l2). split; [rewrite Ht2, Ht1; now rewrite app_assoc |].
    rewrite hop_reply_bytes_app. now apply Forall_app.
Qed.

(** One upcall keeps channel and stored candidate in the band. *)
Lemma receiver_step_in_band (s : BasicReceiver.t) (e : BasicReceiver.event) (w : World) :
  in_band (BasicReceiver.channel s) -> in_band (BasicReceiver.new_channel s) ->
  in_band (BasicReceiver.channel (fst (BasicReceiver.step s e w))) /\
  in_band (BasicReceiver.new_channel (fst (BasicReceiver.step s e w))).
Proof.
  intros Hc Hn. destruct e as [a data len | a status]; cbn [BasicReceiver.step].
  - destruct (BasicReceiver.matched s) eqn:Hm.
    + unfold BasicReceiver.onReceived. rewrite Hm. cbn [negb].
      destruct ((len =? 1) && (nth 0 data 0 =? CMD_HOP)).
      * cbn. split; [exact Hc | apply candidate_in_band].
      * destruct ((1 <=? len) && (nth 0 data 0 =? CMD_DATA)); cbn; now split.
    + destruct ((len =? 1) && (nth 0 data 0 =? CMD_SEARCH)) eqn:Hs.
      * apply andb_true_iff in Hs as [Hl Ht]. apply Z.eqb_eq in Hl, Ht. subst len.
        rewrite (unpaired_answers_search s a data w Hm Ht). cbn. now split.
      * unfold BasicReceiver.onReceived. rewrite Hm, Hs. now split.
  - unfold BasicReceiver.onSent.
    destruct (BasicReceiver.matched s); cbn [negb]; destruct (status =? 0);
      try now split.
    unfold bind, wifi_set_channel, ret. destruct (chan_ok w 0%nat); cbn; now split.
Qed.

(** X10: the receiver's channel never leaves the band.  From a state whose
    channel and stored candidate are in [MIN_CHANNEL, MAX_CHANNEL], through
    every run, both stay there and every [wifi_set_channel] call the
    receiver makes is for a channel in the band. *)
Theorem receiver_channel_in_band (es : list BasicReceiver.event)
        (s : BasicReceiver.t) (w : World) :
  in_band (BasicReceiver.channel s) ->
  in_band (BasicReceiver.new_channel s) ->
  in_band (BasicReceiver.channel (fst (BasicReceiver.run es s w))) /\
  in_band (BasicReceiver.new_channel (fst (BasicReceiver.run es s w))) /\
  exists l, trace (snd (BasicReceiver.run es s w)) = trace w ++ l /\
            Forall (fun c => in_band c.1) (BasicReceiver.channel_calls l).
Proof.
  revert s w. induction es as [| e es IH]; intros s w Hc Hn.
  - cbn. split; [exact Hc |]. split; [exact Hn |].
    exists []. rewrite app_nil_r. split; [reflexivity | constructor].
  - cbn [BasicReceiver.run]. unfold bind.
    destruct (receiver_step_in_band s e w Hc Hn) as [Hc1 Hn1].
    destruct (receiver_step_trace s e w) as (l1 & Ht1 & _ & Hcalls).
    destruct (BasicReceiver.step s e w) as [s1 w1]. cbn [fst snd] in Hc1, Hn1, Ht1.
    destruct (IH s1 w1 Hc1 Hn1) as (Hc2 & Hn2 & l2 & Ht2 & Hl2).
    split; [exact Hc2 |]. split; [exact Hn2 |].
    exists (l1 ++ l2). split; [rewrite Ht2, Ht1; now rewrite app_assoc |].
    rewrite channel_calls_app. apply Forall_app. split; [| exact Hl2].
    eapply Forall_impl; [exact Hcalls |]. cbn beta. intros c ->. exact Hn.
Qed.

Lemma receiver_channel_in_band_witness :
  let es := [BasicReceiver.Received Samples.mac_sender [CMD_HOP] 1;
             BasicReceiver.Sent Samples.mac_sender 0;
             BasicReceiver.Sent Samples.mac_sender 0] in
  let r := BasicReceiver.run es
             (BasicReceiver.mk true (mkPeer Samples.mac_sender Samples.key0) 13 1 13)
             Samples.radio_accepting in
  in_band (BasicReceiver.channel (fst r)).
Proof.
  intros es r.
  apply (receiver_channel_in_band es
           (BasicReceiver.mk true (mkPeer Samples.mac_sender Samples.key0) 13 1 13)
           Samples.radio_accepting); unfold in_band, MIN_CHANNEL, MAX_CHANNEL; cbn; lia.
Defined.

(** A receiver with direction 0 whose stored candidate is its channel
    stays so through one upcall, and any hop reply it sends carries that
    channel. *)
Lemma receiver_step_stalled (s : BasicReceiver.t) (e : BasicReceiver.event) (w : World) :
  BasicReceiver.matched s = true ->
  in_band (BasicReceiver.channel s) ->
  BasicReceiver.new_channel s = BasicReceiver.channel s ->
  BasicReceiver.channel_direction s = 0 ->
  let r := BasicReceiver.step s e w in
  BasicReceiver.matched (fst r) = true /\
  BasicReceiver.channel (fst r) = BasicReceiver.channel s /\
  BasicReceiver.new_channel (fst r) = BasicReceiver.channel s /\
  BasicReceiver.channel_direction (fst r) = 0 /\
  exists l, trace (snd r) = trace w ++ l /\
            Forall (fun c => c = BasicReceiver.channel s) (hop_reply_bytes l).
Proof.
  intros Hm Hc Hn Hd r. unfold r. clear r.
  assert (Hcand : BasicReceiver.candidate (BasicReceiver.channel s) 0 = BasicReceiver.channel s).
  { unfold in_band, MIN_CHANNEL, MAX_CHANNEL in Hc.
    unfold BasicReceiver.candidate, MIN_CHANNEL, MAX_CHANNEL.
    rewrite Z.add_0_r, uint8_small by lia.
    destruct (Z.ltb_spec 13 (BasicReceiver.channel s)); [lia |].
    destruct (Z.ltb_spec (BasicReceiver.channel s) 1); [lia | reflexivity]. }
  destruct e as [a data len | a status]; cbn [BasicReceiver.step].
  - unfold BasicReceiver.onReceived. rewrite Hm. cbn [negb].
    destruct ((len =? 1) && (nth 0 data 0 =? CMD_HOP)).
    + rewrite Hd, Hcand. cbn. repeat split; try assumption.
      eexists. split; [reflexivity |]. change (Z.to_nat 2) with 2%nat. cbn.
      repeat constructor.
    + destruct ((1 <=? len) && (nth 0 data 0 =? CMD_DATA)); cbn; repeat split;
        try assumption.
      * eexists. split; [reflexivity |]. cbn. constructor.
      * exists []. rewrite app_nil_r. split; [reflexivity | constructor].
  - unfold BasicReceiver.onSent. rewrite Hm. cbn [negb].
    destruct (status =? 0).
    + unfold bind, wifi_set_channel, ret. rewrite Hn.
      destruct (chan_ok w 0%nat); cbn; rewrite ?Z.sub_diag; repeat split;
        try assumption; try reflexivity;
        (eexists; split; [reflexivity |]; cbn; constructor).
    + cbn. repeat split; try assumption.
      exists []. rewrite app_nil_r. split; [reflexivity | constructor].
Qed.

(** X11: a second ack stalls the hopper.  On a paired receiver that has
    just committed a hop (stored candidate equal to the channel), another
    successful ack calls [wifi_set_channel] for the same channel and, when
    the radio takes the call, sets the direction to 0.  With direction 0
    every later hop reply, in every run,
    proposes the channel the receiver is already on, and channel and
    direction never change again. *)
Theorem repeated_ack_stalls_hopping (s : BasicReceiver.t) (a : list Z) (w : World) :
  BasicReceiver.matched s = true ->
  in_band (BasicReceiver.channel s) ->
  BasicReceiver.new_channel s = BasicReceiver.channel s ->
  let r := BasicReceiver.onSent s a 0 w in
  trace (snd r) = trace w ++ [SetChannel (BasicReceiver.channel s) (chan_ok w 0%nat)] /\
  BasicReceiver.channel (fst r) = BasicReceiver.channel s /\
  (chan_ok w 0%nat = true -> BasicReceiver.channel_direction (fst r) = 0) /\
  (BasicReceiver.channel_direction (fst r) = 0 ->
   forall es,
     let r' := BasicReceiver.run es (fst r) (snd r) in
     BasicReceiver.channel (fst r') = BasicReceiver.channel s /\
     BasicReceiver.channel_direction (fst r') = 0 /\
     exists l, trace (snd r') = trace (snd r) ++ l /\
               Forall (fun c => c = BasicReceiver.channel s) (hop_reply_bytes l)).
Proof.
  intros Hm Hc Hn r.
  assert (Hr : r = (if chan_ok w 0%nat
                    then BasicReceiver.mk true (BasicReceiver.peer s) (BasicReceiver.channel s)
                                          0 (BasicReceiver.channel s)
                    else s,
                    mkWorld (trace w ++ [SetChannel (BasicReceiver.channel s) (chan_ok w 0%nat)])
                            (send_rc w) (tail_of (chan_ok w)) (clock w) (prng w) (seed w)
                            (draws w))).
  { unfold r. rewrite (paired_commits_hop s a w Hm), Hn, Z.sub_diag. reflexivity. }
  assert (Hstate : BasicReceiver.matched (fst r) = true /\
                   BasicReceiver.channel (fst r) = BasicReceiver.channel s /\
                   BasicReceiver.new_channel (fst r) = BasicReceiver.channel s).
  { rewrite Hr. destruct (chan_ok w 0%nat); cbn; repeat split; assumption. }
  destruct Hstate as (Hm1 & Hc1 & Hn1).
  split; [rewrite Hr; reflexivity |]. split; [exact Hc1 |].
  split; [intros Hok; rewrite Hr, Hok; reflexivity |].
  intros Hd es. generalize dependent (snd r). generalize dependent (fst r).
  clear Hr r. induction es as [| e es IH]; intros s1 Hm1 Hc1 Hn1 Hd w1.
  - cbn. repeat split; try assumption.
    exists []. rewrite app_nil_r. split; [reflexivity | constructor].
  - cbn [BasicReceiver.run]. unfold bind.
    destruct (receiver_step_stalled s1 e w1 Hm1 ltac:(now rewrite Hc1)
                                    ltac:(now rewrite Hn1) Hd)
      as (Hm2 & Hc2 & Hn2 & Hd2 & l1 & Ht1 & Hl1).
    destruct (BasicReceiver.step s1 e w1) as [s2 w2]. cbn [fst snd] in *.
    rewrite Hc1 in Hc2, Hn2, Hl1.
    destruct (IH s2 Hm2 Hc2 Hn2 Hd2 w2) as (Hc3 & Hd3 & l2 & Ht2 & Hl2).
    repeat split; try assumption.
    exists (l1 ++ l2). split; [rewrite Ht2, Ht1; now rewrite app_assoc |].
    rewrite hop_reply_bytes_app. now apply Forall_app.
Qed.

Lemma repeated_ack_stalls_hopping_witness :
  let s := BasicReceiver.mk true (mkPeer Samples.mac_sender Samples.key0) 8 1 8 in
  let r := BasicReceiver.onSent s Samples.mac_sender 0 Samples.radio_accepting in
  let r' := BasicReceiver.run [BasicReceiver.Received Samples.mac_sender [CMD_HOP] 1]
                              (fst r) (snd r) in
  BasicReceiver.channel_direction (fst r) = 0 /\
  exists l, trace (snd r') = trace (snd r) ++ l /\ Forall (fun c => c = 8) (hop_reply_bytes l).
Proof.
  intros s r r'.
  destruct (repeated_ack_stalls_hopping s Samples.mac_sender Samples.radio_accepting)
    as (_ & _ & Hd & Hrun);
    [reflexivity | unfold in_band, MIN_CHANNEL, MAX_CHANNEL; cbn; lia | reflexivity |].
  split; [exact (Hd eq_refl) |].
  exact (proj2 (proj2 (Hrun (Hd eq_refl)
                            [BasicReceiver.Received Samples.mac_sender [CMD_HOP] 1]))).
Defined.

(** ** A perfect link *)

Lemma one_is_fixed : BasicSender.smoothed F32.one 0 = F32.one.
Proof. vm_compute. reflexivity. Qed.

(** X12: a link that acks everything never asks for a hop.  On a paired
    sender at quality 1.0, any number of acks with status 0 leaves the
    quality at exactly 1.0 and the radio untouched: [cw + 0.01f] rounds
    back to 1.0. *)
Theorem perfect_link_is_quiet (es : list BasicSender.event) (s : BasicSender.t) (w : World) :
  BasicSender.matched s = true ->
  BasicSender.radio_quality s = F32.one ->
  Forall ack_ok es ->
  BasicSender.run es s w = (s, w).
Proof.
  intros Hm Hq Hes. induction es as [| e es IH]; [reflexivity |].
  inversion Hes as [| ? ? He Hes']; subst.
  destruct e as [a data len | a status | len data]; cbn in He; try contradiction.
  subst status. cbn [BasicSender.run BasicSender.step]. unfold bind.
  rewrite (paired_onSent s a 0 w Hm), Hq, one_is_fixed, one_not_low.
  replace (BasicSender.mk true (BasicSender.peer s) F32.one) with s
    by (destruct s; cbn in *; congruence).
  now apply IH.
Qed.

Lemma perfect_link_is_quiet_witness :
  BasicSender.run (repeat (BasicSender.Sent Samples.mac_receiver 0) 5)
                  Samples.sender_paired Samples.radio_rejecting
  = (Samples.sender_paired, Samples.radio_rejecting).
Proof.
  apply (perfect_link_is_quiet _ Samples.sender_paired Samples.radio_rejecting eq_refl eq_refl).
  cbn [repeat]. repeat constructor.
Defined.

(** ** Start-up and the stored peer *)

#[export] Instance Sender_role_laws : RoleLaws BasicSender.t.
Proof. split; reflexivity. Qed.

#[export] Instance Receiver_role_laws : RoleLaws BasicReceiver.t.
Proof. split; reflexivity. Qed.

Section BeginProofs.

Context {R : Type} `{RoleLaws R}.
Variable searchForPeer : R -> M (option bool * R).

(** With every start-up call answering well, [begin] comes down to the
    part that looks for the peer. *)
Lemma begin_ready (dir : string) (sdk : Sdk) (r : R) (w : World) :
  Boot.ready dir sdk w ->
  Boot.begin searchForPeer dir sdk r w
  = (let fl := flash sdk in
     let r := set_matched false r in
     if fs_exists fl FPATH_PEER then
       match blobs fl !! FPATH_PEER with
       | None => ret (Some false, r, fl)
       | Some file =>
           let nread := Z.min sizeof_peer (Z.of_nat (length file)) in
           let image := take (Z.to_nat nread) file
                        ++ drop (Z.to_nat nread) (peer_image (get_peer r)) in
           let r := set_peer (peer_of_image image) r in
           if negb (nread =? sizeof_peer) then ret (Some false, r, fl)
           else ret (Boot.add_peer sdk fl r)
       end
     else
       found <- searchForPeer r ;;
       match found with
       | (None, r) => ret (None, r, fl)
       | (Some false, r) => ret (Some false, r, fl)
       | (Some true, r) =>
           if write_protected fl then ret (Some false, r, fl)
           else
             let nwrite := write_count sdk in
             let fl := mkFlash (<[FPATH_PEER := take (Z.to_nat nwrite) (peer_image (get_peer r))]>
                                  (blobs fl))
                               (write_protected fl) in
             if negb (nwrite =? sizeof_peer) then ret (Some false, r, fl)
             else ret (Boot.add_peer sdk fl r)
       end)%world (Boot.tuned w).
Proof.
  intros ((file & Hfile & Hjson) & Hmode & Hap & Hcfg & Hchan & Hinit & Hrole & Hscb & Hrcb).
  unfold Boot.begin. rewrite Hfile, Hjson, Hmode, Hap, Hcfg. cbn [negb].
  unfold bind at 1. unfold wifi_set_channel at 1. rewrite Hchan. cbn [negb].
  rewrite Hinit, Hrole, Hscb, Hrcb. cbn [Z.eqb negb]. reflexivity.
Qed.

End BeginProofs.

Lemma flash_exists (fl : Flash) (n : string) :
  fs_exists fl n = match blobs fl !! n with Some _ => true | None => false end.
Proof.
  cbn. destruct (blobs fl !! n) eqn:Hn.
  - apply bool_decide_eq_true. now exists l.
  - apply bool_decide_eq_false. intros [x Hx]. discriminate.
Qed.

(** A stored blob of 22 bytes or more is read whole into the struct. *)
Lemma image_read (file old : list Z) :
  22 <= Z.of_nat (length file) ->
  let nread := Z.min sizeof_peer (Z.of_nat (length file)) in
  nread = sizeof_peer /\
  peer_of_image (take (Z.to_nat nread) file ++ drop (Z.to_nat nread) old)
  = mkPeer (take 6 file) (take 16 (drop 6 file)).
Proof.
  intros Hlen nread. unfold sizeof_peer in *.
  assert (Hn : nread = 22) by (unfold nread; lia).
  split; [exact Hn |]. rewrite Hn. change (Z.to_nat 22) with 22%nat.
  unfold peer_of_image.
  assert (Hl : (22 <= length file)%nat) by lia.
  f_equal.
  - rewrite take_app_le by (rewrite length_take; lia).
    rewrite take_take. reflexivity.
  - rewrite drop_app_le by (rewrite length_take; lia).
    rewrite take_app_le by (rewrite length_drop, length_take; lia).
    rewrite skipn_firstn_comm. rewrite take_take. reflexivity.
Qed.

(** What [begin] does with a stored blob of 22 bytes or more. *)
Lemma begin_loads_blob {R : Type} `{RoleLaws R}
        (searchForPeer : R -> M (option bool * R))
        (dir : string) (sdk : Sdk) (r : R) (w : World) (file : list Z) :
  Boot.ready dir sdk w ->
  blobs (flash sdk) !! FPATH_PEER = Some file ->
  22 <= Z.of_nat (length file) ->
  add_peer_rc sdk = 0 ->
  exists r',
    Boot.begin searchForPeer dir sdk r w = (Some true, r', flash sdk, Boot.tuned w) /\
    get_matched r' = true /\
    get_peer r' = mkPeer (take 6 file) (take 16 (drop 6 file)).
Proof.
  intros Hready Hfile Hlen Hadd.
  rewrite (begin_ready searchForPeer dir sdk r w Hready). cbv zeta.
  rewrite flash_exists, Hfile.
  destruct (image_read file (peer_image (get_peer (set_matched false r))) Hlen) as [Hn Himg].
  cbv zeta in Hn, Himg. rewrite Himg, Hn. cbn [Z.eqb negb].
  unfold Boot.add_peer. rewrite Hadd. cbn [Z.eqb negb]. unfold ret.
  eexists. split; [reflexivity |].
  rewrite matched_set_matched, peer_set_matched, peer_set_peer. now split.
Qed.

(** X13: a warm boot takes the peer from flash and does not search.  When
    every start-up call succeeds and the peer blob holds 22 bytes or more,
    [begin] returns true with the endpoint matched, the peer's address the
    first 6 bytes and its key the next 16, whatever [searchForPeer] would
    do; the flash is as before and the only radio call is
    [wifi_set_channel(INIT_CHANNEL)]. *)
Theorem warm_boot_loads_peer {R : Type} `{RoleLaws R}
        (searchForPeer : R -> M (option bool * R))
        (dir : string) (sdk : Sdk) (r : R) (w : World) (file : list Z) :
  Boot.ready dir sdk w ->
  blobs (flash sdk) !! FPATH_PEER = Some file ->
  22 <= Z.of_nat (length file) ->
  add_peer_rc sdk = 0 ->
  exists r',
    Boot.begin searchForPeer dir sdk r w = (Some true, r', flash sdk, Boot.tuned w) /\
    get_matched r' = true /\
    get_peer r' = mkPeer (take 6 file) (take 16 (drop 6 file)).
Proof.
  intros Hready Hfile Hlen Hadd.
  now apply begin_loads_blob.
Qed.

Lemma ready_sample (fl : Flash) (file : list Z) :
  blobs fl !! "sender/config.json"%string = Some file ->
  Boot.ready "sender/" (BootSamples.sdk_on fl) Samples.radio_accepting.
Proof.
  intros Hfile. unfold Boot.ready. cbn.
  split; [exists file; split; [exact Hfile | reflexivity] |]. repeat split.
Qed.

Lemma warm_boot_loads_peer_witness :
  exists s',
    Boot.begin BootSamples.still_searching "sender/" (BootSamples.sdk_on BootSamples.flash_stored)
               Samples.sender_paired Samples.radio_accepting
    = (Some true, s', BootSamples.flash_stored, Boot.tuned Samples.radio_accepting) /\
    get_matched s' = true /\
    get_peer s' = mkPeer (take 6 (Samples.mac_receiver ++ Samples.key0))
                         (take 16 (drop 6 (Samples.mac_receiver ++ Samples.key0))).
Proof.
  apply (warm_boot_loads_peer BootSamples.still_searching "sender/"
                              (BootSamples.sdk_on BootSamples.flash_stored)
                              Samples.sender_paired Samples.radio_accepting
                              (Samples.mac_receiver ++ Samples.key0)).
  - apply (ready_sample _ [123; 125]). reflexivity.
  - reflexivity.
  - cbn. lia.
  - reflexivity.
Defined.

(** What [begin] does with a stored blob of fewer than 22 bytes. *)
Lemma begin_rejects_short_blob {R : Type} `{RoleLaws R}
        (searchForPeer : R -> M (option bool * R))
        (dir : string) (sdk : Sdk) (r : R) (w : World) (file : list Z) :
  Boot.ready dir sdk w ->
  blobs (flash sdk) !! FPATH_PEER = Some file ->
  Z.of_nat (length file) < 22 ->
  let res := Boot.begin searchForPeer dir sdk r w in
  fst (fst (fst res)) = Some false /\
  snd (fst res) = flash sdk /\
  snd res = Boot.tuned w.
Proof.
  intros Hready Hfile Hlen res. unfold res.
  rewrite (begin_ready searchForPeer dir sdk r w Hready). cbv zeta.
  rewrite flash_exists, Hfile.
  destruct (Z.eqb_spec (Z.min sizeof_peer (Z.of_nat (length file))) sizeof_peer) as [He | _].
  - unfold sizeof_peer in He. lia.
  - cbn [negb]. unfold ret. cbn. repeat split.
Qed.

(** X14: a stored blob shorter than 22 bytes makes [begin] fail, without a
    search and without touching the flash, so it fails again on the next
    boot for as long as the blob is there. *)
Theorem short_blob_fails_begin {R : Type} `{RoleLaws R}
        (searchForPeer : R -> M (option bool * R))
        (dir : string) (sdk : Sdk) (r : R) (w : World) (file : list Z) :
  Boot.ready dir sdk w ->
  blobs (flash sdk) !! FPATH_PEER = Some file ->
  Z.of_nat (length file) < 22 ->
  let res := Boot.begin searchForPeer dir sdk r w in
  fst (fst (fst res)) = Some false /\
  snd (fst res) = flash sdk /\
  snd res = Boot.tuned w.
Proof.
  intros Hready Hfile Hlen.
  exact (begin_rejects_short_blob searchForPeer dir sdk r w file Hready Hfile Hlen).
Qed.

Lemma short_blob_fails_begin_witness :
  let sdk := BootSamples.sdk_on
               (mkFlash (<[FPATH_PEER := Samples.mac_receiver]> (blobs BootSamples.flash_fresh))
                        false) in
  let res := Boot.begin BootSamples.found_at_once "sender/" sdk Samples.sender_paired
                        Samples.radio_accepting in
  fst (fst (fst res)) = Some false /\
  snd (fst res) = flash sdk /\
  snd res = Boot.tuned Samples.radio_accepting.
Proof.
  intros sdk.
  apply (short_blob_fails_begin BootSamples.found_at_once "sender/" sdk Samples.sender_paired
                                Samples.radio_accepting Samples.mac_receiver).
  - apply (ready_sample _ [123; 125]). reflexivity.
  - reflexivity.
  - cbn. lia.
Defined.

(** What the cold path does once the search has found a peer and the
    flash takes the 22 bytes. *)
Lemma cold_boot_saves {R : Type} `{RoleLaws R}
      (searchForPeer : R -> M (option bool * R))
      (dir : string) (sdk : Sdk) (r r1 : R) (w w1 : World) :
  Boot.ready dir sdk w ->
  blobs (flash sdk) !! FPATH_PEER = None ->
  searchForPeer (set_matched false r) (Boot.tuned w) = (Some true, r1, w1) ->
  write_protected (flash sdk) = false ->
  Boot.begin searchForPeer dir sdk r w
  = (if negb (write_count sdk =? sizeof_peer)
     then (Some false, r1,
           mkFlash (<[FPATH_PEER := take (Z.to_nat (write_count sdk)) (peer_image (get_peer r1))]>
                      (blobs (flash sdk))) false)
     else Boot.add_peer sdk
            (mkFlash (<[FPATH_PEER := take (Z.to_nat (write_count sdk)) (peer_image (get_peer r1))]>
                        (blobs (flash sdk))) false) r1,
     w1).
Proof.
  intros Hready Hnone Hsearch Hwp.
  rewrite (begin_ready searchForPeer dir sdk r w Hready). cbv zeta.
  rewrite flash_exists, Hnone. unfold bind. rewrite Hsearch, Hwp.
  destruct (negb (write_count sdk =? sizeof_peer)); reflexivity.
Qed.

Lemma image_of_sized (p : Peer) :
  peer_sized p ->
  Z.of_nat (length (peer_image p)) = 22 /\
  mkPeer (take 6 (peer_image p)) (take 16 (drop 6 (peer_image p))) = p.
Proof.
  intros [Ha Hk]. unfold peer_image. rewrite length_app, Ha, Hk. split; [reflexivity |].
  destruct p as [a k]. cbn [addr key] in *. f_equal.
  - rewrite take_app_le by lia. now apply firstn_all2; lia.
  - rewrite drop_app_length' by (symmetry; exact Ha). apply firstn_all2. lia.
Qed.

(** X15: the stored peer round-trips through flash.  When a cold boot (no
    peer blob) finds a peer with a 6-byte address and a 16-byte key and the
    flash takes the write, [begin] returns true and leaves the 22 bytes
    address-then-key under the peer's name; a later [begin] over that flash
    returns true with exactly that peer, without searching. *)
Theorem stored_peer_round_trips {R : Type} `{RoleLaws R}
        (search search' : R -> M (option bool * R))
        (dir : string) (sdk : Sdk) (r r1 r' : R) (w w1 w' : World) :
  Boot.ready dir sdk w ->
  blobs (flash sdk) !! FPATH_PEER = None ->
  search (set_matched false r) (Boot.tuned w) = (Some true, r1, w1) ->
  peer_sized (get_peer r1) ->
  write_protected (flash sdk) = false ->
  write_count sdk = 22 ->
  add_peer_rc sdk = 0 ->
  Boot.ready dir sdk w' ->
  exists fl r2 r3,
    Boot.begin search dir sdk r w = (Some true, r2, fl, w1) /\
    get_matched r2 = true /\ get_peer r2 = get_peer r1 /\
    blobs fl !! FPATH_PEER = Some (addr (get_peer r1) ++ key (get_peer r1)) /\
    Boot.begin search' dir (Boot.with_flash fl sdk) r' w' = (Some true, r3, fl, Boot.tuned w') /\
    get_matched r3 = true /\ get_peer r3 = get_peer r1.
Proof.
  intros Hready Hnone Hsearch Hsized Hwp Hcount Hadd Hready'.
  destruct (image_of_sized _ Hsized) as [Hlen Himg].
  rewrite (cold_boot_saves search dir sdk r r1 w w1 Hready Hnone Hsearch Hwp).
  rewrite Hcount. cbn [Z.eqb negb]. change (22 =? sizeof_peer) with true. cbn [negb].
  unfold Boot.add_peer. rewrite Hadd. cbn [Z.eqb negb].
  rewrite (take_whole _ 22 Hlen).
  set (fl := mkFlash (<[FPATH_PEER := peer_image (get_peer r1)]> (blobs (flash sdk))) false).
  assert (Hstored : blobs fl !! FPATH_PEER = Some (peer_image (get_peer r1)))
    by (unfold fl; cbn [blobs]; apply lookup_insert_eq).
  assert (Hready2 : Boot.ready dir (Boot.with_flash fl sdk) w').
  { destruct Hready' as ((file & Hfile & Hjson) & Hrest).
    split; [| exact Hrest]. exists file. split; [| exact Hjson].
    cbn [flash Boot.with_flash]. unfold fl. cbn [blobs].
    destruct (decide (FPATH_PEER = String.append dir FNAME_JSON)) as [He | Hne].
    - rewrite <- He in Hfile. congruence.
    - now rewrite lookup_insert_ne. }
  destruct (begin_loads_blob search' dir (Boot.with_flash fl sdk) r' w'
                                 (peer_image (get_peer r1)) Hready2 Hstored
                                 ltac:(lia) Hadd) as (r3 & Hb & Hm3 & Hp3).
  exists fl, (set_matched true r1), r3.
  split; [reflexivity |].
  rewrite matched_set_matched, peer_set_matched.
  split; [reflexivity |]. split; [reflexivity |]. split; [exact Hstored |].
  split; [exact Hb |]. split; [exact Hm3 |]. now rewrite Hp3, Himg.
Qed.

Lemma stored_peer_round_trips_witness :
  exists fl s2 s3,
    Boot.begin BootSamples.found_at_once "sender/" (BootSamples.sdk_on BootSamples.flash_fresh)
               Samples.sender_paired Samples.radio_accepting
    = (Some true, s2, fl, Boot.tuned Samples.radio_accepting) /\
    get_matched s2 = true /\
    get_peer s2 = mkPeer Samples.mac_receiver Samples.key0 /\
    blobs fl !! FPATH_PEER = Some (Samples.mac_receiver ++ Samples.key0) /\
    Boot.begin BootSamples.still_searching "sender/"
               (Boot.with_flash fl (BootSamples.sdk_on BootSamples.flash_fresh))
               Samples.sender_paired BootSamples.radio_deaf
    = (Some true, s3, fl, Boot.tuned BootSamples.radio_deaf) /\
    get_matched s3 = true /\
    get_peer s3 = mkPeer Samples.mac_receiver Samples.key0.
Proof.
  assert (Hr : forall w, chan_ok w 0%nat = true ->
                         Boot.ready "sender/" (BootSamples.sdk_on BootSamples.flash_fresh) w).
  { intros w Hw. unfold Boot.ready. cbn.
    split; [exists [123; 125]; split; reflexivity |]. repeat split. exact Hw. }
  exact (stored_peer_round_trips
           BootSamples.found_at_once BootSamples.still_searching "sender/"
           (BootSamples.sdk_on BootSamples.flash_fresh)
           Samples.sender_paired
           (BasicSender.mk true (mkPeer Samples.mac_receiver Samples.key0) F32.one)
           Samples.sender_paired
           Samples.radio_accepting (Boot.tuned Samples.radio_accepting)
           BootSamples.radio_deaf
           (Hr Samples.radio_accepting eq_refl) eq_refl eq_refl (conj eq_refl eq_refl)
           eq_refl eq_refl eq_refl (Hr BootSamples.radio_deaf eq_refl)).
Defined.

(** What [begin] does with no stored blob when the search does not find a
    peer. *)
Lemma begin_follows_search {R : Type} `{RoleLaws R}
      (searchForPeer : R -> M (option bool * R))
      (dir : string) (sdk : Sdk) (r r1 : R) (w w1 : World) (res : option bool) :
  Boot.ready dir sdk w ->
  blobs (flash sdk) !! FPATH_PEER = None ->
  searchForPeer (set_matched false r) (Boot.tuned w) = (res, r1, w1) ->
  res <> Some true ->
  Boot.begin searchForPeer dir sdk r w = (res, r1, flash sdk, w1).
Proof.
  intros Hready Hnone Hsearch Hres.
  rewrite (begin_ready searchForPeer dir sdk r w Hready). cbv zeta.
  rewrite flash_exists, Hnone. unfold bind. rewrite Hsearch.
  destruct res as [[|] |]; [contradiction | reflexivity | reflexivity].
Qed.

(** X16: [reset] makes the next [begin] search again.  Over the flash a
    successful [reset] leaves, with every start-up call answering well,
    [begin] runs [searchForPeer]: it is still running while the search is,
    and returns false when the search returns false, in both cases with the
    flash untouched. *)
Theorem reset_then_begin_searches {R : Type} `{RoleLaws R}
        (searchForPeer : R -> M (option bool * R))
        (dir : string) (sdk : Sdk) (r r1 : R) (w w1 : World) (res : option bool) :
  fst (RCBridgeBase.reset (flash sdk)) = true ->
  let fl := snd (RCBridgeBase.reset (flash sdk)) in
  Boot.ready dir (Boot.with_flash fl sdk) w ->
  searchForPeer (set_matched false r) (Boot.tuned w) = (res, r1, w1) ->
  res <> Some true ->
  Boot.begin searchForPeer dir (Boot.with_flash fl sdk) r w = (res, r1, fl, w1).
Proof.
  intros Hok fl Hready Hsearch Hres.
  assert (Hgone : blobs fl !! FPATH_PEER = None).
  { unfold fl. unfold RCBridgeBase.reset in *.
    rewrite flash_exists in *. cbn [fs_remove Flash_store] in *.
    destruct (blobs (flash sdk) !! FPATH_PEER) eqn:Hb; [| exact Hb].
    destruct (write_protected (flash sdk)); [discriminate Hok |].
    cbn [negb snd blobs]. apply lookup_delete_eq. }
  exact (begin_follows_search searchForPeer dir (Boot.with_flash fl sdk) r r1 w w1 res
                              Hready Hgone Hsearch Hres).
Qed.

Lemma reset_then_begin_searches_witness :
  Boot.begin BootSamples.still_searching "sender/"
             (Boot.with_flash (snd (RCBridgeBase.reset BootSamples.flash_stored))
                              (BootSamples.sdk_on BootSamples.flash_stored))
             Samples.sender_paired Samples.radio_accepting
  = (None, set_matched false Samples.sender_paired,
     snd (RCBridgeBase.reset BootSamples.flash_stored),
     Boot.tuned Samples.radio_accepting).
Proof.
  assert (Hr : Boot.ready "sender/"
                 (Boot.with_flash (snd (RCBridgeBase.reset BootSamples.flash_stored))
                                  (BootSamples.sdk_on BootSamples.flash_stored))
                 Samples.radio_accepting).
  { unfold Boot.ready. cbn.
    split; [exists [123; 125]; split; reflexivity |]. repeat split. }
  assert (Hne : @None bool <> Some true) by discriminate.
  exact (reset_then_begin_searches BootSamples.still_searching "sender/"
           (BootSamples.sdk_on BootSamples.flash_stored) Samples.sender_paired
           (set_matched false Samples.sender_paired)
           Samples.radio_accepting (Boot.tuned Samples.radio_accepting) None
           eq_refl Hr eq_refl Hne).
Defined.

(** X17: a short write poisons the flash.  When a cold boot has found a
    peer but [file.write] takes fewer than the 22 bytes, [begin] returns
    false although the endpoint is matched, and leaves a blob under the
    peer's name; every later [begin] over that flash then returns false and
    leaves the flash as it is, whatever the search would do. *)
Theorem short_write_poisons_flash {R : Type} `{RoleLaws R}
        (search search' : R -> M (option bool * R))
        (dir : string) (sdk : Sdk) (r r1 r' : R) (w w1 w' : World) :
  Boot.ready dir sdk w ->
  blobs (flash sdk) !! FPATH_PEER = None ->
  search (set_matched false r) (Boot.tuned w) = (Some true, r1, w1) ->
  peer_sized (get_peer r1) ->
  write_protected (flash sdk) = false ->
  0 <= write_count sdk < 22 ->
  Boot.ready dir sdk w' ->
  exists fl,
    Boot.begin search dir sdk r w = (Some false, r1, fl, w1) /\
    is_Some (blobs fl !! FPATH_PEER) /\
    fst (fst (fst (Boot.begin search' dir (Boot.with_flash fl sdk) r' w'))) = Some false /\
    snd (fst (Boot.begin search' dir (Boot.with_flash fl sdk) r' w')) = fl.
Proof.
  intros Hready Hnone Hsearch Hsized Hwp Hcount Hready'.
  destruct (image_of_sized _ Hsized) as [Hlen _].
  rewrite (cold_boot_saves search dir sdk r r1 w w1 Hready Hnone Hsearch Hwp).
  destruct (Z.eqb_spec (write_count sdk) sizeof_peer) as [He | _];
    [unfold sizeof_peer in He; lia |]. cbn [negb].
  set (short := take (Z.to_nat (write_count sdk)) (peer_image (get_peer r1))).
  set (fl := mkFlash (<[FPATH_PEER := short]> (blobs (flash sdk))) false).
  assert (Hstored : blobs fl !! FPATH_PEER = Some short)
    by (unfold fl; cbn [blobs]; apply lookup_insert_eq).
  assert (Hshort : Z.of_nat (length short) < 22).
  { unfold short. rewrite length_take. lia. }
  assert (Hready2 : Boot.ready dir (Boot.with_flash fl sdk) w').
  { destruct Hready' as ((file & Hfile & Hjson) & Hrest).
    split; [| exact Hrest]. exists file. split; [| exact Hjson].
    cbn [flash Boot.with_flash]. unfold fl. cbn [blobs].
    destruct (decide (FPATH_PEER = String.append dir FNAME_JSON)) as [He | Hne].
    - rewrite <- He in Hfile. congruence.
    - now rewrite lookup_insert_ne. }
  destruct (begin_rejects_short_blob search' dir (Boot.with_flash fl sdk) r' w' short
                                     Hready2 Hstored Hshort) as (Hres & Hfl & _).
  exists fl. split; [reflexivity |]. split; [now exists short |].
  split; [exact Hres | exact Hfl].
Qed.

Lemma short_write_poisons_flash_witness :
  exists fl,
    Boot.begin BootSamples.found_at_once "sender/"
               (mkSdk BootSamples.flash_fresh 10 (fun _ => true) true true true 0 0 0 0 0)
               Samples.sender_paired Samples.radio_accepting
    = (Some false, BasicSender.mk true (mkPeer Samples.mac_receiver Samples.key0) F32.one,
       fl, Boot.tuned Samples.radio_accepting) /\
    is_Some (blobs fl !! FPATH_PEER) /\
    fst (fst (fst (Boot.begin BootSamples.found_at_once "sender/"
                     (Boot.with_flash fl
                        (mkSdk BootSamples.flash_fresh 10 (fun _ => true) true true true
                               0 0 0 0 0))
                     Samples.sender_paired BootSamples.radio_deaf))) = Some false /\
    snd (fst (Boot.begin BootSamples.found_at_once "sender/"
                (Boot.with_flash fl
                   (mkSdk BootSamples.flash_fresh 10 (fun _ => true) true true true
                          0 0 0 0 0))
                Samples.sender_paired BootSamples.radio_deaf)) = fl.
Proof.
  assert (Hr : forall w, chan_ok w 0%nat = true ->
                 Boot.ready "sender/"
                   (mkSdk BootSamples.flash_fresh 10 (fun _ => true) true true true 0 0 0 0 0) w).
  { intros w Hw. unfold Boot.ready. cbn.
    split; [exists [123; 125]; split; reflexivity |]. repeat split. exact Hw. }
  assert (Hc : 0 <= 10 < 22) by lia.
  exact (short_write_poisons_flash
           BootSamples.found_at_once BootSamples.found_at_once "sender/"
           (mkSdk BootSamples.flash_fresh 10 (fun _ => true) true true true 0 0 0 0 0)
           Samples.sender_paired
           (BasicSender.mk true (mkPeer Samples.mac_receiver Samples.key0) F32.one)
           Samples.sender_paired
           Samples.radio_accepting (Boot.tuned Samples.radio_accepting) BootSamples.radio_deaf
           (Hr Samples.radio_accepting eq_refl) eq_refl eq_refl (conj eq_refl eq_refl)
           eq_refl Hc (Hr BootSamples.radio_deaf eq_refl)).
Defined.

(** ** The sender's search loop *)

Lemma beacons_app (t1 t2 : list effect) :
  SenderBoot.beacons (t1 ++ t2) = SenderBoot.beacons t1 + SenderBoot.beacons t2.
Proof.
  induction t1 as [| e t1 IH]; [reflexivity |].
  cbn [app SenderBoot.beacons]. rewrite IH.
  destruct e as [da [| c [| c' frame]] rc | | |]; lia.
Qed.

(** The sender's upcalls and [send] never read the clock and never hand a
    beacon to the radio. *)
Lemma sender_step_no_beacon (s : BasicSender.t) (e : BasicSender.event) (w : World) :
  clock (snd (BasicSender.step s e w)) = clock w /\
  exists l, trace (snd (BasicSender.step s e w)) = trace w ++ l /\ SenderBoot.beacons l = 0.
Proof.
  destruct e as [a data len | a status | len data]; cbn [BasicSender.step].
  - unfold BasicSender.onReceived.
    destruct (negb (BasicSender.matched s)).
    + destruct ((len =? 1 + sizeof_key) && (nth 0 data 0 =? RPL_SEARCH)); cbn;
        (split; [reflexivity |]; exists []; now rewrite app_nil_r).
    + destruct ((len =? 2) && (nth 0 data 0 =? RPL_HOP)); cbn;
        (split; [reflexivity |]).
      * eexists. split; reflexivity.
      * exists []. now rewrite app_nil_r.
  - destruct (BasicSender.matched s) eqn:Hm.
    + rewrite (paired_onSent s a status w Hm).
      destruct (F32.ltb _ _); cbn [snd clock trace]; (split; [reflexivity |]).
      * eexists. split; reflexivity.
      * exists []. now rewrite app_nil_r.
    + unfold BasicSender.onSent. rewrite Hm. cbn.
      split; [reflexivity |]. exists []. now rewrite app_nil_r.
  - unfold bind, BasicSender.send.
    destruct (249 <? len).
    + cbn. split; [reflexivity |]. exists []. now rewrite app_nil_r.
    + unfold bind, esp_now_send, ret.
      destruct (negb (send_rc w 0%nat =? 0)); cbn [snd clock trace];
        (split; [reflexivity |]; eexists; split; [reflexivity |]);
        cbn [SenderBoot.beacons];
        destruct (take (Z.to_nat (uint8 (len + 1))) (CMD_DATA :: take (Z.to_nat len) data))
          as [| c [| c' frame]] eqn:Hf; try reflexivity;
        (destruct (Z.to_nat (uint8 (len + 1))); [discriminate Hf |];
         cbn in Hf; injection Hf as <- _; reflexivity).
Qed.

Lemma sender_run_no_beacon (es : list BasicSender.event) (s : BasicSender.t) (w : World) :
  clock (snd (BasicSender.run es s w)) = clock w /\
  exists l, trace (snd (BasicSender.run es s w)) = trace w ++ l /\ SenderBoot.beacons l = 0.
Proof.
  revert s w. induction es as [| e es IH]; intros s w.
  - cbn. split; [reflexivity |]. exists []. now rewrite app_nil_r.
  - cbn [BasicSender.run]. unfold bind.
    destruct (sender_step_no_beacon s e w) as (Hc1 & l1 & Ht1 & Hb1).
    destruct (BasicSender.step s e w) as [s1 w1]. cbn [snd] in *.
    destruct (IH s1 w1) as (Hc2 & l2 & Ht2 & Hb2).
    split; [congruence |]. exists (l1 ++ l2).
    split; [rewrite Ht2, Ht1; now rewrite app_assoc |].
    rewrite beacons_app. lia.
Qed.

Lemma steady_tail (T : Z) (c : nat -> Z) : steady T c -> steady T (tail_of c).
Proof.
  intros [Hm Hb]. split; unfold tail_of.
  - intros i j Hij. apply Hm. lia.
  - intros i. apply Hb.
Qed.

Lemma search_loop_paced (polls : list (list BasicSender.event)) :
  forall (last_time T : Z) (s : BasicSender.t) (w : World),
    steady T (clock w) -> T < 4294967296 ->
    0 <= last_time <= clock w 0%nat ->
    exists l, trace (snd (SenderBoot.search_loop polls last_time s w)) = trace w ++ l /\
              500000 * SenderBoot.beacons l <= T - last_time.
Proof.
  induction polls as [| upcalls polls IH]; intros last_time T s w Hsteady HT Hlast;
    pose proof (proj2 Hsteady 0%nat) as Hnow;
    cbn [SenderBoot.search_loop]; destruct (negb (BasicSender.matched s));
    try (exists []; cbn; rewrite app_nil_r; split; [reflexivity | lia]).
  unfold bind at 1. unfold micros at 1.
  set (now := clock w 0%nat) in *.
  set (w1 := mkWorld (trace w) (send_rc w) (chan_ok w) (tail_of (clock w)) (prng w) (seed w)
                     (draws w)).
  assert (Hu : uint32 (now - last_time) = now - last_time)
    by (unfold uint32; apply Z.mod_small; lia).
  rewrite Hu.
  assert (Hs1 : steady T (tail_of (clock w))) by now apply steady_tail.
  assert (Hnext : now <= tail_of (clock w) 0%nat)
    by (unfold tail_of, now; apply (proj1 Hsteady); lia).
  destruct (Z.leb_spec 500000 (now - last_time)) as [Hdue | Hearly].
  - unfold bind at 1. unfold esp_now_send at 1. cbn [send_rc trace chan_ok clock prng seed draws w1].
    change (take (Z.to_nat 1) [CMD_SEARCH]) with [CMD_SEARCH].
    set (w2 := mkWorld _ _ _ _ _ _ _).
    destruct (negb (send_rc w 0%nat =? 0)).
    + cbn. eexists. split; [reflexivity |]. cbn. lia.
    + unfold bind, SenderBoot.handleClient.
      destruct (sender_run_no_beacon upcalls s w2) as (Hc & l1 & Ht1 & Hb1).
      destruct (BasicSender.run upcalls s w2) as [s3 w3]. cbn [snd] in Hc, Ht1.
      destruct (IH now T s3 w3) as (l2 & Ht2 & Hb2);
        [rewrite Hc; exact Hs1 | exact HT | rewrite Hc; cbn [clock w2]; lia |].
      eexists. split.
      * rewrite Ht2, Ht1. cbn [trace w2]. rewrite <- !app_assoc. reflexivity.
      * rewrite !beacons_app. cbn [SenderBoot.beacons]. change (CMD_SEARCH =? CMD_SEARCH) with true.
        cbv iota. lia.
  - unfold bind, SenderBoot.handleClient.
    destruct (sender_run_no_beacon upcalls s w1) as (Hc & l1 & Ht1 & Hb1).
    destruct (BasicSender.run upcalls s w1) as [s3 w3]. cbn [snd] in Hc, Ht1.
    destruct (IH last_time T s3 w3) as (l2 & Ht2 & Hb2);
      [rewrite Hc; exact Hs1 | exact HT | rewrite Hc; cbn [clock w1]; lia |].
    eexists. split.
    + rewrite Ht2, Ht1. cbn [trace w1]. rewrite <- app_assoc. reflexivity.
    + rewrite beacons_app. lia.
Qed.

(** X18: the search beacons are paced.  On a clock that does not run
    backwards and stays within [0, T] below 2^32 microseconds,
    [searchForPeer] hands at most one beacon to the radio for every full
    500000 microseconds of T, however many times the loop turns and whatever
    upcalls arrive; in particular none before the clock reads 500000. *)
Theorem search_beacons_are_paced (polls : list (list BasicSender.event))
        (T : Z) (s : BasicSender.t) (w : World) :
  steady T (clock w) ->
  T < 4294967296 ->
  exists l, trace (snd (SenderBoot.searchForPeer polls s w)) = trace w ++ l /\
            500000 * SenderBoot.beacons l <= T.
Proof.
  intros Hsteady HT.
  destruct (search_loop_paced polls 0 T s w Hsteady HT) as (l & Ht & Hb).
  - pose proof (proj2 Hsteady 0%nat). lia.
  - exists l. split; [exact Ht | lia].
Qed.

Lemma search_beacons_are_paced_witness :
  exists l,
    trace (snd (SenderBoot.searchForPeer [[]; [BasicSender.Sent Samples.mac_receiver 1]; []; []]
                                         BootSamples.sender_unpaired BootSamples.radio_slow))
    = trace BootSamples.radio_slow ++ l /\
    500000 * SenderBoot.beacons l <= 2000000.
Proof.
  apply (search_beacons_are_paced [[]; [BasicSender.Sent Samples.mac_receiver 1]; []; []]
                                  2000000 BootSamples.sender_unpaired BootSamples.radio_slow).
  - split; intros; cbn [clock BootSamples.radio_slow]; lia.
  - lia.
Defined.

Lemma search_loop_result (polls : list (list BasicSender.event)) :
  forall (last_time : Z) (s : BasicSender.t) (w : World),
    let res := SenderBoot.search_loop polls last_time s w in
    match fst (fst res) with
    | Some true => BasicSender.matched (snd (fst res)) = true
    | Some false =>
        BasicSender.matched (snd (fst res)) = false /\
        exists t rc, rc <> 0 /\
          trace (snd res) = t ++ [Tx SenderBoot.broadcast [CMD_SEARCH] rc]
    | None => BasicSender.matched (snd (fst res)) = false
    end.
Proof.
  cbv zeta.
  induction polls as [| upcalls polls IH]; intros last_time s w;
    cbn [SenderBoot.search_loop]; destruct (BasicSender.matched s) eqn:Hm; cbn [negb];
    try (cbn; exact Hm).
  unfold bind, micros, esp_now_send, SenderBoot.handleClient.
  cbv beta iota zeta. cbn [send_rc trace chan_ok clock prng seed draws].
  destruct (500000 <=? uint32 (clock w 0%nat - last_time)); cbv beta iota zeta;
    cbn [send_rc trace chan_ok clock prng seed draws].
  - destruct (Z.eqb_spec (send_rc w 0%nat) 0) as [He | Hne]; cbn [negb].
    + match goal with
      | |- context [BasicSender.run upcalls s ?W] =>
          destruct (BasicSender.run upcalls s W) as [s1 w1]
      end.
      exact (IH _ s1 w1).
    + cbn. split; [exact Hm |]. exists (trace w), (send_rc w 0%nat). now split.
  - match goal with
    | |- context [BasicSender.run upcalls s ?W] =>
        destruct (BasicSender.run upcalls s W) as [s1 w1]
    end.
    exact (IH _ s1 w1).
Qed.

(** X19: what the sender's search returns.  [searchForPeer] returns true
    only with the endpoint matched, and false only unmatched and right after
    the radio has refused a beacon, the one byte [CMD_SEARCH] for the
    broadcast address; while it has not returned the endpoint is unmatched. *)
Theorem search_result_tells (polls : list (list BasicSender.event))
        (s : BasicSender.t) (w : World) :
  let res := SenderBoot.searchForPeer polls s w in
  match fst (fst res) with
  | Some true => BasicSender.matched (snd (fst res)) = true
  | Some false =>
      BasicSender.matched (snd (fst res)) = false /\
      exists t rc, rc <> 0 /\
        trace (snd res) = t ++ [Tx SenderBoot.broadcast [CMD_SEARCH] rc]
  | None => BasicSender.matched (snd (fst res)) = false
  end.
Proof. exact (search_loop_result polls 0 s w). Qed.

(** ** The receiver's search loop *)

Lemma receiver_run_app (es1 es2 : list BasicReceiver.event) (r : BasicReceiver.t) (w : World) :
  BasicReceiver.run (es1 ++ es2) r w
  = BasicReceiver.run es2 (fst (BasicReceiver.run es1 r w)) (snd (BasicReceiver.run es1 r w)).
Proof.
  revert r w. induction es1 as [| e es1 IH]; intros r w; [reflexivity |].
  cbn [app BasicReceiver.run]. unfold bind.
  destruct (BasicReceiver.step r e w) as [r1 w1]. apply IH.
Qed.

(** A successful ack among the upcalls leaves the receiver paired. *)
Lemma ack_pairs (es : list BasicReceiver.event) (r : BasicReceiver.t) (w : World) :
  Exists (fun e => exists a, e = BasicReceiver.Sent a 0) es ->
  BasicReceiver.matched (fst (BasicReceiver.run es r w)) = true.
Proof.
  intros Hex. revert r w. induction Hex as [e es [a ->] | e es _ IH]; intros r w.
  - cbn [BasicReceiver.run]. unfold bind.
    assert (H1 : BasicReceiver.matched (fst (BasicReceiver.step r (BasicReceiver.Sent a 0) w))
                 = true).
    { destruct (BasicReceiver.matched r) eqn:Hm.
      - exact (proj1 (receiver_step_keeps_pairing r (BasicReceiver.Sent a 0) w Hm)).
      - cbn [BasicReceiver.step]. unfold BasicReceiver.onSent. rewrite Hm. reflexivity. }
    destruct (BasicReceiver.step r (BasicReceiver.Sent a 0) w) as [r1 w1].
    now apply receiver_run_keeps_pairing.
  - cbn [BasicReceiver.run]. unfold bind.
    destruct (BasicReceiver.step r e w) as [r1 w1]. apply IH.
Qed.

(** X20: the receiver's search ends with the first acknowledged reply.
    Started unpaired, [searchForPeer] goes on through every pass in which no
    ack reports status 0 and returns true at the end of the first pass that
    brings such an ack: what it has done by then is what the upcalls of
    those passes did, in order, and the upcalls of later passes are not
    its business. *)
Theorem receiver_search_ends_on_ack (pre : list (list BasicReceiver.event))
        (p : list BasicReceiver.event) (post : list (list BasicReceiver.event))
        (r : BasicReceiver.t) (w : World) :
  BasicReceiver.matched r = false ->
  Forall (Forall BasicReceiver.ack_failed) pre ->
  Exists (fun e => exists a, e = BasicReceiver.Sent a 0) p ->
  let done := BasicReceiver.run (concat pre ++ p) r w in
  ReceiverBoot.searchForPeer (pre ++ p :: post) r w = (Some true, fst done, snd done) /\
  BasicReceiver.matched (fst done) = true /\
  forall k, (k <= length pre)%nat ->
            fst (fst (ReceiverBoot.searchForPeer (take k pre) r w)) = None.
Proof.
  intros Hm Hpre Hp. cbv zeta. revert r w Hm.
  induction Hpre as [| q pre Hq Hpre IH]; intros r w Hm.
  - cbn [concat app ReceiverBoot.searchForPeer]. rewrite Hm. cbn [negb].
    unfold bind, ReceiverBoot.handleClient.
    pose proof (ack_pairs p r w Hp) as Hdone.
    destruct (BasicReceiver.run p r w) as [r1 w1]. cbn [fst snd] in *.
    split; [| split; [exact Hdone |]].
    + destruct post; cbn [ReceiverBoot.searchForPeer]; rewrite Hdone; reflexivity.
    + intros k Hk. replace k with 0%nat by (cbn in Hk; lia). cbn. now rewrite Hm.
  - cbn [concat app ReceiverBoot.searchForPeer]. rewrite Hm. cbn [negb].
    unfold bind at 1. unfold ReceiverBoot.handleClient at 1.
    rewrite <- app_assoc, receiver_run_app.
    destruct (unpaired_run q r w Hm Hq) as [Hm1 _].
    destruct (BasicReceiver.run q r w) as [r1 w1] eqn:Hrun. cbn [fst snd] in *.
    destruct (IH r1 w1 Hm1) as (H1 & H2 & H3).
    split; [exact H1 |]. split; [exact H2 |].
    intros [| k] Hk.
    + cbn. now rewrite Hm.
    + cbn [take ReceiverBoot.searchForPeer]. rewrite Hm. cbn [negb].
      unfold bind, ReceiverBoot.handleClient. rewrite Hrun.
      apply H3. cbn in Hk. lia.
Qed.

Lemma receiver_search_ends_on_ack_witness :
  let pre := [[BasicReceiver.Received Samples.mac_sender [CMD_SEARCH] 1];
              [BasicReceiver.Sent Samples.mac_sender 1]] in
  let p := [BasicReceiver.Received Samples.mac_sender [CMD_SEARCH] 1;
            BasicReceiver.Sent Samples.mac_sender 0] in
  let done := BasicReceiver.run (concat pre ++ p) Samples.receiver_unpaired
                                Samples.radio_accepting in
  ReceiverBoot.searchForPeer (pre ++ p :: [[BasicReceiver.Sent Samples.mac_sender 0]])
                             Samples.receiver_unpaired Samples.radio_accepting
  = (Some true, fst done, snd done) /\
  BasicReceiver.matched (fst done) = true /\
  forall k, (k <= length pre)%nat ->
            fst (fst (ReceiverBoot.searchForPeer (take k pre) Samples.receiver_unpaired
                                                 Samples.radio_accepting)) = None.
Proof.
  intros pre p.
  apply (receiver_search_ends_on_ack pre p [[BasicReceiver.Sent Samples.mac_sender 0]]
                                     Samples.receiver_unpaired Samples.radio_accepting).
  - reflexivity.
  - repeat constructor. cbn. lia.
  - apply Exists_cons_tl, Exists_cons_hd. now exists Samples.mac_sender.
Defined.

(** X21: the receiver pairs with the sender of the latest beacon.  While
    unpaired every beacon is answered and overwrites the peer record, and
    the ack that pairs is not matched against an address: after any upcalls
    without a successful ack, a beacon from [a2] followed by an ack with
    status 0 for whatever address [a] leaves the receiver paired with [a2]
    and the key of the reply sent to [a2]. *)
Theorem receiver_pairs_with_latest_beacon (es : list BasicReceiver.event)
        (r : BasicReceiver.t) (a2 a : list Z) (w : World) :
  BasicReceiver.matched r = false ->
  Forall BasicReceiver.ack_failed es ->
  let res := BasicReceiver.run
               (es ++ [BasicReceiver.Received a2 [CMD_SEARCH] 1; BasicReceiver.Sent a 0]) r w in
  BasicReceiver.matched (fst res) = true /\
  addr (BasicReceiver.peer (fst res)) = take 6 a2 /\
  length (key (BasicReceiver.peer (fst res))) = 16%nat /\
  exists t rc,
    trace (snd res) = t ++ [Tx (take 6 a2) (RPL_SEARCH :: key (BasicReceiver.peer (fst res))) rc].
Proof.
  intros Hm Hes res. unfold res. rewrite receiver_run_app.
  destruct (unpaired_run es r w Hm Hes) as [Hm1 _].
  destruct (BasicReceiver.run es r w) as [r1 w1]. cbn [fst snd] in *.
  cbn [BasicReceiver.run BasicReceiver.step]. unfold bind.
  rewrite (unpaired_answers_search r1 a2 [CMD_SEARCH] w1 Hm1 eq_refl).
  unfold BasicReceiver.onSent, ret.
  cbn [BasicReceiver.matched BasicReceiver.peer negb Z.eqb fst snd addr key trace].
  split; [reflexivity |]. split; [reflexivity |]. split; [apply length_key_of_seed |].
  eexists. eexists. reflexivity.
Qed.

Lemma receiver_pairs_with_latest_beacon_witness :
  let res := BasicReceiver.run
               ([BasicReceiver.Received Samples.mac_sender [CMD_SEARCH] 1]
                ++ [BasicReceiver.Received Samples.mac_receiver [CMD_SEARCH] 1;
                    BasicReceiver.Sent Samples.mac_sender 0])
               Samples.receiver_unpaired Samples.radio_accepting in
  BasicReceiver.matched (fst res) = true /\
  addr (BasicReceiver.peer (fst res)) = take 6 Samples.mac_receiver /\
  length (key (BasicReceiver.peer (fst res))) = 16%nat /\
  exists t rc,
    trace (snd res)
    = t ++ [Tx (take 6 Samples.mac_receiver)
               (RPL_SEARCH :: key (BasicReceiver.peer (fst res))) rc].
Proof.
  apply (receiver_pairs_with_latest_beacon
           [BasicReceiver.Received Samples.mac_sender [CMD_SEARCH] 1]
           Samples.receiver_unpaired Samples.mac_receiver Samples.mac_sender
           Samples.radio_accepting eq_refl).
  repeat constructor.
Defined.

(** ** The estimator under failed acks *)

(** The machine's [<=] on canonical values agrees with their values. *)
Lemma upto_leb (m : positive) (e : Z) (x : F32.float) :
  bounded F32.prec F32.emax m e = true ->
  F32.upto (F32.scaled m e) x ->
  F32.leb x (S754_finite false m e) = true.
Proof.
  intros Hb Hx. destruct x as [[|] | | | [|] m' e']; try contradiction; [reflexivity |].
  destruct Hx as [Hb' Hle].
  pose proof (bounded_inv m e Hb) as (He & Hm & Hn).
  pose proof (bounded_inv m' e' Hb') as (He' & Hm' & Hn').
  unfold F32.leb, SFleb. cbn [SFcompare]. unfold F32.scaled in Hle.
  destruct (Z.compare_spec e' e) as [-> | Hlt | Hgt]; [| reflexivity |].
  - assert (0 < 2 ^ (e + F32.bias)) by (apply pow2_pos; unfold F32.bias; lia).
    assert (Hmm : Z.pos m' <= Z.pos m) by nia.
    rewrite Pos.compare_cont_spec. cbn [Pos.switch_Eq].
    destruct (Pos.compare_spec m' m); [reflexivity | reflexivity | lia].
  - exfalso. specialize (Hn' ltac:(lia)).
    assert (Hp : 2 ^ (e' + F32.bias) = 2 ^ (e' - e) * 2 ^ (e + F32.bias)).
    { replace (e' + F32.bias) with ((e' - e) + (e + F32.bias)) by lia.
      apply pow2_add; unfold F32.bias; lia. }
    assert (H2 : 2 ^ 1 <= 2 ^ (e' - e)) by (apply pow2_le; lia).
    change (2 ^ 1) with 2 in H2.
    assert (0 < 2 ^ (e + F32.bias)) by (apply pow2_pos; unfold F32.bias; lia).
    change (2 ^ 23) with 8388608 in Hn'. change (2 ^ 24) with 16777216 in Hm.
    rewrite Hp in Hle. nia.
Qed.

(** A failed ack report never raises the smoothed value. *)
Lemma smoothed_failed_leb (q : F32.float) (status : Z) :
  F32.unit_ok q -> status <> 0 ->
  F32.leb (BasicSender.smoothed q status) q = true.
Proof.
  intros Hq Hst. unfold BasicSender.smoothed. rewrite contribution_bits.
  destruct (Z.eqb_spec status 0); [contradiction |].
  destruct q as [[|] | | | [|] m e]; try contradiction.
  - rewrite cw_bits. reflexivity.
  - destruct Hq as [Hb _].
    assert (Hself : F32.upto (F32.scaled m e) (S754_finite false m e))
      by (split; [exact Hb | lia]).
    pose proof (mul_cw_upto _ m e Hb Hself) as Hx.
    rewrite (add_zero_r _ _ Hx). now apply upto_leb.
Qed.

(** X22: a failed ack never raises the link quality.  For a paired sender
    whose estimate is a canonical value in [0, 1], an ack report with a
    status other than 0 leaves an estimate that is at most the old one in
    the comparison of binary32, unless the report brought the estimate
    under the threshold and the radio took the hop request, which sets it
    to 1.0. *)
Theorem failed_ack_never_raises (s : BasicSender.t) (a : list Z) (status : Z) (w : World) :
  BasicSender.matched s = true ->
  F32.unit_ok (BasicSender.radio_quality s) ->
  status <> 0 ->
  let s' := fst (BasicSender.onSent s a status w) in
  F32.leb (BasicSender.radio_quality s') (BasicSender.radio_quality s) = true \/
  (BasicSender.radio_quality s' = F32.one /\ send_rc w 0%nat = 0 /\
   F32.ltb (BasicSender.smoothed (BasicSender.radio_quality s) status)
           BasicSender.hop_threshold = true).
Proof.
  intros Hm Hq Hst s'. unfold s'.
  pose proof (smoothed_failed_leb _ status Hq Hst) as Hle.
  unfold BasicSender.onSent. rewrite Hm. cbn [negb]. cbv zeta.
  destruct (F32.ltb _ BasicSender.hop_threshold) eqn:Hlow.
  - unfold bind, BasicSender.onLowRadioQuality, esp_now_send, ret.
    cbn [send_rc log trace chan_ok clock prng seed draws].
    destruct (Z.eqb_spec (send_rc w 0%nat) 0) as [He | Hne]; cbn [fst BasicSender.radio_quality].
    + right. now repeat split.
    + left. exact Hle.
  - left. exact Hle.
Qed.

Lemma failed_ack_never_raises_witness :
  let s' := fst (BasicSender.onSent Samples.sender_paired Samples.mac_receiver 1
                                    Samples.radio_accepting) in
  F32.leb (BasicSender.radio_quality s') (BasicSender.radio_quality Samples.sender_paired)
  = true \/
  (BasicSender.radio_quality s' = F32.one /\ send_rc Samples.radio_accepting 0%nat = 0 /\
   F32.ltb (BasicSender.smoothed (BasicSender.radio_quality Samples.sender_paired) 1)
           BasicSender.hop_threshold = true).
Proof.
  apply (failed_ack_never_raises Samples.sender_paired Samples.mac_receiver 1
                                 Samples.radio_accepting eq_refl one_unit_ok).
  lia.
Defined.

(** ** What a successful [begin] means *)

Lemma take_image (l : list Z) : take 6 l ++ take 16 (drop 6 l) = take 22 l.
Proof.
  rewrite <- (take_drop 6 (take 22 l)). f_equal.
  - rewrite take_take. reflexivity.
  - rewrite skipn_firstn_comm. reflexivity.
Qed.

(** X23: [begin] returns true only when every start-up call has succeeded,
    the radio has taken the initial channel and the peer is registered; the
    endpoint is then matched, and the flash holds a peer blob whose first 22
    bytes are those of the peer record in memory, whether it was read from
    there or has just been written. *)
Theorem begin_true_means_ready {R : Type} `{RoleLaws R}
        (searchForPeer : R -> M (option bool * R))
        (dir : string) (sdk : Sdk) (r : R) (w : World) :
  let res := Boot.begin searchForPeer dir sdk r w in
  fst (fst (fst res)) = Some true ->
  Boot.ready dir sdk w /\ add_peer_rc sdk = 0 /\
  get_matched (snd (fst (fst res))) = true /\
  exists blob,
    blobs (snd (fst res)) !! FPATH_PEER = Some blob /\
    take 22 blob = take 22 (peer_image (get_peer (snd (fst (fst res))))).
Proof.
  intros res Hres.
  assert (Hdef : res = Boot.begin searchForPeer dir sdk r w) by reflexivity.
  clearbody res. unfold Boot.begin in Hdef. unfold Boot.ready.
  destruct (blobs (flash sdk) !! String.append dir FNAME_JSON) as [file |] eqn:Hfile;
    [| subst res; discriminate].
  destruct (json_ok sdk file) eqn:Hjson; [| subst res; discriminate].
  destruct (wifi_mode_ok sdk); [| subst res; discriminate].
  destruct (soft_ap_ok sdk); [| subst res; discriminate].
  destruct (soft_ap_config_ok sdk); [| subst res; discriminate].
  cbn [negb] in Hdef. unfold bind at 1 in Hdef. unfold wifi_set_channel at 1 in Hdef.
  destruct (chan_ok w 0%nat); [| subst res; discriminate]. cbn [negb] in Hdef.
  destruct (Z.eqb_spec (esp_now_init_rc sdk) 0) as [-> |]; [| subst res; discriminate].
  destruct (Z.eqb_spec (set_self_role_rc sdk) 0) as [-> |]; [| subst res; discriminate].
  destruct (Z.eqb_spec (register_send_cb_rc sdk) 0) as [-> |]; [| subst res; discriminate].
  destruct (Z.eqb_spec (register_recv_cb_rc sdk) 0) as [-> |]; [| subst res; discriminate].
  cbn [negb] in Hdef. rewrite flash_exists in Hdef.
  assert (Hready : (exists f, Some file = Some f /\ json_ok sdk f = true) /\
                   true = true /\ true = true /\ true = true /\ true = true /\
                   0 = 0 /\ 0 = 0 /\ 0 = 0 /\ 0 = 0)
    by (split; [exists file; now split | repeat split]).
  split; [exact Hready |]. clear Hready.
  destruct (blobs (flash sdk) !! FPATH_PEER) as [blob |] eqn:Hblob.
  - cbv zeta in Hdef.
    destruct (Z.eqb_spec (Z.min sizeof_peer (Z.of_nat (length blob))) sizeof_peer)
      as [Hn | Hn]; [| subst res; discriminate]. cbn [negb] in Hdef.
    unfold Boot.add_peer, ret in Hdef.
    destruct (Z.eqb_spec (add_peer_rc sdk) 0) as [Hadd |]; [| subst res; discriminate].
    cbn [negb] in Hdef. subst res. cbn [fst snd].
    split; [exact Hadd |].
    rewrite matched_set_matched, peer_set_matched, peer_set_peer.
    split; [reflexivity |]. exists blob. split; [exact Hblob |].
    assert (Hlen : 22 <= Z.of_nat (length blob)) by (unfold sizeof_peer in Hn; lia).
    destruct (image_read blob (peer_image (get_peer (set_matched false r))) Hlen) as [_ Himg].
    cbv zeta in Himg. rewrite Himg. unfold peer_image. cbn [addr key].
    rewrite take_image, take_take. reflexivity.
  - unfold bind in Hdef.
    destruct (searchForPeer _ _) as [[[[|] |] r1] w1]; try (subst res; discriminate).
    destruct (write_protected (flash sdk)); [subst res; discriminate |].
    destruct (Z.eqb_spec (write_count sdk) sizeof_peer) as [Hn | Hn];
      [| subst res; discriminate].
    cbn [negb] in Hdef. unfold Boot.add_peer, ret in Hdef.
    destruct (Z.eqb_spec (add_peer_rc sdk) 0) as [Hadd |]; [| subst res; discriminate].
    cbn [negb] in Hdef. subst res. cbn [fst snd].
    split; [exact Hadd |].
    rewrite matched_set_matched, peer_set_matched.
    split; [reflexivity |]. eexists. split; [cbn [blobs]; apply lookup_insert_eq |].
    rewrite Hn. change (Z.to_nat sizeof_peer) with 22%nat. rewrite take_take. reflexivity.
Qed.

Lemma begin_true_means_ready_witness :
  let res := Boot.begin BootSamples.found_at_once "sender/"
                        (BootSamples.sdk_on BootSamples.flash_fresh)
                        Samples.sender_paired Samples.radio_accepting in
  Boot.ready "sender/" (BootSamples.sdk_on BootSamples.flash_fresh) Samples.radio_accepting /\
  add_peer_rc (BootSamples.sdk_on BootSamples.flash_fresh) = 0 /\
  get_matched (snd (fst (fst res))) = true /\
  exists blob,
    blobs (snd (fst res)) !! FPATH_PEER = Some blob /\
    take 22 blob = take 22 (peer_image (get_peer (snd (fst (fst res))))).
Proof.
  apply (begin_true_means_ready BootSamples.found_at_once "sender/"
                                (BootSamples.sdk_on BootSamples.flash_fresh)
                                Samples.sender_paired Samples.radio_accepting).
  vm_compute. reflexivity.
Defined.

(** ** The two roles' [begin] *)

(** The state a warm boot leaves, spelled out. *)
Lemma begin_loads_state {R : Type} `{RoleLaws R}
        (searchForPeer : R -> M (option bool * R))
        (dir : string) (sdk : Sdk) (r : R) (w : World) (file : list Z) :
  Boot.ready dir sdk w ->
  blobs (flash sdk) !! FPATH_PEER = Some file ->
  22 <= Z.of_nat (length file) ->
  add_peer_rc sdk = 0 ->
  Boot.begin searchForPeer dir sdk r w
  = (Some true,
     set_matched true (set_peer (mkPeer (take 6 file) (take 16 (drop 6 file)))
                                (set_matched false r)),
     flash sdk, Boot.tuned w).
Proof.
  intros Hready Hfile Hlen Hadd.
  rewrite (begin_ready searchForPeer dir sdk r w Hready). cbv zeta.
  rewrite flash_exists, Hfile.
  destruct (image_read file (peer_image (get_peer (set_matched false r))) Hlen) as [Hn Himg].
  cbv zeta in Hn, Himg. rewrite Himg, Hn. cbn [Z.eqb negb].
  unfold Boot.add_peer. rewrite Hadd. reflexivity.
Qed.

(** X24: a warm boot of the sender starts from a clean slate.  With the
    start-up calls succeeding and a stored peer of 22 bytes or more,
    [BasicSender::begin] returns true with the endpoint matched to the
    stored peer and the link quality at 1.0, whatever the three members held
    before; it sends nothing and leaves the flash as it was. *)
Theorem sender_warm_boot (polls : list (list BasicSender.event)) (sdk : Sdk)
        (s : BasicSender.t) (w : World) (file : list Z) :
  Boot.ready "sender/" sdk w ->
  blobs (flash sdk) !! FPATH_PEER = Some file ->
  22 <= Z.of_nat (length file) ->
  add_peer_rc sdk = 0 ->
  SenderBoot.begin polls sdk s w
  = (Some true,
     BasicSender.mk true (mkPeer (take 6 file) (take 16 (drop 6 file))) F32.one,
     flash sdk, Boot.tuned w).
Proof.
  intros Hready Hfile Hlen Hadd. unfold SenderBoot.begin.
  now rewrite (begin_loads_state _ _ _ _ _ file Hready Hfile Hlen Hadd).
Qed.

Lemma sender_warm_boot_witness :
  SenderBoot.begin [] (BootSamples.sdk_on BootSamples.flash_stored)
                   BootSamples.sender_unpaired Samples.radio_accepting
  = (Some true,
     BasicSender.mk true
       (mkPeer (take 6 (Samples.mac_receiver ++ Samples.key0))
               (take 16 (drop 6 (Samples.mac_receiver ++ Samples.key0)))) F32.one,
     flash (BootSamples.sdk_on BootSamples.flash_stored), Boot.tuned Samples.radio_accepting).
Proof.
  apply (sender_warm_boot [] (BootSamples.sdk_on BootSamples.flash_stored)
                          BootSamples.sender_unpaired Samples.radio_accepting
                          (Samples.mac_receiver ++ Samples.key0)).
  - apply (ready_sample _ [123; 125]). reflexivity.
  - reflexivity.
  - cbn. lia.
  - reflexivity.
Defined.

(** X25: a warm boot of the receiver leaves its channel member on the
    channel the radio was tuned to.  With the start-up calls succeeding and
    a stored peer of 22 bytes or more, [BasicReceiver::begin] returns true
    matched to the stored peer, with [channel] the initial channel 7 and the
    hop direction +1; the one channel change it asked of the radio is to
    that channel, and the candidate member is not written. *)
Theorem receiver_warm_boot (polls : list (list BasicReceiver.event)) (sdk : Sdk)
        (r : BasicReceiver.t) (w : World) (file : list Z) :
  Boot.ready "receiver/" sdk w ->
  blobs (flash sdk) !! FPATH_PEER = Some file ->
  22 <= Z.of_nat (length file) ->
  add_peer_rc sdk = 0 ->
  let res := ReceiverBoot.begin polls sdk r w in
  fst (fst res)
  = (Some true,
     BasicReceiver.mk true (mkPeer (take 6 file) (take 16 (drop 6 file)))
                      INIT_CHANNEL 1 (BasicReceiver.new_channel r)) /\
  snd (fst res) = flash sdk /\
  BasicReceiver.channel_calls (trace (snd res))
  = BasicReceiver.channel_calls (trace w)
    ++ [(BasicReceiver.channel (snd (fst (fst res))), true)].
Proof.
  intros Hready Hfile Hlen Hadd res. unfold res, ReceiverBoot.begin.
  rewrite (begin_loads_state _ _ _ _ _ file Hready Hfile Hlen Hadd).
  cbn [fst snd]. split; [reflexivity |]. split; [reflexivity |].
  unfold Boot.tuned. cbn [trace]. now rewrite channel_calls_app.
Qed.

Lemma receiver_warm_boot_witness :
  let sdk := BootSamples.sdk_on BootSamples.flash_stored in
  let res := ReceiverBoot.begin [] sdk Samples.receiver_unpaired Samples.radio_accepting in
  fst (fst res)
  = (Some true,
     BasicReceiver.mk true
       (mkPeer (take 6 (Samples.mac_receiver ++ Samples.key0))
               (take 16 (drop 6 (Samples.mac_receiver ++ Samples.key0))))
       INIT_CHANNEL 1 (BasicReceiver.new_channel Samples.receiver_unpaired)) /\
  snd (fst res) = flash sdk /\
  BasicReceiver.channel_calls (trace (snd res))
  = BasicReceiver.channel_calls (trace Samples.radio_accepting)
    ++ [(BasicReceiver.channel (snd (fst (fst res))), true)].
Proof.
  intros sdk.
  apply (receiver_warm_boot [] sdk Samples.receiver_unpaired Samples.radio_accepting
                            (Samples.mac_receiver ++ Samples.key0)).
  - unfold Boot.ready. cbn.
    split; [exists [123; 125]; split; reflexivity |]. repeat split.
  - reflexivity.
  - cbn. lia.
  - reflexivity.
Defined.
